(** * WinManus: the agent loop and the WebSocket manager

    A shallow embedding of [src/lib/agent/AgentLoop.ts] (class [AgentLoop]) and
    of the client side of the WebSocket utility (class [WebSocketManager] and
    [getWebSocketManager]), followed by the properties of the orchestration
    core: single flight, progress reporting, history growth, error recovery,
    observer registration and the reconnect back-off.  The handlers [POST]
    and [GET] of the agent endpoint are embedded over the same agent loop
    (for request fields that are strings in [Api], for any JSON value in
    [ApiJson]), and the invariants of the three parts are proved at the
    end.

    Conventions of the embedding.
    - A JavaScript function value (a callback, a listener) is a reference; two
      references are [===] exactly when they are the same [nat].
    - Callbacks are passive observers: the model records what each of them is
      handed and assumes they do not call back into the object.  In the
      modules [Agent], [Ws] and [Api] they also return; the modules
      [AgentThrowing] and [WsThrowing] embed the same methods for callbacks
      that may throw, and agree with [Agent] and [Ws] when none does.
    - An [async] method is cut at its [await]s.  What runs between two awaits
      is one atomic function on the world; the suspended rest of the method is
      a value of type [Await]; the event loop resumes it with [settle].
    - What the environment decides (the reading of [Date.now()], whether the
      awaited work of a phase throws, the close code of a socket) is an input
      of the corresponding event. *)

From Stdlib Require Import List String Ascii Bool Arith ZArith QArith Qround.
From Stdlib Require Import Lia Sorted.
From Stdlib Require Import Floats.
Import ListNotations.

Open Scope string_scope.
Open Scope nat_scope.

(** ** JavaScript values shared by both classes *)

(** A function reference. *)
Definition FunRef := nat.

(** [cb !== callback] on function references. *)
Definition differs (callback cb : FunRef) : bool := negb (Nat.eqb cb callback).

(** A thrown value: an [Error] object with its [message], or any other value
    with the text [String(value)] gives for it. *)
Inductive Thrown :=
| ThrownError (message : string)
| ThrownOther (text : string).

(** [error instanceof Error ? error.message : String(error)] *)
Definition errorText (e : Thrown) : string :=
  match e with
  | ThrownError message => message
  | ThrownOther text => text
  end.

(** How the awaited part of a [try] block ends. *)
Inductive Settled :=
| Fulfilled
| Threw (e : Thrown).

(** [for (const f of fs) f(a)] when a call may throw: the calls made, in
    order, each with what it was handed, and how the loop ends.  The call
    that throws is the last one made. *)
Fixpoint callEach {A : Type} (behaviour : FunRef -> A -> Settled)
    (fs : list FunRef) (a : A) : list (FunRef * A) * Settled :=
  match fs with
  | [] => ([], Fulfilled)
  | f :: fs' =>
      match behaviour f a with
      | Fulfilled =>
          let (called, o) := callEach behaviour fs' a in ((f, a) :: called, o)
      | Threw e => ([(f, a)], Threw e)
      end
  end.

Inductive Level := LogLevel | WarnLevel | ErrorLevel.

(** One call of [console.log], [console.warn] or [console.error]: the level
    and the first argument (the later arguments are not kept). *)
Definition ConsoleLine := (Level * string)%type.

(** The double-quote character of the template literals. *)
Definition dq : string := String (ascii_of_nat 34) EmptyString.

(** [Math.floor((i / n) * k)] for array indices [i], a length [n] and an
    integer constant [k], computed over the rationals.  JavaScript computes it
    in binary64; [floorScaled_agrees] below checks that both agree for the
    plan length the source produces. *)
Definition floorScaled (i n : nat) (k : Z) : Z :=
  Qfloor ((inject_Z (Z.of_nat i) / inject_Z (Z.of_nat n)) * inject_Z k).

Module Binary64.

(** The integer part [Math.floor] leaves of a finite double. *)
Definition floor (f : float) : option Z :=
  match Prim2SF f with
  | S754_zero _ => Some 0%Z
  | S754_finite sign m e =>
      let n := if sign then Z.neg m else Z.pos m in
      Some (if (0 <=? e)%Z then n * 2 ^ e else n / 2 ^ (- e))%Z
  | _ => None
  end.

Definition ofNat (n : nat) : float := of_uint63 (Uint63.of_Z (Z.of_nat n)).

(** [Math.floor((i / n) * k)] as the engine evaluates it. *)
Definition floorScaled64 (i n : nat) (k : Z) : option Z :=
  floor (PrimFloat.mul (PrimFloat.div (ofNat i) (ofNat n))
           (of_uint63 (Uint63.of_Z k))).

(** The rational a finite double stands for, in lowest terms. *)
Definition exact (f : float) : option Q :=
  match Prim2SF f with
  | S754_zero _ => Some 0%Q
  | S754_finite sign m e =>
      let n := if sign then Z.neg m else Z.pos m in
      Some (Qred (inject_Z n * Qpower 2 e))
  | _ => None
  end.

End Binary64.

(** * AgentLoop.ts *)

Module Agent.

Inductive Status :=
| Idle | Planning | Executing | Observing | Updating | Completed | Error.

(** [this.state.status === 'error'] *)
Definition isError (s : Status) : bool :=
  match s with Error => true | _ => false end.

(** The record [executeStep] builds. *)
Record StepResult := { stepCompleted : string; output : string }.

(** The record [observeResult] builds. *)
Record Observation := { analysisOf : StepResult; feedback : string }.

(** The values stored under [result: any] of a history entry. *)
Inductive HistoryResult :=
| PlanValue (plan : list string)
| ResultValue (result : StepResult)
| ObservationValue (observation : Observation)
| UpdatedPlanValue (updatedPlan : list string).

Record AgentAction :=
  { action : string; result : HistoryResult; timestamp : Z }.

Record AgentState := {
  status : Status;
  currentTask : option string;
  plan : list string;
  progress : Z;
  currentStep : option string;
  results : list StepResult;
  error : option string;
  history : list AgentAction
}.

(** The keys of [AgentState]. *)
Inductive Field :=
| FStatus | FCurrentTask | FPlan | FProgress
| FCurrentStep | FResults | FError | FHistory.

(** One [key: value] of an object literal of type [Partial<AgentState>]. *)
Inductive Assign :=
| SetStatus (v : Status)
| SetCurrentTask (v : option string)
| SetPlan (v : list string)
| SetProgress (v : Z)
| SetCurrentStep (v : option string)
| SetResults (v : list StepResult)
| SetError (v : option string)
| SetHistory (v : list AgentAction).

(** [Partial<AgentState>]: the literal's entries in the order written. *)
Definition Updates := list Assign.

Definition key (a : Assign) : Field :=
  match a with
  | SetStatus _ => FStatus
  | SetCurrentTask _ => FCurrentTask
  | SetPlan _ => FPlan
  | SetProgress _ => FProgress
  | SetCurrentStep _ => FCurrentStep
  | SetResults _ => FResults
  | SetError _ => FError
  | SetHistory _ => FHistory
  end.

(** The keys an update names. *)
Definition keys (u : Updates) : list Field := map key u.

Definition assign (s : AgentState) (a : Assign) : AgentState :=
  match a with
  | SetStatus v =>
      {| status := v; currentTask := currentTask s; plan := plan s;
         progress := progress s; currentStep := currentStep s;
         results := results s; error := error s; history := history s |}
  | SetCurrentTask v =>
      {| status := status s; currentTask := v; plan := plan s;
         progress := progress s; currentStep := currentStep s;
         results := results s; error := error s; history := history s |}
  | SetPlan v =>
      {| status := status s; currentTask := currentTask s; plan := v;
         progress := progress s; currentStep := currentStep s;
         results := results s; error := error s; history := history s |}
  | SetProgress v =>
      {| status := status s; currentTask := currentTask s; plan := plan s;
         progress := v; currentStep := currentStep s;
         results := results s; error := error s; history := history s |}
  | SetCurrentStep v =>
      {| status := status s; currentTask := currentTask s; plan := plan s;
         progress := progress s; currentStep := v;
         results := results s; error := error s; history := history s |}
  | SetResults v =>
      {| status := status s; currentTask := currentTask s; plan := plan s;
         progress := progress s; currentStep := currentStep s;
         results := v; error := error s; history := history s |}
  | SetError v =>
      {| status := status s; currentTask := currentTask s; plan := plan s;
         progress := progress s; currentStep := currentStep s;
         results := results s; error := v; history := history s |}
  | SetHistory v =>
      {| status := status s; currentTask := currentTask s; plan := plan s;
         progress := progress s; currentStep := currentStep s;
         results := results s; error := error s; history := v |}
  end.

(** [{ ...s, ...updates }] *)
Definition spread (s : AgentState) (updates : Updates) : AgentState :=
  fold_left assign updates s.

(** The object: its three private fields. *)
Record AgentLoop := {
  state : AgentState;
  taskRunning : bool;
  updateCallbacks : list FunRef
}.

(** Where [startTask] is suspended: the [await] inside [planTask],
    [executeStep], [observeResult] or [updatePlan], with the local variables
    that are live across it ([i] is the loop counter of [runAgentLoop]). *)
Inductive Await :=
| AwaitPlan (plan : list string)
| AwaitExecute (i : nat) (step : string)
| AwaitObserve (i : nat) (result : StepResult)
| AwaitUpdate (i : nat) (observation : Observation).

(** The object together with what surrounds it: the suspended call of
    [startTask] if there is one, every snapshot handed to a callback so far
    (oldest first) and the console. *)
Record World := {
  self : AgentLoop;
  awaiting : option Await;
  delivered : list (FunRef * AgentState);
  console : list ConsoleLine
}.

(** [constructor()] *)
Definition initialState : AgentState :=
  {| status := Idle; currentTask := None; plan := []; progress := 0%Z;
     currentStep := None; results := []; error := None; history := [] |}.

Definition newAgentLoop : World :=
  {| self := {| state := initialState; taskRunning := false;
                updateCallbacks := [] |};
     awaiting := None; delivered := []; console := [] |}.

(** [getState()]: a shallow copy; the arrays it shares are never mutated in
    place, so the copy is the value. *)
Definition getState (w : World) : AgentState := state (self w).

(** *** Assignments to one field of the world *)

Definition setTaskRunning (b : bool) (w : World) : World :=
  {| self := {| state := state (self w); taskRunning := b;
                updateCallbacks := updateCallbacks (self w) |};
     awaiting := awaiting w; delivered := delivered w;
     console := console w |}.

Definition setCallbacks (l : list FunRef) (w : World) : World :=
  {| self := {| state := state (self w);
                taskRunning := taskRunning (self w);
                updateCallbacks := l |};
     awaiting := awaiting w; delivered := delivered w;
     console := console w |}.

Definition setAwaiting (k : option Await) (w : World) : World :=
  {| self := self w; awaiting := k; delivered := delivered w;
     console := console w |}.

Definition print (l : Level) (text : string) (w : World) : World :=
  {| self := self w; awaiting := awaiting w; delivered := delivered w;
     console := console w ++ [(l, text)] |}.

(** *** The methods *)

(** [onStateUpdate(callback)]: pushes the callback; the returned function
    filters out every entry that is [===] to it. *)
Definition unsubscribe (callback : FunRef) (w : World) : World :=
  setCallbacks (filter (differs callback) (updateCallbacks (self w))) w.

Definition onStateUpdate (callback : FunRef) (w : World)
  : World * (World -> World) :=
  (setCallbacks (updateCallbacks (self w) ++ [callback]) w,
   unsubscribe callback).

(** [updateState(updates)]: replaces the state by the merge and calls every
    callback, in registration order, with a copy of the new state. *)
Definition updateState (updates : Updates) (w : World) : World :=
  let s := spread (state (self w)) updates in
  {| self := {| state := s; taskRunning := taskRunning (self w);
                updateCallbacks := updateCallbacks (self w) |};
     awaiting := awaiting w;
     delivered := delivered w
                  ++ map (fun cb => (cb, s)) (updateCallbacks (self w));
     console := console w |}.

(** The four steps [planTask] writes for a task. *)
Definition planOf (task : string) : list string :=
  [ "タスク " ++ dq ++ task ++ dq ++ " の情報収集";
    "タスク " ++ dq ++ task ++ dq ++ " の分析";
    "タスク " ++ dq ++ task ++ dq ++ " の実行";
    "タスク " ++ dq ++ task ++ dq ++ " の結果のまとめ" ].

(** The update every [catch] block performs. *)
Definition recordError (e : Thrown) (w : World) : World :=
  updateState [SetStatus Error; SetError (Some (errorText e))] w.

(** [finally { this.taskRunning = false }]; the call of [startTask] is over. *)
Definition finish (w : World) : World :=
  setAwaiting None (setTaskRunning false w).

(** [catch (error)] of [startTask], then its [finally]. *)
Definition catchInStartTask (e : Thrown) (w : World) : World :=
  finish (recordError e (print ErrorLevel "Error in agent loop:" w)).

(** The end of [runAgentLoop], then the [finally] of [startTask]. *)
Definition completeTask (w : World) : World :=
  finish (updateState
            [SetStatus Completed; SetProgress 100%Z; SetCurrentStep None] w).

(** [observeResult(result)] up to its [await]. *)
Definition observeResult (i : nat) (r : StepResult) (w : World) : World :=
  setAwaiting (Some (AwaitObserve i r)) (print LogLevel "Observing result:" w).

(** [updatePlan(observation)] up to its [await]. *)
Definition updatePlan (i : nat) (o : Observation) (w : World) : World :=
  setAwaiting (Some (AwaitUpdate i o))
    (print LogLevel "Updating plan based on observation:" w).

(** [executeStep(step)] up to its [await]. *)
Definition executeStep (i : nat) (step : string) (w : World) : World :=
  setAwaiting (Some (AwaitExecute i step))
    (print LogLevel ("Executing step: " ++ step) w).

(** The loop of [runAgentLoop] from its test [i < this.state.plan.length]
    to the [await] inside [executeStep]; when the test fails, the rest of
    [runAgentLoop]. *)
Definition enterStep (i : nat) (w : World) : World :=
  let p := plan (state (self w)) in
  match nth_error p i with
  | Some step =>
      executeStep i step
        (updateState [SetStatus Executing; SetCurrentStep (Some step);
                      SetProgress (floorScaled i (List.length p) 50)] w)
  | None => completeTask w
  end.

(** [planTask] from its [await] on, then [runAgentLoop] up to the next
    await. *)
Definition resumePlan (p : list string) (now : Z) (o : Settled) (w : World)
  : World :=
  let w1 :=
    match o with
    | Fulfilled =>
        updateState
          [SetPlan p; SetProgress 10%Z;
           SetHistory (history (state (self w))
                       ++ [{| action := "planning"; result := PlanValue p;
                              timestamp := now |}])] w
    | Threw e => recordError e (print ErrorLevel "Error in planning:" w)
    end in
  if isError (status (state (self w1))) then finish w1 else enterStep 0 w1.

(** [executeStep] from its [await] on, then the loop body up to the await
    inside [observeResult]. *)
Definition resumeExecute (i : nat) (step : string) (now : Z) (o : Settled)
    (w : World) : World :=
  match o with
  | Fulfilled =>
      let r := {| stepCompleted := step;
                  output := step ++ " の実行結果" |} in
      let w1 :=
        updateState
          [SetResults (results (state (self w)) ++ [r]);
           SetHistory (history (state (self w))
                       ++ [{| action := "execution"; result := ResultValue r;
                              timestamp := now |}])] w in
      if isError (status (state (self w1))) then finish w1
      else
        observeResult i r
          (updateState
             [SetStatus Observing;
              SetProgress
                (floorScaled i (List.length (plan (state (self w1)))) 70)] w1)
  | Threw e =>
      catchInStartTask e
        (recordError e
           (print ErrorLevel
              ("Error executing step " ++ dq ++ step ++ dq ++ ":") w))
  end.

(** [observeResult] from its [await] on, then the loop body up to the await
    inside [updatePlan]. *)
Definition resumeObserve (i : nat) (r : StepResult) (now : Z) (o : Settled)
    (w : World) : World :=
  match o with
  | Fulfilled =>
      let ob := {| analysisOf := r; feedback := "正常に完了" |} in
      let w1 :=
        updateState
          [SetHistory (history (state (self w))
                       ++ [{| action := "observation";
                              result := ObservationValue ob;
                              timestamp := now |}])] w in
      updatePlan i ob
        (updateState
           [SetStatus Updating;
            SetProgress
              (floorScaled i (List.length (plan (state (self w1)))) 90)] w1)
  | Threw e =>
      catchInStartTask e
        (recordError e (print ErrorLevel "Error in observation:" w))
  end.

(** [updatePlan] from its [await] on; it returns [true], so the loop goes
    on with [i + 1]. *)
Definition resumeUpdate (i : nat) (ob : Observation) (now : Z) (o : Settled)
    (w : World) : World :=
  match o with
  | Fulfilled =>
      let updatedPlan := plan (state (self w)) in
      let w1 :=
        updateState
          [SetPlan updatedPlan;
           SetHistory (history (state (self w))
                       ++ [{| action := "plan-update";
                              result := UpdatedPlanValue updatedPlan;
                              timestamp := now |}])] w in
      let shouldContinue := true in
      if negb shouldContinue then completeTask w1 else enterStep (S i) w1
  | Threw e =>
      catchInStartTask e
        (recordError e (print ErrorLevel "Error in plan update:" w))
  end.

(** [startTask(task)] up to the first await (the one inside [planTask]). *)
Definition startTask (task : string) (w : World) : World :=
  if taskRunning (self w) then
    print WarnLevel "Task already running, ignoring new task" w
  else
    let w1 := setTaskRunning true w in
    let w2 :=
      updateState
        [SetStatus Planning; SetCurrentTask (Some task); SetPlan [];
         SetProgress 0%Z; SetCurrentStep None; SetResults [];
         SetError None; SetHistory []] w1 in
    setAwaiting (Some (AwaitPlan (planOf task))) w2.

(** The event loop resumes the suspended call: the awaited work of the
    current phase has settled as [o], and [Date.now()] reads [now]. *)
Definition settle (now : Z) (o : Settled) (w : World) : World :=
  match awaiting w with
  | None => w
  | Some (AwaitPlan p) => resumePlan p now o w
  | Some (AwaitExecute i step) => resumeExecute i step now o w
  | Some (AwaitObserve i r) => resumeObserve i r now o w
  | Some (AwaitUpdate i ob) => resumeUpdate i ob now o w
  end.

(** What can happen to an agent loop. *)
Inductive Event :=
| CallStartTask (task : string)
| CallOnStateUpdate (callback : FunRef)
| CallUnsubscribe (callback : FunRef)
| Settle (now : Z) (o : Settled).

Definition step (w : World) (e : Event) : World :=
  match e with
  | CallStartTask task => startTask task w
  | CallOnStateUpdate callback => fst (onStateUpdate callback w)
  | CallUnsubscribe callback => unsubscribe callback w
  | Settle now o => settle now o w
  end.

Definition run (events : list Event) (w : World) : World :=
  fold_left step events w.

(** The worlds an agent loop can be in. *)
Definition reachable (w : World) : Prop :=
  exists events, w = run events newAgentLoop.

(** Events of a task run: no registration changes. *)
Definition taskEvent (e : Event) : bool :=
  match e with
  | CallStartTask _ | Settle _ _ => true
  | _ => false
  end.

(** The snapshots handed to [callback] so far, oldest first. *)
Definition seen (callback : FunRef) (w : World) : list AgentState :=
  map snd (filter (fun d => Nat.eqb (fst d) callback) (delivered w)).

(** The snapshots handed to [callback] while [w] became [w']. *)
Definition seenSince (callback : FunRef) (w w' : World) : list AgentState :=
  skipn (List.length (seen callback w)) (seen callback w').

(** Status and progress of a snapshot, as a progress bar shows them. *)
Definition statusProgress (s : AgentState) : Status * Z :=
  (status s, progress s).

(** Progress is a percentage. *)
Definition inRange (s : AgentState) : Prop := (0 <= progress s <= 100)%Z.

(** The two states agree on field [f]. *)
Definition sameAt (f : Field) (s1 s2 : AgentState) : Prop :=
  match f with
  | FStatus => status s1 = status s2
  | FCurrentTask => currentTask s1 = currentTask s2
  | FPlan => plan s1 = plan s2
  | FProgress => progress s1 = progress s2
  | FCurrentStep => currentStep s1 = currentStep s2
  | FResults => results s1 = results s2
  | FError => error s1 = error s2
  | FHistory => history s1 = history s2
  end.

(** The state [startTask] installs when it accepts [task]. *)
Definition acceptedState (task : string) : AgentState :=
  {| status := Planning; currentTask := Some task; plan := [];
     progress := 0%Z; currentStep := None; results := []; error := None;
     history := [] |}.

(** A plan step starts between the snapshots [s1] and [s2]: [s1] belongs to
    the planning or to the plan update before it, [s2] opens the execution
    of step [i] of the plan and shows [floor(i / length * 50)]. *)
Definition stepStarts (s1 s2 : AgentState) : Prop :=
  (status s1 = Planning \/ status s1 = Updating)
  /\ status s2 = Executing
  /\ exists i step,
       nth_error (plan s2) i = Some step
       /\ currentStep s2 = Some step
       /\ progress s2 = floorScaled i (List.length (plan s2)) 50.

(** How a snapshot [s2] relates to the snapshot [s1] before it: the progress
    has not fallen, or a plan step starts, or [s2] is the reset that accepts
    a new task. *)
Definition mayFollow (s1 s2 : AgentState) : Prop :=
  (progress s1 <= progress s2)%Z
  \/ stepStarts s1 s2
  \/ exists task, s2 = acceptedState task.

(** What holds of the status and of the progress field at each await of a
    reachable world. *)
Definition progressInvariant (w : World) : Prop :=
  let s := state (self w) in
  (0 <= progress s <= 100)%Z
  /\ match awaiting w with
     | None => True
     | Some (AwaitPlan _) => status s = Planning /\ progress s = 0%Z
     | Some (AwaitExecute i _) =>
         status s = Executing
         /\ i < List.length (plan s)
         /\ progress s = floorScaled i (List.length (plan s)) 50
     | Some (AwaitObserve i _) =>
         status s = Observing
         /\ i < List.length (plan s)
         /\ progress s = floorScaled i (List.length (plan s)) 70
     | Some (AwaitUpdate i _) =>
         status s = Updating
         /\ i < List.length (plan s)
         /\ progress s = floorScaled i (List.length (plan s)) 90
     end.

(** The six snapshots of plan step [i] of [n] in a run where nothing throws:
    each phase shows once when it begins and once when its work is
    recorded. *)
Definition stepSnapshots (n i : nat) : list (Status * Z) :=
  [ (Executing, floorScaled i n 50); (Executing, floorScaled i n 50);
    (Observing, floorScaled i n 70); (Observing, floorScaled i n 70);
    (Updating, floorScaled i n 90); (Updating, floorScaled i n 90) ].

(** [w'] comes from [w] by broadcasting the states [ss], in this order, to
    the callbacks of [w], which are those of [w'] too. *)
Definition emits (w w' : World) (ss : list AgentState) : Prop :=
  updateCallbacks (self w') = updateCallbacks (self w)
  /\ state (self w') = last ss (state (self w))
  /\ forall callback,
      seen callback w'
      = (seen callback w
         ++ flat_map
              (fun s =>
                 repeat s (count_occ Nat.eq_dec (updateCallbacks (self w))
                             callback)) ss)%list.

(** The events that fulfil the awaited phases, one per clock reading. *)
Definition fulfilAll (clock : list Z) : list Event :=
  map (fun now => Settle now Fulfilled) clock.

(** A run in which nothing throws: the task is started and every awaited
    phase is fulfilled, at the given clock readings. *)
Definition quietRun (task : string) (clock : list Z) : list Event :=
  CallStartTask task :: fulfilAll clock.

(** *** Bookkeeping of a run *)

(** The record [executeStep] builds for [step]. *)
Definition resultOf (step : string) : StepResult :=
  {| stepCompleted := step; output := step ++ " の実行結果" |}.

(** The record [observeResult] builds for [r]. *)
Definition observationOf (r : StepResult) : Observation :=
  {| analysisOf := r; feedback := "正常に完了" |}.

(** The statuses of a task that is under way. *)
Definition working (s : Status) : bool :=
  match s with
  | Planning | Executing | Observing | Updating => true
  | Idle | Completed | Error => false
  end.

(** A call of [startTask] is suspended. *)
Definition suspended (w : World) : bool :=
  match awaiting w with
  | Some _ => true
  | None => false
  end.

(** The guard, the suspended call, the status and the error message tell the
    same story. *)
Definition coherent (w : World) : Prop :=
  let s := state (self w) in
  taskRunning (self w) = suspended w
  /\ working (status s) = suspended w
  /\ (status s = Error <-> error s <> None).

(** The kinds of the history entries, oldest first. *)
Definition actions (s : AgentState) : list string := map action (history s).

(** The kinds of the entries written when [i] steps are done. *)
Definition trail (i : nat) : list string :=
  "planning"
  :: flat_map (fun _ => ["execution"; "observation"; "plan-update"])
       (seq 0 i).

(** The state belongs to a run of [task] in which [k] steps have been
    executed. *)
Definition tracked (task : string) (k : nat) (s : AgentState) : Prop :=
  currentTask s = Some task
  /\ plan s = planOf task
  /\ results s = map resultOf (firstn k (planOf task)).

(** What the state holds at each await, and after the run. *)
Definition bookkeeping (w : World) : Prop :=
  let s := state (self w) in
  match awaiting w with
  | Some (AwaitPlan p) =>
      exists task,
        currentTask s = Some task /\ p = planOf task /\ plan s = []
        /\ results s = [] /\ history s = [] /\ currentStep s = None
  | Some (AwaitExecute i st) =>
      exists task,
        tracked task i s /\ nth_error (planOf task) i = Some st
        /\ currentStep s = Some st /\ actions s = trail i
  | Some (AwaitObserve i r) =>
      exists task st,
        tracked task (S i) s /\ nth_error (planOf task) i = Some st
        /\ currentStep s = Some st /\ r = resultOf st
        /\ actions s = (trail i ++ ["execution"])%list
  | Some (AwaitUpdate i ob) =>
      exists task st,
        tracked task (S i) s /\ nth_error (planOf task) i = Some st
        /\ currentStep s = Some st /\ ob = observationOf (resultOf st)
        /\ actions s = (trail i ++ ["execution"; "observation"])%list
  | None =>
      match status s with
      | Idle => s = initialState
      | Completed =>
          exists task,
            tracked task (List.length (planOf task)) s
            /\ currentStep s = None /\ progress s = 100%Z
            /\ actions s = trail (List.length (planOf task))
      | Error =>
          exists task k,
            currentTask s = Some task
            /\ (plan s = [] \/ plan s = planOf task)
            /\ results s = map resultOf (firstn k (plan s))
      | _ => True
      end
  end.

(** An upper bound of the number of phases the suspended call still has to
    await. *)
Definition remaining (w : World) : nat :=
  let n := List.length (plan (state (self w))) in
  match awaiting w with
  | None => 0
  | Some (AwaitPlan p) => 1 + 3 * List.length p
  | Some (AwaitExecute i _) => 3 * (n - i)
  | Some (AwaitObserve i _) => 3 * (n - i) - 1
  | Some (AwaitUpdate i _) => 3 * (n - i) - 2
  end.

(** An event other than a call of [startTask]. *)
Definition notStartTask (e : Event) : bool :=
  match e with
  | CallStartTask _ => false
  | _ => true
  end.

(** The events that resume the suspended call, one per clock reading and
    outcome. *)
Definition settleAll (l : list (Z * Settled)) : list Event :=
  map (fun c => Settle (fst c) (snd c)) l.

End Agent.

(** * The agent loop with callbacks that may throw

    [updateState] calls the callbacks without a guard.  Here a call of a
    callback returns or throws, as [onUpdate] says, and the exception takes
    the way JavaScript gives it: out of [updateState], to the [catch] of the
    method that is running (whose own [updateState] may throw again), to the
    [catch] and the [finally] of [startTask].  The first broadcast of
    [startTask] comes before its [try]: what a callback throws there rejects
    the call with the guard still set. *)

Module AgentThrowing.
Import Agent.

(** The agent loop in its surroundings, and every state [updateState] has
    assigned to [this.state], oldest first. *)
Record World := { loop : Agent.World; written : list AgentState }.

Definition newAgentLoop : World :=
  {| loop := Agent.newAgentLoop; written := [] |}.

(** A change of the loop that assigns no state. *)
Definition alter (f : Agent.World -> Agent.World) (w : World) : World :=
  {| loop := f (loop w); written := written w |}.

(** A piece of a method: the world it leaves, and its value or what it
    throws. *)
Definition Run (A : Type) : Type := World -> World * (A + Thrown).

Definition ret {A : Type} (a : A) : Run A := fun w => (w, inl a).

Definition raise {A : Type} (e : Thrown) : Run A := fun w => (w, inr e).

Definition bind {A B : Type} (m : Run A) (f : A -> Run B) : Run B :=
  fun w =>
    let (w1, r) := m w in
    match r with
    | inl a => f a w1
    | inr e => (w1, inr e)
    end.

(** [try { m } catch (error) { handler error }] *)
Definition tryCatch {A : Type} (m : Run A) (handler : Thrown -> Run A)
  : Run A :=
  fun w =>
    let (w1, r) := m w in
    match r with
    | inl a => (w1, inl a)
    | inr e => handler e w1
    end.

Definition change (f : Agent.World -> Agent.World) : Run unit :=
  fun w => (alter f w, inl tt).

(** [this.state], read. *)
Definition current : Run AgentState :=
  fun w => (w, inl (state (self (loop w)))).

(** The awaited promise has settled. *)
Definition awaited (o : Settled) : Run unit :=
  match o with
  | Fulfilled => ret tt
  | Threw e => raise e
  end.

Notation "x <- m ;; k" := (bind m (fun x => k))
  (at level 61, m at next level, right associativity).
Notation "m ;; k" := (bind m (fun _ => k))
  (at level 61, right associativity).

Section Callbacks.

(** What a callback does with the snapshot it is handed. *)
Variable onUpdate : FunRef -> AgentState -> Settled.

(** The callback returns, whatever it is handed. *)
Definition returns (callback : FunRef) : Prop :=
  forall s, onUpdate callback s = Fulfilled.

(** [updateState(updates)]: the state is assigned, then the callbacks are
    called in registration order; the first that throws ends the loop. *)
Definition updateState (updates : Updates) : Run unit :=
  fun w =>
    let v := loop w in
    let s := spread (state (self v)) updates in
    let (called, o) := callEach onUpdate (updateCallbacks (self v)) s in
    ({| loop :=
          {| self := {| state := s; taskRunning := taskRunning (self v);
                        updateCallbacks := updateCallbacks (self v) |};
             awaiting := awaiting v;
             delivered := (delivered v ++ called)%list;
             console := console v |};
        written := (written w ++ [s])%list |},
     match o with
     | Fulfilled => inl tt
     | Threw e => inr e
     end).

(** The body of every [catch] block up to its [throw]. *)
Definition recordError (label : string) (e : Thrown) : Run unit :=
  change (print ErrorLevel label) ;;
  updateState [SetStatus Error; SetError (Some (errorText e))].

(** [planTask] from its [await] on. *)
Definition planTask (p : list string) (now : Z) (o : Settled) : Run unit :=
  tryCatch
    (awaited o ;;
     s <- current ;;
     updateState
       [SetPlan p; SetProgress 10%Z;
        SetHistory (history s
                    ++ [{| action := "planning"; result := PlanValue p;
                           timestamp := now |}])%list])
    (recordError "Error in planning:").

(** [executeStep] from its [await] on. *)
Definition executeStep (step : string) (now : Z) (o : Settled)
  : Run StepResult :=
  tryCatch
    (awaited o ;;
     let r := {| stepCompleted := step; output := step ++ " の実行結果" |} in
     s <- current ;;
     updateState
       [SetResults (results s ++ [r])%list;
        SetHistory (history s
                    ++ [{| action := "execution"; result := ResultValue r;
                           timestamp := now |}])%list] ;;
     ret r)
    (fun e =>
       recordError ("Error executing step " ++ dq ++ step ++ dq ++ ":") e ;;
       raise e).

(** [observeResult] from its [await] on. *)
Definition observeResult (r : StepResult) (now : Z) (o : Settled)
  : Run Observation :=
  tryCatch
    (awaited o ;;
     let ob := {| analysisOf := r; feedback := "正常に完了" |} in
     s <- current ;;
     updateState
       [SetHistory (history s
                    ++ [{| action := "observation";
                           result := ObservationValue ob;
                           timestamp := now |}])%list] ;;
     ret ob)
    (fun e => recordError "Error in observation:" e ;; raise e).

(** [updatePlan] from its [await] on. *)
Definition updatePlan (ob : Observation) (now : Z) (o : Settled) : Run bool :=
  tryCatch
    (awaited o ;;
     s <- current ;;
     let updatedPlan := plan s in
     updateState
       [SetPlan updatedPlan;
        SetHistory (history s
                    ++ [{| action := "plan-update";
                           result := UpdatedPlanValue updatedPlan;
                           timestamp := now |}])%list] ;;
     ret true)
    (fun e => recordError "Error in plan update:" e ;; raise e).

(** The end of [runAgentLoop]. *)
Definition completeTask : Run (option Await) :=
  updateState [SetStatus Completed; SetProgress 100%Z; SetCurrentStep None] ;;
  ret None.

(** The loop of [runAgentLoop] from its test to the [await] inside
    [executeStep]: the await it stops at, or [None] at the end of
    [runAgentLoop]. *)
Definition enterStep (i : nat) : Run (option Await) :=
  s <- current ;;
  match nth_error (plan s) i with
  | Some step =>
      updateState
        [SetStatus Executing; SetCurrentStep (Some step);
         SetProgress (floorScaled i (List.length (plan s)) 50)] ;;
      change (print LogLevel ("Executing step: " ++ step)) ;;
      ret (Some (AwaitExecute i step))
  | None => completeTask
  end.

(** [runAgentLoop] from the await inside [planTask] to the next await. *)
Definition afterPlan (p : list string) (now : Z) (o : Settled)
  : Run (option Await) :=
  planTask p now o ;;
  s <- current ;;
  if isError (status s) then ret None else enterStep 0.

(** The loop body from the await inside [executeStep] to the next. *)
Definition afterExecute (i : nat) (step : string) (now : Z) (o : Settled)
  : Run (option Await) :=
  r <- executeStep step now o ;;
  s <- current ;;
  if isError (status s) then ret None
  else
    updateState
      [SetStatus Observing;
       SetProgress (floorScaled i (List.length (plan s)) 70)] ;;
    change (print LogLevel "Observing result:") ;;
    ret (Some (AwaitObserve i r)).

(** The loop body from the await inside [observeResult] to the next. *)
Definition afterObserve (i : nat) (r : StepResult) (now : Z) (o : Settled)
  : Run (option Await) :=
  ob <- observeResult r now o ;;
  s <- current ;;
  updateState
    [SetStatus Updating;
     SetProgress (floorScaled i (List.length (plan s)) 90)] ;;
  change (print LogLevel "Updating plan based on observation:") ;;
  ret (Some (AwaitUpdate i ob)).

(** The loop body from the await inside [updatePlan] on. *)
Definition afterUpdate (i : nat) (ob : Observation) (now : Z) (o : Settled)
  : Run (option Await) :=
  shouldContinue <- updatePlan ob now o ;;
  if negb shouldContinue then completeTask else enterStep (S i).

(** The [try], [catch] and [finally] of [startTask] around the piece [body]
    of [runAgentLoop]: when [body] stops at an await the call is suspended;
    otherwise the [finally] block runs, also when the [catch] block has
    thrown. *)
Definition insideStartTask (body : Run (option Await)) (w : World) : World :=
  let (w1, r) :=
    tryCatch body
      (fun e => recordError "Error in agent loop:" e ;; ret None) w in
  match r with
  | inl (Some k) => alter (setAwaiting (Some k)) w1
  | _ => alter finish w1
  end.

(** [startTask(task)] up to the first await.  When the first broadcast
    throws, the call is rejected before the [try] is entered. *)
Definition startTask (task : string) (w : World) : World :=
  if taskRunning (self (loop w)) then
    alter (print WarnLevel "Task already running, ignoring new task") w
  else
    let (w1, r) :=
      updateState
        [SetStatus Planning; SetCurrentTask (Some task); SetPlan [];
         SetProgress 0%Z; SetCurrentStep None; SetResults [];
         SetError None; SetHistory []]
        (alter (setTaskRunning true) w) in
    match r with
    | inl _ => insideStartTask (ret (Some (AwaitPlan (planOf task)))) w1
    | inr _ => w1
    end.

(** The event loop resumes the suspended call. *)
Definition settle (now : Z) (o : Settled) (w : World) : World :=
  match awaiting (loop w) with
  | None => w
  | Some (AwaitPlan p) => insideStartTask (afterPlan p now o) w
  | Some (AwaitExecute i step) =>
      insideStartTask (afterExecute i step now o) w
  | Some (AwaitObserve i r) => insideStartTask (afterObserve i r now o) w
  | Some (AwaitUpdate i ob) => insideStartTask (afterUpdate i ob now o) w
  end.

Definition step (w : World) (e : Event) : World :=
  match e with
  | CallStartTask task => startTask task w
  | CallOnStateUpdate callback =>
      alter (fun v => fst (onStateUpdate callback v)) w
  | CallUnsubscribe callback => alter (unsubscribe callback) w
  | Settle now o => settle now o w
  end.

Definition run (events : list Event) (w : World) : World :=
  fold_left step events w.

End Callbacks.

(** The callbacks an event registers. *)
Definition registers (e : Event) : list FunRef :=
  match e with
  | CallOnStateUpdate callback => [callback]
  | _ => []
  end.


(** The states written while [w] became [w']. *)
Definition writtenSince (w w' : World) : list AgentState :=
  skipn (List.length (written w)) (written w').

(** While [w] became [w'] the states [ss] were written, and each of them
    was broadcast to the callbacks of [w], which are those of [w'] too. *)
Definition tracks (w w' : World) : Prop :=
  exists ss,
    written w' = (written w ++ ss)%list /\ emits (loop w) (loop w') ss.

End AgentThrowing.

(** * The WebSocket utility (client side)

    The class [WebSocketManager] and the function [getWebSocketManager].
    What the class prints on the console is left out. *)

Module Ws.

(** [WebSocket.readyState] *)
Inductive ReadyState := CONNECTING | OPEN | CLOSING | CLOSED.

Record WebSocketState := { isConnected : bool; error : option string }.

(** A parsed inbound message: [{ type, data }]. *)
Record WebSocketPayload := { type : string; data : string }.

(** A [WebSocket] object of the browser.  Every one the manager constructs
    has its four handlers bound to the manager. *)
Record WebSocket := { url : string; readyState : ReadyState }.

(** One [key: value] of an object literal of type
    [Partial<WebSocketState>]. *)
Inductive Assign :=
| SetIsConnected (v : bool)
| SetError (v : option string).

Definition assign (s : WebSocketState) (a : Assign) : WebSocketState :=
  match a with
  | SetIsConnected v => {| isConnected := v; error := error s |}
  | SetError v => {| isConnected := isConnected s; error := v |}
  end.

(** [{ ...s, ...newState }] *)
Definition spread (s : WebSocketState) (newState : list Assign)
  : WebSocketState :=
  fold_left assign newState s.

(** The object.  [socket] is a reference into the browser's sockets.  The
    fields [maxReconnectAttempts] and [reconnectDelay] are never assigned
    after their initialisers and are the two constants below. *)
Record WebSocketManager := {
  socket : option nat;
  messageListeners : list FunRef;
  stateChangeListeners : list FunRef;
  reconnectAttempts : nat;
  sessionId : string;
  state : WebSocketState
}.

Definition maxReconnectAttempts : nat := 5.

Definition reconnectDelay : Q := 1000.

(** The manager in its browser: the sockets constructed so far (a reference
    is an index), the delays of the pending [setTimeout(() => this.connect(),
    delay)] timers (oldest first; the source keeps no handle of them), every
    delay passed to [setTimeout] so far, pending or fired, what each listener
    was handed so far, and [window.location]. *)
Record World := {
  self : WebSocketManager;
  sockets : list WebSocket;
  timers : list Q;
  scheduled : list Q;
  stateSeen : list (FunRef * WebSocketState);
  messageSeen : list (FunRef * WebSocketPayload);
  locationProtocol : string;
  locationHost : string
}.

(** [constructor(sessionId)] *)
Definition newWebSocketManager (id : string) : WebSocketManager :=
  {| socket := None; messageListeners := []; stateChangeListeners := [];
     reconnectAttempts := 0; sessionId := id;
     state := {| isConnected := false; error := None |} |}.

(** A fresh manager in a page served from [host] over [protocol]. *)
Definition newWorld (id protocol host : string) : World :=
  {| self := newWebSocketManager id; sockets := []; timers := [];
     scheduled := []; stateSeen := []; messageSeen := [];
     locationProtocol := protocol; locationHost := host |}.

(** *** Assignments to one field *)

Definition setSelf (m : WebSocketManager) (w : World) : World :=
  {| self := m; sockets := sockets w; timers := timers w;
     scheduled := scheduled w;
     stateSeen := stateSeen w; messageSeen := messageSeen w;
     locationProtocol := locationProtocol w;
     locationHost := locationHost w |}.

Definition setSocket (r : option nat) (w : World) : World :=
  setSelf {| socket := r;
             messageListeners := messageListeners (self w);
             stateChangeListeners := stateChangeListeners (self w);
             reconnectAttempts := reconnectAttempts (self w);
             sessionId := sessionId (self w);
             state := state (self w) |} w.

Definition setMessageListeners (l : list FunRef) (w : World) : World :=
  setSelf {| socket := socket (self w);
             messageListeners := l;
             stateChangeListeners := stateChangeListeners (self w);
             reconnectAttempts := reconnectAttempts (self w);
             sessionId := sessionId (self w);
             state := state (self w) |} w.

Definition setStateChangeListeners (l : list FunRef) (w : World) : World :=
  setSelf {| socket := socket (self w);
             messageListeners := messageListeners (self w);
             stateChangeListeners := l;
             reconnectAttempts := reconnectAttempts (self w);
             sessionId := sessionId (self w);
             state := state (self w) |} w.

Definition setReconnectAttempts (n : nat) (w : World) : World :=
  setSelf {| socket := socket (self w);
             messageListeners := messageListeners (self w);
             stateChangeListeners := stateChangeListeners (self w);
             reconnectAttempts := n;
             sessionId := sessionId (self w);
             state := state (self w) |} w.

Definition setState (s : WebSocketState) (w : World) : World :=
  setSelf {| socket := socket (self w);
             messageListeners := messageListeners (self w);
             stateChangeListeners := stateChangeListeners (self w);
             reconnectAttempts := reconnectAttempts (self w);
             sessionId := sessionId (self w);
             state := s |} w.

Definition setSockets (l : list WebSocket) (w : World) : World :=
  {| self := self w; sockets := l; timers := timers w;
     scheduled := scheduled w;
     stateSeen := stateSeen w; messageSeen := messageSeen w;
     locationProtocol := locationProtocol w;
     locationHost := locationHost w |}.

Definition setTimers (l : list Q) (w : World) : World :=
  {| self := self w; sockets := sockets w; timers := l;
     scheduled := scheduled w;
     stateSeen := stateSeen w; messageSeen := messageSeen w;
     locationProtocol := locationProtocol w;
     locationHost := locationHost w |}.

(** [setTimeout(() => this.connect(), delay)] *)
Definition setTimeout (delay : Q) (w : World) : World :=
  {| self := self w; sockets := sockets w; timers := timers w ++ [delay];
     scheduled := scheduled w ++ [delay];
     stateSeen := stateSeen w; messageSeen := messageSeen w;
     locationProtocol := locationProtocol w;
     locationHost := locationHost w |}.

Definition tellState (l : list (FunRef * WebSocketState)) (w : World)
  : World :=
  {| self := self w; sockets := sockets w; timers := timers w;
     scheduled := scheduled w;
     stateSeen := stateSeen w ++ l; messageSeen := messageSeen w;
     locationProtocol := locationProtocol w;
     locationHost := locationHost w |}.

Definition tellMessage (l : list (FunRef * WebSocketPayload)) (w : World)
  : World :=
  {| self := self w; sockets := sockets w; timers := timers w;
     scheduled := scheduled w;
     stateSeen := stateSeen w; messageSeen := messageSeen w ++ l;
     locationProtocol := locationProtocol w;
     locationHost := locationHost w |}.

(** The browser changes the [readyState] of socket [r]. *)
Fixpoint setReadyStateIn (l : list WebSocket) (r : nat) (s : ReadyState)
  : list WebSocket :=
  match l, r with
  | [], _ => []
  | x :: l', 0 => {| url := url x; readyState := s |} :: l'
  | x :: l', S r' => x :: setReadyStateIn l' r' s
  end.

Definition setReadyState (r : nat) (s : ReadyState) (w : World) : World :=
  setSockets (setReadyStateIn (sockets w) r s) w.

(** *** The methods *)

(** [updateState(newState)]: merges, then hands the new state to every
    state-change listener in registration order. *)
Definition updateState (newState : list Assign) (w : World) : World :=
  let s := spread (state (self w)) newState in
  tellState (map (fun l => (l, s)) (stateChangeListeners (self w)))
    (setState s w).

(** [this.socket && (readyState === OPEN || readyState === CONNECTING)] *)
Definition connectedOrConnecting (w : World) : bool :=
  match socket (self w) with
  | None => false
  | Some r =>
      match nth_error (sockets w) r with
      | Some {| readyState := OPEN |}
      | Some {| readyState := CONNECTING |} => true
      | _ => false
      end
  end.

(** The URL [connect] builds. *)
Definition endpoint (w : World) : string :=
  let protocol :=
    if String.eqb (locationProtocol w) "https:" then "wss:" else "ws:" in
  protocol ++ "//" ++ locationHost w ++ "/api/ws?sessionId="
    ++ sessionId (self w).

(** [connect()].  [ctor] tells whether [new WebSocket(url)] returns or
    throws. *)
Definition connect (ctor : Settled) (w : World) : World :=
  if connectedOrConnecting w then w
  else
    match ctor with
    | Fulfilled =>
        setSocket (Some (List.length (sockets w)))
          (setSockets
             (sockets w
              ++ [{| url := endpoint w; readyState := CONNECTING |}]) w)
    | Threw e =>
        updateState [SetIsConnected false; SetError (Some (errorText e))] w
    end.

(** [socket.close()] without arguments: a socket that is not yet closing
    or closed starts closing; the close event comes later. *)
Definition close (r : nat) (w : World) : World :=
  match nth_error (sockets w) r with
  | Some {| readyState := OPEN |}
  | Some {| readyState := CONNECTING |} => setReadyState r CLOSING w
  | _ => w
  end.

(** [disconnect()] *)
Definition disconnect (w : World) : World :=
  match socket (self w) with
  | Some r =>
      updateState [SetIsConnected false; SetError None]
        (setReconnectAttempts 0 (setSocket None (close r w)))
  | None => w
  end.

(** [addMessageListener(listener)] and the function it returns. *)
Definition removeMessageListener (listener : FunRef) (w : World) : World :=
  setMessageListeners
    (filter (differs listener) (messageListeners (self w))) w.

Definition addMessageListener (listener : FunRef) (w : World)
  : World * (World -> World) :=
  (setMessageListeners (messageListeners (self w) ++ [listener]) w,
   removeMessageListener listener).

(** [addStateChangeListener(listener)] and the function it returns. *)
Definition removeStateChangeListener (listener : FunRef) (w : World)
  : World :=
  setStateChangeListeners
    (filter (differs listener) (stateChangeListeners (self w))) w.

Definition addStateChangeListener (listener : FunRef) (w : World)
  : World * (World -> World) :=
  let w1 :=
    setStateChangeListeners (stateChangeListeners (self w) ++ [listener]) w
  in
  (tellState [(listener, state (self w1))] w1,
   removeStateChangeListener listener).

(** [handleOpen(event)] *)
Definition handleOpen (w : World) : World :=
  updateState [SetIsConnected true; SetError None]
    (setReconnectAttempts 0 w).

(** [handleMessage(event)]: [parsed] is what [JSON.parse(event.data)]
    returns, or [None] when it throws. *)
Definition handleMessage (parsed : option WebSocketPayload) (w : World)
  : World :=
  match parsed with
  | Some payload =>
      tellMessage (map (fun l => (l, payload)) (messageListeners (self w))) w
  | None => w
  end.

(** [Math.pow(1.5, n)] over the rationals. *)
Definition pow15 (n : nat) : Q := Qpower (3 # 2) (Z.of_nat n).

(** [this.reconnectDelay * Math.pow(1.5, this.reconnectAttempts - 1)], in
    lowest terms. *)
Definition delayOf (attempts : nat) : Q :=
  Qred (reconnectDelay * pow15 (attempts - 1)).

(** [event.reason || 'Unknown reason'] *)
Definition reasonOrUnknown (reason : string) : string :=
  if String.eqb reason "" then "Unknown reason" else reason.

(** [handleClose(event)] *)
Definition handleClose (code : nat) (reason : string) (w : World) : World :=
  let w1 :=
    updateState
      [SetIsConnected false;
       SetError (if negb (Nat.eqb code 1000)
                 then Some ("Connection closed: " ++ reasonOrUnknown reason)
                 else None)] w in
  if negb (Nat.eqb code 1000)
     && Nat.ltb (reconnectAttempts (self w1)) maxReconnectAttempts
  then
    let w2 := setReconnectAttempts (S (reconnectAttempts (self w1))) w1 in
    let delay := delayOf (reconnectAttempts (self w2)) in
    setTimeout delay w2
  else w1.

(** [handleError(event)] *)
Definition handleError (w : World) : World :=
  updateState [SetIsConnected false; SetError (Some "Connection error")] w.

(** [getState()] *)
Definition getState (w : World) : WebSocketState := state (self w).

(** The list without its [k]-th element. *)
Fixpoint dropNth {A : Type} (k : nat) (l : list A) : list A :=
  match l, k with
  | [], _ => []
  | _ :: l', 0 => l'
  | x :: l', S k' => x :: dropNth k' l'
  end.

(** What can happen to a manager: calls of its public methods, events of
    one of its sockets, and the firing of a pending reconnect timer. *)
Inductive Event :=
| CallConnect (ctor : Settled)
| CallDisconnect
| CallAddMessageListener (listener : FunRef)
| CallRemoveMessageListener (listener : FunRef)
| CallAddStateChangeListener (listener : FunRef)
| CallRemoveStateChangeListener (listener : FunRef)
| OnOpen (r : nat)
| OnMessage (r : nat) (parsed : option WebSocketPayload)
| OnClose (r : nat) (code : nat) (reason : string)
| OnError (r : nat)
| TimerFires (k : nat) (ctor : Settled).

Definition step (w : World) (e : Event) : World :=
  match e with
  | CallConnect ctor => connect ctor w
  | CallDisconnect => disconnect w
  | CallAddMessageListener l => fst (addMessageListener l w)
  | CallRemoveMessageListener l => removeMessageListener l w
  | CallAddStateChangeListener l => fst (addStateChangeListener l w)
  | CallRemoveStateChangeListener l => removeStateChangeListener l w
  | OnOpen r => handleOpen (setReadyState r OPEN w)
  | OnMessage r parsed => handleMessage parsed w
  | OnClose r code reason => handleClose code reason (setReadyState r CLOSED w)
  | OnError r => handleError w
  | TimerFires k ctor =>
      match nth_error (timers w) k with
      | Some _ => connect ctor (setTimers (dropNth k (timers w)) w)
      | None => w
      end
  end.

Definition run (events : list Event) (w : World) : World :=
  fold_left step events w.

(** A close event whose code is not the normal-closure code. *)
Definition abnormalClose (e : Event) : bool :=
  match e with
  | OnClose _ code _ => negb (Nat.eqb code 1000)
  | _ => false
  end.

Definition abnormalCloses (events : list Event) : nat :=
  List.length (filter abnormalClose events).

(** Neither an open event nor an explicit [disconnect()]. *)
Definition neitherOpenNorDisconnect (e : Event) : bool :=
  match e with
  | OnOpen _ | CallDisconnect => false
  | _ => true
  end.

(** The payloads handed to [listener] so far, oldest first. *)
Definition heard (listener : FunRef) (w : World) : list WebSocketPayload :=
  map snd (filter (fun d => Nat.eqb (fst d) listener) (messageSeen w)).

(** *** The module-level singleton *)

(** The module's memory: the managers constructed so far (a reference is an
    index) and the variable [wsManager]. *)
Record ModuleState := {
  managers : list WebSocketManager;
  wsManager : option nat
}.

Definition moduleLoaded : ModuleState :=
  {| managers := []; wsManager := None |}.

(** [getWebSocketManager(sessionId)]: the reference it returns and the
    module's memory afterwards. *)
Definition getWebSocketManager (id : string) (g : ModuleState)
  : nat * ModuleState :=
  match wsManager g with
  | Some r => (r, g)
  | None =>
      let r := List.length (managers g) in
      (r, {| managers := managers g ++ [newWebSocketManager id];
             wsManager := Some r |})
  end.

(** The session a reference serves. *)
Definition sessionOf (r : nat) (g : ModuleState) : option string :=
  option_map sessionId (nth_error (managers g) r).

(** *** What the claims leave out of the class *)

(** [sendMessage(type, data)]: the value returned and the frame written, if
    any, with the socket it is written to.  [attempt] tells whether
    [JSON.stringify] and [socket.send] return or throw; the frame stands
    for the text [JSON.stringify({ type, data })]. *)
Definition sendMessage (t d : string) (attempt : Settled) (w : World)
  : bool * option (nat * WebSocketPayload) :=
  match socket (self w) with
  | None => (false, None)
  | Some r =>
      match nth_error (sockets w) r with
      | Some {| readyState := OPEN |} =>
          match attempt with
          | Fulfilled => (true, Some (r, {| type := t; data := d |}))
          | Threw _ => (false, None)
          end
      | _ => (false, None)
      end
  end.


(** The worlds a manager made for session [id] can be in. *)
Definition reachable (id protocol host : string) (w : World) : Prop :=
  exists events, w = run events (newWorld id protocol host).

(** What every reachable world of the manager satisfies. *)
Definition wellFormed (id protocol host : string) (w : World) : Prop :=
  reconnectAttempts (self w) <= maxReconnectAttempts
  /\ sessionId (self w) = id
  /\ locationProtocol w = protocol
  /\ locationHost w = host
  /\ (forall r, socket (self w) = Some r -> r < List.length (sockets w))
  /\ Forall (fun x => url x = endpoint (newWorld id protocol host))
       (sockets w)
  /\ (isConnected (state (self w)) = true -> error (state (self w)) = None)
  /\ List.length (timers w) <= List.length (scheduled w).





End Ws.

(** * The WebSocket manager with listeners that may throw

    The class calls its listeners without a guard, except in
    [handleMessage].  Here a call of a listener returns or throws, as
    [onState] and [onPayload] say, and a method ends the way JavaScript ends
    it: an exception leaves the method at the call, what the method wrote
    before stays written and what it had still to do is not done.  Each
    method gives the world it leaves and whether it returned or threw. *)

Module WsThrowing.
Import Ws.

Section Listeners.

(** What a state-change listener does with the state it is handed, and a
    message listener with the payload. *)
Variable onState : FunRef -> WebSocketState -> Settled.
Variable onPayload : FunRef -> WebSocketPayload -> Settled.

(** The listener returns, whatever it is handed. *)
Definition returns (listener : FunRef) : Prop :=
  forall s, onState listener s = Fulfilled.

(** [updateState(newState)]: the state is assigned first, then the listeners
    are called in registration order. *)
Definition updateState (newState : list Assign) (w : World)
  : World * Settled :=
  let s := spread (state (self w)) newState in
  let (called, o) := callEach onState (stateChangeListeners (self w)) s in
  (tellState called (setState s w), o).

(** [connect()]: the [catch] block calls [updateState], outside any guard. *)
Definition connect (ctor : Settled) (w : World) : World * Settled :=
  if connectedOrConnecting w then (w, Fulfilled)
  else
    match ctor with
    | Fulfilled =>
        (setSocket (Some (List.length (sockets w)))
           (setSockets
              (sockets w
               ++ [{| url := endpoint w; readyState := CONNECTING |}])%list
              w),
         Fulfilled)
    | Threw e =>
        updateState [SetIsConnected false; SetError (Some (errorText e))] w
    end.

(** [disconnect()] *)
Definition disconnect (w : World) : World * Settled :=
  match socket (self w) with
  | Some r =>
      updateState [SetIsConnected false; SetError None]
        (setReconnectAttempts 0 (setSocket None (close r w)))
  | None => (w, Fulfilled)
  end.

(** [addStateChangeListener(listener)]: the listener is pushed, then called;
    when it throws it stays registered. *)
Definition addStateChangeListener (listener : FunRef) (w : World)
  : World * Settled :=
  let w1 :=
    setStateChangeListeners
      (stateChangeListeners (self w) ++ [listener])%list w in
  (tellState [(listener, state (self w1))] w1,
   onState listener (state (self w1))).

(** [handleOpen(event)]: the counter is reset before the listeners run. *)
Definition handleOpen (w : World) : World * Settled :=
  updateState [SetIsConnected true; SetError None]
    (setReconnectAttempts 0 w).

(** [handleMessage(event)]: the listeners run inside the [try]; what one of
    them throws is caught with the errors of [JSON.parse], and the listeners
    after it are not called. *)
Definition handleMessage (parsed : option WebSocketPayload) (w : World)
  : World * Settled :=
  match parsed with
  | Some payload =>
      (tellMessage
         (fst (callEach onPayload (messageListeners (self w)) payload)) w,
       Fulfilled)
  | None => (w, Fulfilled)
  end.

(** [handleClose(event)]: the listeners run before the test of the counter;
    when one throws, the counter is not incremented and no timer is set. *)
Definition handleClose (code : nat) (reason : string) (w : World)
  : World * Settled :=
  let (w1, o) :=
    updateState
      [SetIsConnected false;
       SetError (if negb (Nat.eqb code 1000)
                 then Some ("Connection closed: " ++ reasonOrUnknown reason)
                 else None)] w in
  match o with
  | Threw e => (w1, Threw e)
  | Fulfilled =>
      if negb (Nat.eqb code 1000)
         && Nat.ltb (reconnectAttempts (self w1)) maxReconnectAttempts
      then
        let w2 := setReconnectAttempts (S (reconnectAttempts (self w1))) w1 in
        let delay := delayOf (reconnectAttempts (self w2)) in
        (setTimeout delay w2, Fulfilled)
      else (w1, Fulfilled)
  end.

(** [handleError(event)] *)
Definition handleError (w : World) : World * Settled :=
  updateState [SetIsConnected false; SetError (Some "Connection error")] w.

(** One event and how it ends.  What an event handler or a timer callback
    throws goes to the browser, what a method throws to its caller; the
    manager is left as it is at the throw. *)
Definition handle (w : World) (e : Event) : World * Settled :=
  match e with
  | CallConnect ctor => connect ctor w
  | CallDisconnect => disconnect w
  | CallAddMessageListener l => (fst (addMessageListener l w), Fulfilled)
  | CallRemoveMessageListener l => (removeMessageListener l w, Fulfilled)
  | CallAddStateChangeListener l => addStateChangeListener l w
  | CallRemoveStateChangeListener l =>
      (removeStateChangeListener l w, Fulfilled)
  | OnOpen r => handleOpen (setReadyState r OPEN w)
  | OnMessage r parsed => handleMessage parsed w
  | OnClose r code reason => handleClose code reason (setReadyState r CLOSED w)
  | OnError r => handleError w
  | TimerFires k ctor =>
      match nth_error (timers w) k with
      | Some _ => connect ctor (setTimers (dropNth k (timers w)) w)
      | None => (w, Fulfilled)
      end
  end.

Definition step (w : World) (e : Event) : World := fst (handle w e).

Definition run (events : list Event) (w : World) : World :=
  fold_left step events w.

End Listeners.

(** The state-change listeners an event registers. *)
Definition registers (e : Event) : list FunRef :=
  match e with
  | CallAddStateChangeListener l => [l]
  | _ => []
  end.

End WsThrowing.

(** * The agent endpoint

    The route handlers [POST] and [GET] over the dictionary [agentInstances].
    A request field is a string or is absent.  What the handlers print on the
    console is left out. *)

Module Api.

(** The properties a plain object inherits from [Object.prototype]: a lookup
    of one of these keys in [{}] finds a function (or, for [__proto__], the
    prototype object), never [undefined]. *)
Definition objectPrototypeKeys : list string :=
  [ "constructor"; "hasOwnProperty"; "isPrototypeOf"; "propertyIsEnumerable";
    "toLocaleString"; "toString"; "valueOf"; "__proto__";
    "__defineGetter__"; "__defineSetter__"; "__lookupGetter__";
    "__lookupSetter__" ].

Definition inherited (key : string) : bool :=
  existsb (String.eqb key) objectPrototypeKeys.

(** [agentInstances]: the own properties of the dictionary.  They are kept
    in a list; the handlers only look a key up and assign to a key, so the
    order of the list stands for nothing in the source.  A value is an
    [AgentLoop] object, kept with its surroundings. *)
Definition Instances := list (string * Agent.World).

Fixpoint own (key : string) (d : Instances) : option Agent.World :=
  match d with
  | [] => None
  | (k, a) :: d' => if String.eqb key k then Some a else own key d'
  end.

(** The object stored under [key] becomes [a]; a new key goes last. *)
Fixpoint store (key : string) (a : Agent.World) (d : Instances) : Instances :=
  match d with
  | [] => [(key, a)]
  | (k, x) :: d' =>
      if String.eqb key k then (k, a) :: d' else (k, x) :: store key a d'
  end.

(** What [agentInstances[key]] evaluates to. *)
Inductive Property :=
| Missing
| Own (agent : Agent.World)
| Inherited.

Definition property (key : string) (d : Instances) : Property :=
  match own key d with
  | Some a => Own a
  | None => if inherited key then Inherited else Missing
  end.

(** A field that passes the test [if (!field)]: present and not empty. *)
Definition truthy (v : option string) : option string :=
  match v with
  | Some s => if String.eqb s "" then None else Some s
  | None => None
  end.

(** The fields [POST] reads from the request body. *)
Record TaskRequest := { sessionId : option string; task : option string }.

Inductive ResponseBody :=
| ErrorBody (error : string)
| StartedBody (message : string) (session : string)
| StateBody (s : Agent.AgentState).

Record Response := { httpStatus : nat; body : ResponseBody }.

Definition internalServerError : Response :=
  {| httpStatus := 500; body := ErrorBody "Internal server error" |}.

(** [POST(req)].  [request] is [None] when [req.json()] or the destructuring
    of its result throws.  An inherited property is not an [AgentLoop]:
    calling [startTask] on it throws a [TypeError], which the handler
    catches. *)
Definition POST (request : option TaskRequest) (d : Instances)
  : Response * Instances :=
  match request with
  | None => (internalServerError, d)
  | Some r =>
      match truthy (sessionId r) with
      | None =>
          ({| httpStatus := 400; body := ErrorBody "Session ID is required" |},
           d)
      | Some id =>
          match truthy (task r) with
          | None =>
              ({| httpStatus := 400; body := ErrorBody "Task is required" |},
               d)
          | Some t =>
              match property id d with
              | Inherited => (internalServerError, d)
              | Own agent =>
                  ({| httpStatus := 200;
                      body := StartedBody "Task started" id |},
                   store id (Agent.startTask t agent) d)
              | Missing =>
                  ({| httpStatus := 200;
                      body := StartedBody "Task started" id |},
                   store id (Agent.startTask t Agent.newAgentLoop) d)
              end
          end
      end
  end.

(** [GET(req)].  [id] is what [searchParams.get('sessionId')] returns. *)
Definition GET (id : option string) (d : Instances) : Response :=
  match truthy id with
  | None =>
      {| httpStatus := 400; body := ErrorBody "Session ID is required" |}
  | Some key =>
      match property key d with
      | Inherited => internalServerError
      | Missing =>
          {| httpStatus := 404;
             body := ErrorBody "Agent not found for this session" |}
      | Own agent =>
          {| httpStatus := 200; body := StateBody (Agent.getState agent) |}
      end
  end.

(** What can happen to the server: a request, or the event loop resuming the
    suspended [startTask] of the agent of one session. *)
Inductive Event :=
| Post (request : option TaskRequest)
| Get (id : option string)
| Resume (key : string) (now : Z) (o : Settled).

Definition step (d : Instances) (e : Event) : Instances :=
  match e with
  | Post request => snd (POST request d)
  | Get _ => d
  | Resume key now o =>
      match own key d with
      | Some agent => store key (Agent.settle now o agent) d
      | None => d
      end
  end.

Definition run (events : list Event) (d : Instances) : Instances :=
  fold_left step events d.

(** The dictionaries the server can hold. *)
Definition reachable (d : Instances) : Prop :=
  exists events, d = run events [].

(** The event is a request that submits a task for session [id] and passes
    the validation. *)
Definition submits (id : string) (e : Event) : bool :=
  match e with
  | Post (Some r) =>
      match truthy (sessionId r), truthy (task r) with
      | Some key, Some _ => String.eqb key id
      | _, _ => false
      end
  | _ => false
  end.

(** The event touches the agent of session [id]. *)
Definition concerns (id : string) (e : Event) : bool :=
  match e with
  | Resume key _ _ => String.eqb key id
  | _ => submits id e
  end.

Definition keysOf (d : Instances) : list string := map fst d.

(** What the event asks of the agent of session [id]: a valid submission
    calls [startTask], a resumption settles the awaited phase. *)
Definition agentEvent (id : string) (e : Event) : list Agent.Event :=
  match e with
  | Post (Some r) =>
      match truthy (sessionId r), truthy (task r) with
      | Some key, Some t =>
          if String.eqb key id then [Agent.CallStartTask t] else []
      | _, _ => []
      end
  | Resume key now o =>
      if String.eqb key id then [Agent.Settle now o] else []
  | _ => []
  end.

Definition agentEvents (id : string) (events : list Event)
  : list Agent.Event :=
  flat_map (agentEvent id) events.

(** The answer to a submission the handler accepts. *)
Definition started (id : string) : Response :=
  {| httpStatus := 200; body := StartedBody "Task started" id |}.

End Api.

(** * The agent endpoint and the parsed request body

    [req.json()] gives any JSON value, and [POST] looks at the two fields it
    reads only through [!field], through the property key the session id
    converts to, and by handing the task to [startTask].  Module [Api] takes
    both fields as strings; here a field is any value.  [startTask] and the
    agent state are embedded for a task that is a string: a submission that
    reaches [startTask] with another value is outside this embedding, and
    [POST] is undefined there. *)

Module ApiJson.
Import Api.

(** A field of the destructured body, as far as [POST] looks at it:
    [undefined] (the property is missing, or the body is not an object), a
    string, or any other JSON value, given by whether it is truthy and by
    the property key it converts to ([None] when the conversion throws a
    [TypeError], as it does for an object with a member [toString]).  An
    array converts to its elements joined by commas: [[]] is truthy and is
    the key [EmptyString]. *)
Inductive Value :=
| Undefined
| Text (s : string)
| Other (truthy : bool) (key : option string).

(** [!value] is false. *)
Definition truthy (v : Value) : bool :=
  match v with
  | Undefined => false
  | Text s => negb (String.eqb s "")
  | Other t _ => t
  end.

(** The key of [agentInstances[value]]. *)
Definition propertyKey (v : Value) : option string :=
  match v with
  | Undefined => Some "undefined"
  | Text s => Some s
  | Other _ key => key
  end.

Record Request := { sessionId : Value; task : Value }.

Inductive PostBody :=
| PostError (error : string)
| PostStarted (message : string) (session : Value).

Record PostResponse := { postStatus : nat; postBody : PostBody }.

Definition serverError : PostResponse :=
  {| postStatus := 500; postBody := PostError "Internal server error" |}.

(** [POST(req)].  [request] is [None] when [req.json()] or the destructuring
    of its result throws (the body is not JSON, or is [null]).  The result
    is [None] where the embedding ends: [startTask] is reached with a task
    that is not a string. *)
Definition POST (request : option Request) (d : Instances)
  : option (PostResponse * Instances) :=
  match request with
  | None => Some (serverError, d)
  | Some r =>
      if negb (truthy (sessionId r)) then
        Some ({| postStatus := 400;
                 postBody := PostError "Session ID is required" |}, d)
      else if negb (truthy (task r)) then
        Some ({| postStatus := 400;
                 postBody := PostError "Task is required" |}, d)
      else
        match propertyKey (sessionId r) with
        | None => Some (serverError, d)
        | Some id =>
            let answer :=
              {| postStatus := 200;
                 postBody := PostStarted "Task started" (sessionId r) |} in
            match property id d, task r with
            | Inherited, _ => Some (serverError, d)
            | Own agent, Text t =>
                Some (answer, store id (Agent.startTask t agent) d)
            | Missing, Text t =>
                Some (answer,
                      store id (Agent.startTask t Agent.newAgentLoop) d)
            | _, _ => None
            end
        end
  end.

(** What can happen to the server.  [GET] is the handler of module [Api]:
    the session id it reads from the query string is a string or [null]. *)
Inductive Event :=
| Post (request : option Request)
| Get (id : option string)
| Resume (key : string) (now : Z) (o : Settled).

Definition step (d : Instances) (e : Event) : option Instances :=
  match e with
  | Post request => option_map snd (POST request d)
  | Get _ => Some d
  | Resume key now o =>
      match own key d with
      | Some agent => Some (store key (Agent.settle now o agent) d)
      | None => Some d
      end
  end.

Fixpoint run (events : list Event) (d : Instances) : option Instances :=
  match events with
  | [] => Some d
  | e :: events' =>
      match step d e with
      | Some d' => run events' d'
      | None => None
      end
  end.

(** The event hands no task to [startTask] that is not a string. *)
Definition textTask (e : Event) : bool :=
  match e with
  | Post (Some r) =>
      match task r with
      | Other true _ => false
      | _ => true
      end
  | _ => true
  end.

(** The event is a request that passes the validation and names the
    property [id] of the dictionary. *)
Definition submits (id : string) (e : Event) : bool :=
  match e with
  | Post (Some r) =>
      truthy (sessionId r) && truthy (task r)
      && match propertyKey (sessionId r) with
         | Some key => String.eqb key id
         | None => false
         end
  | _ => false
  end.

(** What the event asks of the agent stored under [id]. *)
Definition agentEvent (id : string) (e : Event) : list Agent.Event :=
  match e with
  | Post (Some r) =>
      if submits id e then
        match task r with
        | Text t => [Agent.CallStartTask t]
        | _ => []
        end
      else []
  | Resume key now o =>
      if String.eqb key id then [Agent.Settle now o] else []
  | _ => []
  end.

Definition agentEvents (id : string) (events : list Event)
  : list Agent.Event :=
  flat_map (agentEvent id) events.

End ApiJson.

(** * Properties *)

Open Scope list_scope.

(** * Arithmetic of the progress formula *)

(** Over the rationals the formula is an integer division. *)
Lemma floorScaled_div (i n : nat) (k : Z) :
  n <> 0 -> floorScaled i n k = (Z.of_nat i * k / Z.of_nat n)%Z.
Proof.
  intros Hn. destruct n as [|m]; [congruence|].
  unfold floorScaled, Qdiv, Qinv, Qmult, Qfloor, inject_Z.
  cbn [Qnum Qden Z.of_nat].
  rewrite Z.mul_1_r, Pos.mul_1_l, Pos.mul_1_r. reflexivity.
Qed.

Lemma floorScaled_mono (i n : nat) (k k' : Z) :
  n <> 0 -> (k <= k')%Z -> (floorScaled i n k <= floorScaled i n k')%Z.
Proof.
  intros Hn Hk. rewrite !floorScaled_div by assumption.
  apply Z.div_le_mono; [lia|]. apply Z.mul_le_mono_nonneg_l; lia.
Qed.

Lemma floorScaled_bounds (i n : nat) (k : Z) :
  i < n -> (0 <= k)%Z -> (0 <= floorScaled i n k <= k)%Z.
Proof.
  intros Hi Hk. rewrite floorScaled_div by lia. split.
  - apply Z.div_pos; lia.
  - apply Z.div_le_upper_bound; [lia|]. nia.
Qed.

(** For a plan of four steps the double-precision evaluation of the formula
    gives the same integers. *)
Lemma floorScaled_agrees (i : nat) (k : Z) :
  i < 4 -> In k [50; 70; 90]%Z ->
  Binary64.floorScaled64 i 4 k = Some (floorScaled i 4 k).
Proof.
  intros Hi Hk.
  destruct i as [|[|[|[|i]]]]; [| | | |lia];
    cbn [In] in Hk; repeat destruct Hk as [<-|Hk]; try contradiction;
    vm_compute; reflexivity.
Qed.

(** The reconnect delays are doubles: nothing is lost by computing them over
    the rationals. *)
Lemma delays_are_doubles :
  map Binary64.exact [1000; 1500; 2250; 3375; 5062.5]%float
  = map Some [1000; 1500; 2250; 3375; 10125 # 2]%Q.
Proof. vm_compute. reflexivity. Qed.

(** * Properties of the agent loop *)

Module AgentProperties.
Import Agent.

(** ** What a callback has seen *)

Lemma filter_tag_map (callback : FunRef) (s : AgentState) (l : list FunRef) :
  map snd (filter (fun d => Nat.eqb (fst d) callback)
             (map (fun cb => (cb, s)) l))
  = repeat s (count_occ Nat.eq_dec l callback).
Proof.
  induction l as [|c l IH]; [reflexivity|].
  cbn [map filter fst count_occ].
  destruct (Nat.eq_dec c callback) as [->|Hne].
  - rewrite Nat.eqb_refl. cbn. now rewrite IH.
  - apply Nat.eqb_neq in Hne. now rewrite Hne.
Qed.

Lemma seen_updateState (callback : FunRef) (u : Updates) (w : World) :
  seen callback (updateState u w)
  = (seen callback w
     ++ repeat (spread (state (self w)) u)
          (count_occ Nat.eq_dec (updateCallbacks (self w)) callback))%list.
Proof.
  unfold seen, updateState. cbn [delivered].
  now rewrite filter_app, map_app, filter_tag_map.
Qed.

Lemma seenSince_app (callback : FunRef) (w w' : World) (l : list AgentState) :
  seen callback w' = (seen callback w ++ l)%list -> seenSince callback w w' = l.
Proof.
  intros E. unfold seenSince. rewrite E.
  rewrite skipn_app, skipn_all, Nat.sub_diag. reflexivity.
Qed.


(** ** The merge *)

Lemma assign_frame (f : Field) (s : AgentState) (a : Assign) :
  key a <> f -> sameAt f (assign s a) s.
Proof. destruct a, f; cbn; congruence. Qed.

Lemma sameAt_trans (f : Field) (s1 s2 s3 : AgentState) :
  sameAt f s1 s2 -> sameAt f s2 s3 -> sameAt f s1 s3.
Proof. destruct f; cbn; congruence. Qed.

Lemma spread_frame (f : Field) (u : Updates) (s : AgentState) :
  ~ In f (keys u) -> sameAt f (spread s u) s.
Proof.
  revert s. induction u as [|a u IH]; intros s Hf.
  - destruct f; reflexivity.
  - cbn in Hf. cbn [spread fold_left].
    apply sameAt_trans with (assign s a).
    + apply IH. tauto.
    + apply assign_frame. tauto.
Qed.

Ltac unfold_phases :=
  unfold settle, resumePlan, resumeExecute, resumeObserve, resumeUpdate,
    completeTask, catchInStartTask, recordError, finish,
    executeStep, observeResult, updatePlan.

Lemma enterStep_currentTask (i : nat) (w : World) :
  currentTask (state (self (enterStep i w))) = currentTask (state (self w)).
Proof.
  unfold enterStep, completeTask, executeStep, finish.
  destruct (nth_error _ i); reflexivity.
Qed.

(** No resumed phase writes [currentTask]. *)
Lemma settle_currentTask (now : Z) (o : Settled) (w : World) :
  currentTask (state (self (settle now o w))) = currentTask (state (self w)).
Proof.
  unfold_phases.
  destruct (awaiting w) as [[p|i st|i r|i ob]|]; destruct o;
    cbn -[enterStep]; try reflexivity;
    try match goal with
        | |- context [isError ?s] => destruct (isError s)
        end;
    try rewrite enterStep_currentTask; reflexivity.
Qed.

Lemma observe_phase_frame (i : nat) (r : StepResult) (now : Z) (o : Settled)
    (w : World) :
  awaiting w = Some (AwaitObserve i r) ->
  plan (state (self (settle now o w))) = plan (state (self w))
  /\ results (state (self (settle now o w))) = results (state (self w)).
Proof.
  intros E. unfold settle. rewrite E. unfold_phases.
  destruct o; cbn; split; reflexivity.
Qed.

(** C10. Every write to the state is [updateState], which merges: a field the
    update does not name keeps its value.  In particular no resumed phase
    changes [currentTask], and the observe phase changes neither [plan] nor
    [results]. *)
Theorem updateState_frames_unnamed_fields :
  (forall (f : Field) (u : Updates) (w : World),
      ~ In f (keys u) ->
      sameAt f (state (self (updateState u w))) (state (self w)))
  /\ (forall (now : Z) (o : Settled) (w : World),
        currentTask (state (self (settle now o w)))
        = currentTask (state (self w)))
  /\ (forall (i : nat) (r : StepResult) (now : Z) (o : Settled) (w : World),
        awaiting w = Some (AwaitObserve i r) ->
        plan (state (self (settle now o w))) = plan (state (self w))
        /\ results (state (self (settle now o w)))
           = results (state (self w))).
Proof.
  split; [|split].
  - intros f u w Hf. cbn [updateState self state]. now apply spread_frame.
  - apply settle_currentTask.
  - apply observe_phase_frame.
Qed.

(** The observe-phase update, which names status and progress, leaves the
    plan of a started task alone. *)
Lemma updateState_frames_witness :
  sameAt FPlan
    (state (self (updateState [SetStatus Observing; SetProgress 17%Z]
                    (startTask "Buy groceries" newAgentLoop))))
    (state (self (startTask "Buy groceries" newAgentLoop))).
Proof.
  apply (proj1 updateState_frames_unnamed_fields).
  cbn. intros [H|[H|[]]]; discriminate H.
Defined.

(** C6. While a task is running, [startTask] changes nothing of the object:
    the state, the guard and the callbacks are as before, nothing is
    delivered, the suspended run stays where it was, and the only trace is one
    warning on the console. *)
Theorem startTask_ignored_while_running (task : string) (w : World) :
  taskRunning (self w) = true ->
  self (startTask task w) = self w
  /\ awaiting (startTask task w) = awaiting w
  /\ delivered (startTask task w) = delivered w
  /\ console (startTask task w)
     = console w ++ [(WarnLevel, "Task already running, ignoring new task")].
Proof.
  intros Hrun. unfold startTask. rewrite Hrun. cbn. repeat split.
Qed.

(** A second task submitted while the first is being planned. *)
Lemma startTask_ignored_witness :
  let w := startTask "first" (fst (onStateUpdate 7 newAgentLoop)) in
  self (startTask "second" w) = self w
  /\ awaiting (startTask "second" w) = awaiting w
  /\ delivered (startTask "second" w) = delivered w
  /\ console (startTask "second" w)
     = console w ++ [(WarnLevel, "Task already running, ignoring new task")].
Proof.
  apply (startTask_ignored_while_running "second"). reflexivity.
Defined.


Lemma settle_threw_object (k : Await) (now : Z) (e : Thrown) (w : World) :
  awaiting w = Some k ->
  self (settle now (Threw e) w)
  = {| state := spread (state (self w))
                  [SetStatus Error; SetError (Some (errorText e))];
       taskRunning := false;
       updateCallbacks := updateCallbacks (self w) |}
  /\ awaiting (settle now (Threw e) w) = None.
Proof.
  intros E. unfold settle. rewrite E.
  destruct k as [p|i st|i r|i ob]; unfold_phases; cbn; split; reflexivity.
Qed.




(** ** Runs in which nothing throws *)

Lemma run_cons (e : Event) (l : list Event) (w : World) :
  run (e :: l) w = run l (step w e).
Proof. reflexivity. Qed.

Lemma seen_print (callback : FunRef) (l : Level) (t : string) (w : World) :
  seen callback (print l t w) = seen callback w.
Proof. reflexivity. Qed.

Lemma seen_setAwaiting (callback : FunRef) (k : option Await) (w : World) :
  seen callback (setAwaiting k w) = seen callback w.
Proof. reflexivity. Qed.

Lemma seen_setTaskRunning (callback : FunRef) (b : bool) (w : World) :
  seen callback (setTaskRunning b w) = seen callback w.
Proof. reflexivity. Qed.

(** One turn of the loop of [runAgentLoop] in which nothing throws: from the
    loop test of step [i] to the loop test of step [i + 1]. *)
Lemma loop_turn (i : nat) (st : string) (c1 c2 c3 : Z) (w : World) :
  nth_error (plan (state (self w))) i = Some st ->
  exists wb,
    settle c3 Fulfilled
      (settle c2 Fulfilled (settle c1 Fulfilled (enterStep i w)))
    = enterStep (S i) wb
    /\ plan (state (self wb)) = plan (state (self w))
    /\ currentTask (state (self wb)) = currentTask (state (self w))
    /\ taskRunning (self wb) = taskRunning (self w)
    /\ updateCallbacks (self wb) = updateCallbacks (self w)
    /\ map action (history (state (self wb)))
       = (map action (history (state (self w)))
          ++ ["execution"; "observation"; "plan-update"])%list
    /\ List.length (results (state (self wb)))
       = S (List.length (results (state (self w))))
    /\ forall callback,
        count_occ Nat.eq_dec (updateCallbacks (self w)) callback = 1 ->
        map statusProgress (seen callback wb)
        = (map statusProgress (seen callback w)
           ++ stepSnapshots (List.length (plan (state (self w)))) i)%list.
Proof.
  destruct w as [[[sta ct pl pr cs rs er hi] b l] k d c].
  cbn [plan state self]. intros Hst.
  unfold enterStep at 1. cbn [plan state self]. rewrite Hst.
  eexists. split.
  - unfold settle, executeStep, resumeExecute, observeResult, resumeObserve,
      updatePlan, resumeUpdate.
    cbn -[enterStep floorScaled String.append]. reflexivity.
  - cbn -[floorScaled String.append seen]. repeat split.
    + repeat rewrite map_app. cbn [map action].
      repeat rewrite <- app_assoc. reflexivity.
    + rewrite length_app. cbn. lia.
    + intros cb Hcb. unfold stepSnapshots.
      repeat (rewrite ?seen_updateState, ?seen_print, ?seen_setAwaiting;
              cbn [updateCallbacks self updateState setAwaiting print]).
      rewrite Hcb. cbn -[floorScaled String.append].
      repeat rewrite map_app. cbn -[floorScaled String.append].
      repeat rewrite <- app_assoc. reflexivity.
Qed.

(** The loop of [runAgentLoop] from the test of step [i] to the end of
    [startTask], when nothing throws: [m] steps are left. *)
Lemma loop_quiet (m : nat) :
  forall (i : nat) (w : World) (clock : list Z),
    List.length (plan (state (self w))) = i + m ->
    List.length clock = 3 * m ->
    let w' := run (fulfilAll clock) (enterStep i w) in
    awaiting w' = None
    /\ taskRunning (self w') = false
    /\ statusProgress (state (self w')) = (Completed, 100%Z)
    /\ currentStep (state (self w')) = None
    /\ plan (state (self w')) = plan (state (self w))
    /\ updateCallbacks (self w') = updateCallbacks (self w)
    /\ map action (history (state (self w')))
       = (map action (history (state (self w)))
          ++ flat_map (fun _ => ["execution"; "observation"; "plan-update"])
               (seq i m))%list
    /\ List.length (results (state (self w')))
       = List.length (results (state (self w))) + m
    /\ forall callback,
        count_occ Nat.eq_dec (updateCallbacks (self w)) callback = 1 ->
        map statusProgress (seen callback w')
        = (map statusProgress (seen callback w)
           ++ flat_map (stepSnapshots (List.length (plan (state (self w)))))
                (seq i m)
           ++ [(Completed, 100%Z)])%list.
Proof.
  induction m as [|m IH]; intros i w clock Hlen Hclock.
  - destruct clock; [|discriminate]. cbn [fulfilAll map run fold_left].
    assert (Hnone : nth_error (plan (state (self w))) i = None)
      by (apply nth_error_None; lia).
    unfold enterStep. rewrite Hnone. unfold completeTask, finish.
    cbn [awaiting setAwaiting taskRunning setTaskRunning self state
         updateState spread fold_left assign statusProgress status progress
         currentStep plan updateCallbacks history results seq flat_map].
    rewrite app_nil_r, Nat.add_0_r. repeat split.
    intros cb Hcb.
    rewrite seen_setAwaiting, seen_setTaskRunning, seen_updateState, Hcb.
    rewrite map_app. reflexivity.
  - destruct clock as [|c1 [|c2 [|c3 clock]]];
      cbn [List.length] in Hclock; try lia.
    destruct (nth_error (plan (state (self w))) i) as [st|] eqn:Hst;
      [|apply nth_error_None in Hst; lia].
    destruct (loop_turn i st c1 c2 c3 w Hst)
      as (wb & Hturn & Hplan & _ & Hrun & Hcbs & Hhist & Hres & Hseen).
    cbn [fulfilAll map]. rewrite !run_cons. cbn [step].
    rewrite Hturn. fold (fulfilAll clock).
    specialize (IH (S i) wb clock).
    cbn zeta in IH.
    destruct IH as (H1 & H2 & H3 & H4 & H5 & H6 & H7 & H8 & H9).
    { rewrite Hplan. lia. }
    { cbn [List.length] in Hclock. lia. }
    cbn zeta. repeat split; try assumption.
    + congruence.
    + congruence.
    + rewrite H7, Hhist, <- app_assoc. reflexivity.
    + rewrite H8, Hres. lia.
    + intros cb Hcb. rewrite H9 by congruence.
      rewrite Hseen by assumption. rewrite Hplan.
      cbn [seq flat_map]. rewrite <- !app_assoc. reflexivity.
Qed.

Lemma map_seenSince {B : Type} (f : AgentState -> B) (callback : FunRef)
    (w w' : World) (l : list B) :
  map f (seen callback w') = (map f (seen callback w) ++ l)%list ->
  map f (seenSince callback w w') = l.
Proof.
  intros E. unfold seenSince. rewrite <- skipn_map, E.
  rewrite <- (length_map f (seen callback w)).
  rewrite skipn_app, skipn_all, Nat.sub_diag. reflexivity.
Qed.

(** The planning phase of an accepted task, fulfilled. *)
Lemma plan_quiet (task : string) (now : Z) (w : World) :
  taskRunning (self w) = false ->
  exists w2,
    settle now Fulfilled (startTask task w) = enterStep 0 w2
    /\ plan (state (self w2)) = planOf task
    /\ updateCallbacks (self w2) = updateCallbacks (self w)
    /\ map action (history (state (self w2))) = ["planning"]
    /\ results (state (self w2)) = []
    /\ forall callback,
        count_occ Nat.eq_dec (updateCallbacks (self w)) callback = 1 ->
        map statusProgress (seen callback w2)
        = (map statusProgress (seen callback w)
           ++ [(Planning, 0%Z); (Planning, 10%Z)])%list.
Proof.
  intros Hidle. unfold startTask. rewrite Hidle.
  destruct w as [[[sta ct pl pr cs rs er hi] b l] k d c].
  eexists. split.
  - unfold settle, resumePlan. cbn -[enterStep planOf]. reflexivity.
  - cbn -[planOf seen]. repeat split.
    intros cb Hcb.
    repeat (rewrite ?seen_updateState, ?seen_print, ?seen_setAwaiting,
              ?seen_setTaskRunning;
            cbn [updateCallbacks self updateState setAwaiting setTaskRunning]).
    rewrite Hcb. cbn -[planOf]. repeat rewrite map_app.
    rewrite <- app_assoc. reflexivity.
Qed.

Lemma length_planOf (task : string) : List.length (planOf task) = 4.
Proof. reflexivity. Qed.

(** A fulfilled phase appends exactly one history entry. *)
Lemma enterStep_history (i : nat) (w : World) :
  history (state (self (enterStep i w))) = history (state (self w)).
Proof.
  unfold enterStep, completeTask, executeStep, finish.
  destruct (nth_error _ i); reflexivity.
Qed.

Lemma settle_fulfilled_history (now : Z) (w : World) :
  awaiting w <> None ->
  List.length (history (state (self (settle now Fulfilled w))))
  = S (List.length (history (state (self w)))).
Proof.
  intros Hk. unfold settle.
  destruct (awaiting w) as [[p|i st|i r|i ob]|]; [| | | |congruence];
    unfold resumePlan, resumeExecute, resumeObserve, resumeUpdate,
      observeResult, updatePlan, finish;
    cbn -[enterStep floorScaled String.append];
    try match goal with
        | |- context [isError ?s] => destruct (isError s)
        end;
    rewrite ?enterStep_history;
    cbn -[floorScaled String.append];
    rewrite length_app; cbn; lia.
Qed.

(** No resumed phase, fulfilled or failing, shortens the history. *)
Lemma settle_history_grows (now : Z) (o : Settled) (w : World) :
  List.length (history (state (self w)))
  <= List.length (history (state (self (settle now o w)))).
Proof.
  destruct o as [|e].
  - destruct (awaiting w) as [k|] eqn:E.
    + rewrite settle_fulfilled_history by congruence. lia.
    + unfold settle. rewrite E. lia.
  - destruct (awaiting w) as [k|] eqn:E.
    + destruct (settle_threw_object k now e w E) as [-> _].
      cbn. lia.
    + unfold settle. rewrite E. lia.
Qed.

(** C7. A run in which nothing throws ends completed with a history of
    [1 + 3 N] entries for a plan of [N] steps: one planning entry, then an
    execution, an observation and a plan-update entry per step ([planTask]
    always writes four steps; the loop adds [3 N] entries whatever the length
    [N] of the plan it finds).  Along the way a fulfilled phase adds exactly
    one entry and no resumed phase ever removes one. *)
Theorem quiet_run_history (task : string) (clock : list Z) (w : World) :
  taskRunning (self w) = false ->
  List.length clock = 13 ->
  let w' := run (quietRun task clock) w in
  let n := List.length (plan (state (self w'))) in
  awaiting w' = None
  /\ taskRunning (self w') = false
  /\ status (state (self w')) = Completed
  /\ List.length (history (state (self w'))) = 1 + 3 * n
  /\ map action (history (state (self w')))
     = "planning"
       :: flat_map (fun _ => ["execution"; "observation"; "plan-update"])
            (seq 0 n)
  /\ List.length (results (state (self w'))) = n
  /\ (forall v steps,
        List.length steps = 3 * List.length (plan (state (self v))) ->
        List.length
          (history (state (self (run (fulfilAll steps) (enterStep 0 v)))))
        = List.length (history (state (self v)))
          + 3 * List.length (plan (state (self v))))
  /\ (forall now v,
        awaiting v <> None ->
        List.length (history (state (self (settle now Fulfilled v))))
        = S (List.length (history (state (self v)))))
  /\ (forall now o v,
        List.length (history (state (self v)))
        <= List.length (history (state (self (settle now o v))))).
Proof.
  intros Hidle Hclock.
  destruct clock as [|c0 clock]; [discriminate|].
  destruct (plan_quiet task c0 w Hidle)
    as (w2 & Hplan & Hp & Hcbs & Hhist & Hres & _).
  unfold quietRun. cbn [fulfilAll map]. rewrite !run_cons. cbn [step].
  rewrite Hplan. fold (fulfilAll clock).
  destruct (loop_quiet 4 0 w2 clock) as (H1 & H2 & H3 & H4 & H5 & H6 & H7 & H8 & _).
  { now rewrite Hp. }
  { cbn [List.length] in Hclock. lia. }
  cbn zeta. rewrite H5, Hp, length_planOf.
  repeat split.
  - exact H1.
  - exact H2.
  - now inversion H3.
  - rewrite <- (length_map action), H7, Hhist. reflexivity.
  - rewrite H7, Hhist. reflexivity.
  - rewrite H8, Hres. reflexivity.
  - intros v steps Hsteps.
    destruct (loop_quiet (List.length (plan (state (self v)))) 0 v steps
                eq_refl Hsteps) as (_ & _ & _ & _ & _ & _ & Hv & _).
    rewrite <- (length_map action), Hv, length_app, length_map.
    f_equal. rewrite (flat_map_constant_length (c := 3)) by reflexivity.
    rewrite length_seq. lia.
  - apply settle_fulfilled_history.
  - apply settle_history_grows.
Qed.

(** Four steps: thirteen history entries. *)
Lemma quiet_run_history_witness :
  let w' := run (quietRun "Buy groceries" (repeat 0%Z 13)) newAgentLoop in
  List.length (history (state (self w'))) = 13.
Proof.
  cbn zeta.
  destruct (quiet_run_history "Buy groceries" (repeat 0%Z 13) newAgentLoop)
    as (_ & _ & _ & H & _); [reflexivity|reflexivity|].
  exact H.
Defined.

(** C9. A subscriber of a four-step run in which nothing throws sees
    progress 0 when the task is accepted and 10 when it is planned, then for
    step [i] the values [floor(i/4*50)], [floor(i/4*70)] and [floor(i/4*90)]
    at the execute, observe and update boundaries (each phase shows a second
    time, unchanged, when its work is recorded), and last a snapshot with
    status [Completed] and progress 100. *)
Theorem four_step_progress
    (task : string) (clock : list Z) (callback : FunRef) (w : World) :
  taskRunning (self w) = false ->
  count_occ Nat.eq_dec (updateCallbacks (self w)) callback = 1 ->
  List.length clock = 13 ->
  let w' := run (quietRun task clock) w in
  List.length (plan (state (self w'))) = 4
  /\ map statusProgress (seenSince callback w w')
     = ([(Planning, 0%Z); (Planning, 10%Z)]
        ++ flat_map (stepSnapshots 4) [0; 1; 2; 3]
        ++ [(Completed, 100%Z)])%list
  /\ map (fun i => floorScaled i 4 50) [0; 1; 2; 3] = [0; 12; 25; 37]%Z
  /\ map (fun i => floorScaled i 4 70) [0; 1; 2; 3] = [0; 17; 35; 52]%Z
  /\ map (fun i => floorScaled i 4 90) [0; 1; 2; 3] = [0; 22; 45; 67]%Z
  /\ statusProgress (state (self w')) = (Completed, 100%Z).
Proof.
  intros Hidle Hcb Hclock.
  destruct clock as [|c0 clock]; [discriminate|].
  destruct (plan_quiet task c0 w Hidle)
    as (w2 & Hplan & Hp & Hcbs & _ & _ & Hseen).
  unfold quietRun. cbn [fulfilAll map]. rewrite !run_cons. cbn [step].
  rewrite Hplan. fold (fulfilAll clock).
  destruct (loop_quiet 4 0 w2 clock) as (_ & _ & H3 & _ & H5 & _ & _ & _ & H9).
  { now rewrite Hp. }
  { cbn [List.length] in Hclock. lia. }
  cbn zeta. rewrite H5, Hp, length_planOf.
  split; [reflexivity|]. split; [|repeat split; assumption || reflexivity].
  apply map_seenSince.
  rewrite H9 by congruence. rewrite Hseen by assumption.
  rewrite Hp, length_planOf, <- app_assoc. reflexivity.
Qed.

(** The snapshots one subscriber of a fresh agent loop receives. *)
Lemma four_step_progress_witness :
  let w := fst (onStateUpdate 7 newAgentLoop) in
  let w' := run (quietRun "Buy groceries" (repeat 1000%Z 13)) w in
  map statusProgress (seenSince 7 w w')
  = [ (Planning, 0); (Planning, 10);
      (Executing, 0); (Executing, 0); (Observing, 0); (Observing, 0);
      (Updating, 0); (Updating, 0);
      (Executing, 12); (Executing, 12); (Observing, 17); (Observing, 17);
      (Updating, 22); (Updating, 22);
      (Executing, 25); (Executing, 25); (Observing, 35); (Observing, 35);
      (Updating, 45); (Updating, 45);
      (Executing, 37); (Executing, 37); (Observing, 52); (Observing, 52);
      (Updating, 67); (Updating, 67);
      (Completed, 100) ]%Z.
Proof.
  cbn zeta.
  destruct (four_step_progress "Buy groceries" (repeat 1000%Z 13) 7
              (fst (onStateUpdate 7 newAgentLoop)))
    as (_ & H & _); [reflexivity|reflexivity|reflexivity|].
  rewrite H. reflexivity.
Defined.


(** ** Progress along arbitrary runs *)

(** *** Broadcasts *)

Lemma emits_here (w : World) : emits w w [].
Proof.
  repeat split. intros cb. cbn. now rewrite app_nil_r.
Qed.

Lemma emits_print (l : Level) (t : string) (w w1 : World)
    (ss : list AgentState) :
  emits w w1 ss -> emits w (print l t w1) ss.
Proof. intros H. exact H. Qed.

Lemma emits_setAwaiting (k : option Await) (w w1 : World)
    (ss : list AgentState) :
  emits w w1 ss -> emits w (setAwaiting k w1) ss.
Proof. intros H. exact H. Qed.

Lemma emits_setTaskRunning (b : bool) (w w1 : World) (ss : list AgentState) :
  emits w w1 ss -> emits w (setTaskRunning b w1) ss.
Proof. intros H. exact H. Qed.

Lemma emits_updateState (u : Updates) (w w1 : World) (ss : list AgentState) :
  emits w w1 ss ->
  emits w (updateState u w1) (ss ++ [spread (state (self w1)) u])%list.
Proof.
  intros (Hcb & Hst & Hseen). repeat split.
  - exact Hcb.
  - cbn [updateState self state]. now rewrite last_last.
  - intros cb. rewrite seen_updateState, Hseen, Hcb, flat_map_app.
    cbn [flat_map]. now rewrite app_nil_r, app_assoc.
Qed.

Ltac emit :=
  repeat first
    [ apply emits_print
    | apply emits_setAwaiting
    | apply emits_setTaskRunning
    | eapply emits_updateState
    | apply emits_here ].

(** *** Chains of snapshots *)


Section Chains.

Context {A : Type} (R : A -> A -> Prop).

Lemma last_cons_default (a d : A) (l : list A) :
  last (a :: l) d = last l a.
Proof.
  revert a d. induction l as [|b l IH]; intros a d; [reflexivity|].
  change (last (a :: b :: l) d) with (last (b :: l) d).
  rewrite !IH. reflexivity.
Qed.


Lemma sorted_glue (x : A) (l1 l2 : list A) :
  Sorted R (x :: l1) -> Sorted R (last l1 x :: l2) -> Sorted R (x :: l1 ++ l2).
Proof.
  revert x. induction l1 as [|a l1 IH]; intros x H1 H2.
  - exact H2.
  - apply Sorted_inv in H1 as [H1 Hh]. apply HdRel_inv in Hh.
    cbn [app]. constructor; [|constructor; exact Hh].
    apply IH; [exact H1|]. rewrite <- (last_cons_default a x). exact H2.
Qed.

Lemma sorted_snoc (x y : A) (l : list A) :
  Sorted R (x :: l) -> R (last l x) y -> Sorted R (x :: l ++ [y]).
Proof.
  intros Hs Hr. apply sorted_glue; [exact Hs|]. repeat constructor. exact Hr.
Qed.

Hypothesis R_refl : forall a, R a a.




End Chains.

(** *** One event *)

Ltac state_cbn :=
  cbn [spread fold_left assign status currentTask plan progress currentStep
       results error history state self updateState print setAwaiting
       setTaskRunning awaiting taskRunning updateCallbacks app last].

Lemma enterStep_progress (i : nat) (w w1 : World) (ss : list AgentState) :
  emits w w1 ss ->
  inRange (state (self w1)) ->
  status (state (self w1)) = Planning \/ status (state (self w1)) = Updating ->
  exists s,
    emits w (enterStep i w1) (ss ++ [s])%list
    /\ mayFollow (state (self w1)) s
    /\ inRange s
    /\ progressInvariant (enterStep i w1).
Proof.
  intros H Hr Hst. unfold enterStep.
  destruct (nth_error (plan (state (self w1))) i) as [st|] eqn:E.
  - assert (Hi : i < List.length (plan (state (self w1))))
      by (apply nth_error_Some; congruence).
    pose proof (floorScaled_bounds i _ 50 Hi ltac:(lia)) as Hb.
    eexists. split; [unfold executeStep; emit; exact H|].
    unfold mayFollow, stepStarts, inRange, progressInvariant, executeStep.
    state_cbn. split; [|repeat split; lia].
    right; left. split; [exact Hst|]. split; [reflexivity|].
    exists i, st. repeat split. exact E.
  - eexists. split; [unfold completeTask, finish; emit; exact H|].
    unfold mayFollow, inRange, progressInvariant, completeTask, finish in *.
    state_cbn. repeat split; try lia; left; lia.
Qed.

Ltac solve_follow :=
  unfold mayFollow, inRange in *; state_cbn;
  first [ lia | left; lia | right; right; eexists; reflexivity ].

Ltac solve_invariant :=
  unfold progressInvariant, inRange in *;
  unfold catchInStartTask, recordError, observeResult, updatePlan;
  unfold finish;
  state_cbn; repeat split; solve [assumption | lia | reflexivity].

Ltac chain :=
  repeat first
    [ apply Sorted_cons | apply Sorted_nil | apply HdRel_cons
    | apply HdRel_nil | apply Forall_cons | apply Forall_nil ].

Ltac finish_step :=
  split; [state_cbn; chain; solve_follow|];
  split; [state_cbn; chain; solve_follow|];
  solve_invariant.

Lemma startTask_progress (task : string) (w : World) :
  progressInvariant w ->
  exists ss,
    emits w (startTask task w) ss
    /\ Sorted mayFollow (state (self w) :: ss)
    /\ Forall inRange ss
    /\ progressInvariant (startTask task w).
Proof.
  intros Hinv. unfold startTask.
  destruct (taskRunning (self w)) eqn:Hrun.
  - exists []. split; [emit|]. split; [chain|].
    split; [chain|]. exact Hinv.
  - eexists. split; [emit|]. finish_step.
Qed.

Lemma settle_progress (now : Z) (o : Settled) (w : World) :
  progressInvariant w ->
  exists ss,
    emits w (settle now o w) ss
    /\ Sorted mayFollow (state (self w) :: ss)
    /\ Forall inRange ss
    /\ progressInvariant (settle now o w).
Proof.
  intros Hinv. unfold settle.
  destruct (awaiting w) as [[p|i st|i r|i ob]|] eqn:E;
    unfold progressInvariant in Hinv; rewrite E in Hinv;
    cbn zeta in Hinv; destruct Hinv as [Hr Hinv].
  - (* planning *)
    destruct Hinv as [Hs Hp].
    unfold resumePlan. destruct o as [|e].
    + match goal with
      | |- context [isError (status (state (self ?x)))] => set (w1 := x)
      end.
      assert (H1 : emits w w1 [state (self w1)])
        by (subst w1; apply (emits_updateState _ w w []); apply emits_here).
      assert (Hr1 : inRange (state (self w1)))
        by (subst w1; unfold inRange; state_cbn; lia).
      assert (Hs1 : status (state (self w1)) = Planning)
        by (subst w1; state_cbn; exact Hs).
      rewrite Hs1. cbn [isError].
      destruct (enterStep_progress 0 w w1 _ H1 Hr1 (or_introl Hs1))
        as (s & Hem & Hmf & Hrs & Hinv').
      eexists. split; [exact Hem|]. split; [|split; [|exact Hinv']].
      * apply sorted_snoc; [|exact Hmf]. subst w1.
        chain. solve_follow.
      * cbn [app]. chain; assumption.
    + unfold recordError.
      cbn [isError status state self updateState spread fold_left assign].
      eexists. split; [unfold finish; emit|]. finish_step.
  - (* execution *)
    destruct Hinv as (Hs & Hi & Hp).
    pose proof (floorScaled_mono i (List.length (plan (state (self w)))) 50 70
                  ltac:(lia) ltac:(lia)) as Hm.
    pose proof (floorScaled_bounds i (List.length (plan (state (self w)))) 70
                  Hi ltac:(lia)) as Hb.
    unfold resumeExecute. destruct o as [|e].
    + match goal with
      | |- context [isError (status (state (self ?x)))] =>
          destruct (isError (status (state (self x))))
      end.
      * eexists. split; [unfold finish; emit|]. finish_step.
      * eexists. split; [unfold observeResult; emit|]. finish_step.
    + eexists. split; [unfold catchInStartTask, finish, recordError; emit|].
      finish_step.
  - (* observation *)
    destruct Hinv as (Hs & Hi & Hp).
    pose proof (floorScaled_mono i (List.length (plan (state (self w)))) 70 90
                  ltac:(lia) ltac:(lia)) as Hm.
    pose proof (floorScaled_bounds i (List.length (plan (state (self w)))) 90
                  Hi ltac:(lia)) as Hb.
    unfold resumeObserve. destruct o as [|e].
    + eexists. split; [unfold updatePlan; emit|]. finish_step.
    + eexists. split; [unfold catchInStartTask, finish, recordError; emit|].
      finish_step.
  - (* plan update *)
    destruct Hinv as (Hs & Hi & Hp).
    unfold resumeUpdate. destruct o as [|e].
    + cbn [negb].
      match goal with
      | |- context [enterStep _ ?x] => set (w1 := x)
      end.
      assert (H1 : emits w w1 [state (self w1)])
        by (subst w1; apply (emits_updateState _ w w []); apply emits_here).
      assert (Hr1 : inRange (state (self w1)))
        by (subst w1; unfold inRange; state_cbn; lia).
      assert (Hs1 : status (state (self w1)) = Updating)
        by (subst w1; state_cbn; exact Hs).
      destruct (enterStep_progress (S i) w w1 _ H1 Hr1 (or_intror Hs1))
        as (s & Hem & Hmf & Hrs & Hinv').
      eexists. split; [exact Hem|]. split; [|split; [|exact Hinv']].
      * apply sorted_snoc; [|exact Hmf]. subst w1.
        chain. solve_follow.
      * cbn [app]. chain; assumption.
    + eexists. split; [unfold catchInStartTask, finish, recordError; emit|].
      finish_step.
  - exists []. split; [emit|]. split; [chain|].
    split; [chain|]. unfold progressInvariant. rewrite E. tauto.
Qed.

Lemma step_progress (e : Event) (w : World) :
  taskEvent e = true ->
  progressInvariant w ->
  exists ss,
    emits w (step w e) ss
    /\ Sorted mayFollow (state (self w) :: ss)
    /\ Forall inRange ss
    /\ progressInvariant (step w e).
Proof.
  intros He Hinv. destruct e; try discriminate He; cbn [step].
  - now apply startTask_progress.
  - now apply settle_progress.
Qed.

Lemma step_invariant (e : Event) (w : World) :
  progressInvariant w -> progressInvariant (step w e).
Proof.
  intros Hinv. destruct e as [task|cb|cb|now o].
  - now destruct (step_progress (CallStartTask task) w eq_refl Hinv)
      as (_ & _ & _ & _ & H).
  - exact Hinv.
  - exact Hinv.
  - now destruct (step_progress (Settle now o) w eq_refl Hinv)
      as (_ & _ & _ & _ & H).
Qed.

Lemma run_invariant (events : list Event) (w : World) :
  progressInvariant w -> progressInvariant (run events w).
Proof.
  revert w. induction events as [|e events IH]; intros w Hinv; [exact Hinv|].
  rewrite run_cons. apply IH. now apply step_invariant.
Qed.

Lemma reachable_invariant (w : World) : reachable w -> progressInvariant w.
Proof.
  intros [events ->]. apply run_invariant.
  unfold progressInvariant. cbn. lia.
Qed.





End AgentProperties.

(** * Properties of the WebSocket manager *)

Module WsProperties.
Import Ws.

Lemma ws_run_cons (e : Event) (l : list Event) (w : World) :
  run (e :: l) w = run l (step w e).
Proof. reflexivity. Qed.

(** ** The reconnect delays *)

Lemma delayOf_values :
  map delayOf (seq 1 5) = [1000; 1500; 2250; 3375; 10125 # 2]%Q.
Proof. vm_compute. reflexivity. Qed.

Lemma delayOf_formula (n : nat) :
  (delayOf (S n) == 1000 * (3 # 2) ^ Z.of_nat n)%Q.
Proof.
  unfold delayOf, pow15, reconnectDelay. rewrite Qred_correct.
  cbn [Nat.sub]. rewrite Nat.sub_0_r. reflexivity.
Qed.

(** ** Explicit disconnect *)

Lemma nth_error_setReadyStateIn (l : list WebSocket) (r : nat) (x : WebSocket)
    (s : ReadyState) :
  nth_error l r = Some x ->
  nth_error (setReadyStateIn l r s) r
  = Some {| url := url x; readyState := s |}.
Proof.
  revert r. induction l as [|y l IH]; intros [|r] E; try discriminate E.
  - cbn in *. congruence.
  - cbn in *. now apply IH.
Qed.

Lemma close_closes (r : nat) (x : WebSocket) (w : World) :
  nth_error (sockets w) r = Some x ->
  exists x',
    nth_error (sockets (close r w)) r = Some x'
    /\ url x' = url x
    /\ (readyState x' = CLOSING \/ readyState x' = CLOSED).
Proof.
  intros E. unfold close. rewrite E.
  destruct x as [u [| | |]]; cbn [readyState].
  - eexists. split; [apply nth_error_setReadyStateIn; exact E|]. cbn. tauto.
  - eexists. split; [apply nth_error_setReadyStateIn; exact E|]. cbn. tauto.
  - exists {| url := u; readyState := CLOSING |}. cbn. tauto.
  - exists {| url := u; readyState := CLOSED |}. cbn. tauto.
Qed.

Lemma close_frame (r : nat) (w : World) :
  self (close r w) = self w /\ timers (close r w) = timers w
  /\ List.length (sockets (close r w)) = List.length (sockets w).
Proof.
  unfold close.
  destruct (nth_error (sockets w) r) as [[u [| | |]]|]; cbn;
    repeat split; try reflexivity.
  all: clear; revert r; induction (sockets w) as [|y l IH]; intros [|r];
    cbn; try reflexivity; now rewrite IH.
Qed.

(** C2, amended.  [disconnect()] on a manager that holds a socket closes and
    drops it, resets the counter to 0 and reports [isConnected = false]; the
    reconnect timers that are pending stay pending, and when one of them
    fires it calls [connect()], which constructs a new socket.  On a manager
    that holds no socket, [disconnect()] changes nothing. *)
Theorem disconnect_keeps_pending_timers (w : World) :
  (socket (self w) = None -> disconnect w = w)
  /\ (forall r,
        socket (self w) = Some r ->
        let w' := disconnect w in
        socket (self w') = None
        /\ reconnectAttempts (self w') = 0
        /\ state (self w') = {| isConnected := false; error := None |}
        /\ (forall x,
              nth_error (sockets w) r = Some x ->
              exists x',
                nth_error (sockets w') r = Some x'
                /\ url x' = url x
                /\ (readyState x' = CLOSING \/ readyState x' = CLOSED))
        /\ timers w' = timers w
        /\ forall k d,
             nth_error (timers w') k = Some d ->
             let w'' := step w' (TimerFires k Fulfilled) in
             socket (self w'') = Some (List.length (sockets w'))
             /\ nth_error (sockets w'') (List.length (sockets w'))
                = Some {| url := endpoint w'; readyState := CONNECTING |}
             /\ timers w'' = dropNth k (timers w')).
Proof.
  split.
  - intros E. unfold disconnect. now rewrite E.
  - intros r E w'. subst w'. unfold disconnect. rewrite E.
    destruct (close_frame r w) as (Hself & Htimers & Hlen).
    split; [reflexivity|]. split; [reflexivity|]. split; [reflexivity|].
    split; [|split].
    + intros x Hx. destruct (close_closes r x w Hx) as (x' & H1 & H2 & H3).
      exists x'. repeat split; assumption.
    + cbn. exact Htimers.
    + intros k d Hk. cbn [step]. rewrite Hk.
      unfold connect, connectedOrConnecting.
      cbn [socket self setTimers updateState setState setSelf tellState
           setReconnectAttempts setSocket sockets timers].
      repeat split. cbn [sockets setSockets].
      rewrite nth_error_app2, Nat.sub_diag by lia. reflexivity.
Qed.

(** C2, as the claim states it, fails: after an abnormal close has scheduled
    a reconnect, [disconnect()] leaves the timer pending, and when it fires a
    new connection is opened although nobody called [connect()]. *)
Lemma reconnect_fires_after_disconnect :
  let w := run [CallConnect Fulfilled; OnOpen 0; OnClose 0 1006 "";
                CallDisconnect]
             (newWorld "session" "http:" "localhost:3000") in
  timers w <> []
  /\ connectedOrConnecting w = false
  /\ connectedOrConnecting (step w (TimerFires 0 Fulfilled)) = true.
Proof.
  cbn zeta. split; [|split].
  - vm_compute. discriminate.
  - vm_compute. reflexivity.
  - vm_compute. reflexivity.
Qed.

(** The world of the counterexample: the timer of the abnormal close survives
    [disconnect()] and reconnects. *)
Lemma disconnect_keeps_timers_witness :
  let w := run [CallConnect Fulfilled; OnOpen 0; OnClose 0 1006 ""]
             (newWorld "session" "http:" "localhost:3000") in
  socket (self w) = Some 0
  /\ timers (disconnect w) = timers w
  /\ socket (self (step (disconnect w) (TimerFires 0 Fulfilled))) = Some 1.
Proof.
  intros w.
  destruct (proj2 (disconnect_keeps_pending_timers w) 0 eq_refl)
    as (_ & _ & _ & _ & Ht & Hfire).
  split; [reflexivity|]. split; [exact Ht|].
  exact (proj1 (Hfire 0 1000%Q eq_refl)).
Defined.

(** ** The singleton *)

(** C4, as the claim states it, fails: the manager the second session gets
    is the one made for the first, and it serves the first session. *)
Lemma second_session_gets_first_manager :
  let g1 := snd (getWebSocketManager "session-1" moduleLoaded) in
  let r1 := fst (getWebSocketManager "session-1" moduleLoaded) in
  let r2 := fst (getWebSocketManager "session-2" g1) in
  let g2 := snd (getWebSocketManager "session-2" g1) in
  ~ (sessionOf r2 g2 = Some "session-2" /\ r2 <> r1).
Proof.
  cbn zeta. intros [H _]. vm_compute in H. discriminate H.
Qed.

(** C4, amended.  [getWebSocketManager] keeps one manager for the whole
    module: the call that finds none constructs it for the session it is
    given, and every later call returns that same manager, whatever session
    it is given. *)
Theorem getWebSocketManager_is_a_singleton (s1 s2 : string) (g : ModuleState) :
  let r1 := fst (getWebSocketManager s1 g) in
  let g1 := snd (getWebSocketManager s1 g) in
  let r2 := fst (getWebSocketManager s2 g1) in
  let g2 := snd (getWebSocketManager s2 g1) in
  wsManager g1 = Some r1
  /\ r2 = r1
  /\ g2 = g1
  /\ (wsManager g = None ->
      sessionOf r1 g1 = Some s1 /\ sessionOf r2 g2 = Some s1).
Proof.
  cbn zeta. unfold getWebSocketManager at 2 4.
  destruct (wsManager g) as [r|] eqn:E.
  - unfold getWebSocketManager. rewrite E. cbn. rewrite E. cbn.
    repeat split; congruence.
  - unfold getWebSocketManager. rewrite E. cbn.
    repeat split; unfold sessionOf; cbn;
      rewrite nth_error_app2, Nat.sub_diag by lia; reflexivity.
Qed.

(** The second session is served by the manager of the first. *)
Lemma getWebSocketManager_witness :
  let g1 := snd (getWebSocketManager "session-1" moduleLoaded) in
  sessionOf (fst (getWebSocketManager "session-2" g1))
    (snd (getWebSocketManager "session-2" g1))
  = Some "session-1".
Proof.
  cbn zeta.
  destruct (getWebSocketManager_is_a_singleton "session-1" "session-2"
              moduleLoaded) as (_ & _ & _ & H).
  exact (proj2 (H eq_refl)).
Defined.

End WsProperties.

(** * Observers of both classes *)

Lemma count_occ_filter_differs (callback c : FunRef) (l : list FunRef) :
  count_occ Nat.eq_dec (filter (differs callback) l) c
  = if Nat.eqb c callback then 0 else count_occ Nat.eq_dec l c.
Proof.
  induction l as [|x l IH]; [now destruct (Nat.eqb c callback)|].
  cbn [filter]. unfold differs at 1.
  destruct (Nat.eqb x callback) eqn:Ex; cbn [negb].
  - apply Nat.eqb_eq in Ex. subst x. rewrite IH.
    destruct (Nat.eqb c callback) eqn:Ec; [reflexivity|].
    apply Nat.eqb_neq in Ec. now rewrite count_occ_cons_neq by congruence.
  - apply Nat.eqb_neq in Ex. cbn [count_occ].
    destruct (Nat.eq_dec x c) as [->|Hne].
    + apply Nat.eqb_neq in Ex. rewrite Ex. now rewrite IH, Ex.
    + rewrite IH. reflexivity.
Qed.

Lemma not_In_filter_differs (callback : FunRef) (l : list FunRef) :
  ~ In callback (filter (differs callback) l).
Proof.
  intros H. apply filter_In in H as [_ H]. unfold differs in H.
  now rewrite Nat.eqb_refl in H.
Qed.

(** C3, as the claim states it, fails for both classes: a callback that is
    registered twice is gone after one of its two unsubscribe functions has
    been called, and the next update is not delivered to it. *)
Lemma duplicate_registration_is_lost :
  (let w1 := fst (Agent.onStateUpdate 7 Agent.newAgentLoop) in
   let off1 := snd (Agent.onStateUpdate 7 Agent.newAgentLoop) in
   let w2 := fst (Agent.onStateUpdate 7 w1) in
   Agent.updateCallbacks (Agent.self w2) = [7; 7]
   /\ count_occ Nat.eq_dec (Agent.updateCallbacks (Agent.self (off1 w2))) 7
      <> 1
   /\ Agent.seen 7 (Agent.startTask "Buy groceries" (off1 w2)) = [])
  /\ (let b := Ws.newWorld "session" "http:" "localhost:3000" in
      let b1 := fst (Ws.addMessageListener 7 b) in
      let off1 := snd (Ws.addMessageListener 7 b) in
      let b2 := fst (Ws.addMessageListener 7 b1) in
      let hello := {| Ws.type := "notification"; Ws.data := "hello" |} in
      Ws.messageListeners (Ws.self b2) = [7; 7]
      /\ count_occ Nat.eq_dec (Ws.messageListeners (Ws.self (off1 b2))) 7
         <> 1
      /\ Ws.heard 7 (Ws.handleMessage (Some hello) (off1 b2)) = []).
Proof.
  cbn zeta. repeat split; try reflexivity; vm_compute; discriminate.
Qed.

(** C3, amended.  The function [onStateUpdate] (or [addMessageListener])
    returns removes every registration of its callback, however many there
    are, and no registration of another callback: the others keep their
    number and their order.  After the call the callback is handed nothing
    any more, and every other callback is handed what it was handed
    before. *)
Theorem unsubscribe_removes_every_registration :
  (forall (callback : FunRef) (w v : Agent.World),
      let w1 := fst (Agent.onStateUpdate callback w) in
      let v' := snd (Agent.onStateUpdate callback w) v in
      Agent.updateCallbacks (Agent.self w1)
      = (Agent.updateCallbacks (Agent.self w) ++ [callback])%list
      /\ Agent.updateCallbacks (Agent.self v')
         = filter (differs callback) (Agent.updateCallbacks (Agent.self v))
      /\ ~ In callback (Agent.updateCallbacks (Agent.self v'))
      /\ (forall c,
            c <> callback ->
            count_occ Nat.eq_dec (Agent.updateCallbacks (Agent.self v')) c
            = count_occ Nat.eq_dec (Agent.updateCallbacks (Agent.self v)) c)
      /\ (forall u,
            Agent.seen callback (Agent.updateState u v')
            = Agent.seen callback v)
      /\ (forall u c,
            c <> callback ->
            Agent.seen c (Agent.updateState u v')
            = Agent.seen c (Agent.updateState u v)))
  /\ (forall (listener : FunRef) (w v : Ws.World),
        let w1 := fst (Ws.addMessageListener listener w) in
        let v' := snd (Ws.addMessageListener listener w) v in
        Ws.messageListeners (Ws.self w1)
        = (Ws.messageListeners (Ws.self w) ++ [listener])%list
        /\ Ws.messageListeners (Ws.self v')
           = filter (differs listener) (Ws.messageListeners (Ws.self v))
        /\ ~ In listener (Ws.messageListeners (Ws.self v'))
        /\ (forall c,
              c <> listener ->
              count_occ Nat.eq_dec (Ws.messageListeners (Ws.self v')) c
              = count_occ Nat.eq_dec (Ws.messageListeners (Ws.self v)) c)
        /\ (forall parsed,
              Ws.heard listener (Ws.handleMessage parsed v')
              = Ws.heard listener v)
        /\ (forall parsed c,
              c <> listener ->
              Ws.heard c (Ws.handleMessage parsed v')
              = Ws.heard c (Ws.handleMessage parsed v))).
Proof.
  split.
  - intros cb w v. cbn zeta. cbn [fst snd Agent.onStateUpdate].
    split; [reflexivity|]. split; [reflexivity|].
    split; [apply not_In_filter_differs|]. split; [|split].
    + intros c Hc. cbn [Agent.unsubscribe Agent.setCallbacks Agent.self
                        Agent.updateCallbacks].
      rewrite count_occ_filter_differs.
      apply Nat.eqb_neq in Hc. now rewrite Hc.
    + intros u. rewrite AgentProperties.seen_updateState.
      cbn [Agent.unsubscribe Agent.setCallbacks Agent.self
           Agent.updateCallbacks Agent.state].
      rewrite count_occ_filter_differs, Nat.eqb_refl. cbn [repeat].
      now rewrite app_nil_r.
    + intros u c Hc. rewrite !AgentProperties.seen_updateState.
      cbn [Agent.unsubscribe Agent.setCallbacks Agent.self
           Agent.updateCallbacks Agent.state].
      rewrite count_occ_filter_differs.
      apply Nat.eqb_neq in Hc. now rewrite Hc.
  - intros l w v. cbn zeta. cbn [fst snd Ws.addMessageListener].
    split; [reflexivity|]. split; [reflexivity|].
    split; [apply not_In_filter_differs|]. split; [|split].
    + intros c Hc. cbn [Ws.removeMessageListener Ws.setMessageListeners
                        Ws.setSelf Ws.self Ws.messageListeners].
      rewrite count_occ_filter_differs.
      apply Nat.eqb_neq in Hc. now rewrite Hc.
    + intros [payload|]; [|reflexivity].
      unfold Ws.heard.
      cbn [Ws.handleMessage Ws.tellMessage Ws.messageSeen
           Ws.removeMessageListener Ws.setMessageListeners Ws.setSelf Ws.self
           Ws.messageListeners].
      rewrite filter_app, map_app.
      induction (Ws.messageListeners (Ws.self v)) as [|x xs IH];
        [now rewrite app_nil_r|].
      cbn [filter]. unfold differs at 1.
      destruct (Nat.eqb x l) eqn:Ex; cbn [negb]; [exact IH|].
      cbn [map filter fst]. rewrite Ex. exact IH.
    + intros [payload|] c Hc; [|reflexivity].
      unfold Ws.heard.
      cbn [Ws.handleMessage Ws.tellMessage Ws.messageSeen
           Ws.removeMessageListener Ws.setMessageListeners Ws.setSelf Ws.self
           Ws.messageListeners].
      rewrite !filter_app, !map_app. f_equal.
      induction (Ws.messageListeners (Ws.self v)) as [|x xs IH];
        [reflexivity|].
      cbn [filter]. unfold differs at 1.
      destruct (Nat.eqb x l) eqn:Ex; cbn [negb].
      * apply Nat.eqb_eq in Ex. subst x. cbn [map filter fst].
        apply not_eq_sym in Hc. apply Nat.eqb_neq in Hc. rewrite Hc.
        exact IH.
      * cbn [map filter fst]. destruct (Nat.eqb x c); cbn [map];
          now rewrite IH.
Qed.

(** Unsubscribing callback 7, registered twice, leaves callback 8 registered
    once. *)
Lemma unsubscribe_witness :
  let w1 := fst (Agent.onStateUpdate 7 Agent.newAgentLoop) in
  let w2 := fst (Agent.onStateUpdate 8 w1) in
  let w3 := fst (Agent.onStateUpdate 7 w2) in
  let off := snd (Agent.onStateUpdate 7 Agent.newAgentLoop) in
  count_occ Nat.eq_dec (Agent.updateCallbacks (Agent.self (off w3))) 8
  = count_occ Nat.eq_dec (Agent.updateCallbacks (Agent.self w3)) 8.
Proof.
  cbn zeta.
  destruct (proj1 unsubscribe_removes_every_registration 7
              Agent.newAgentLoop
              (fst (Agent.onStateUpdate 7
                      (fst (Agent.onStateUpdate 8
                              (fst (Agent.onStateUpdate 7
                                      Agent.newAgentLoop)))))))
    as (_ & _ & _ & H & _).
  apply H. discriminate.
Defined.

(** * Invariants of the agent loop *)

Module AgentInvariants.
Import Agent AgentProperties.

(** ** The bookkeeping of a run *)

Lemma firstn_S_nth_error {A : Type} (l : list A) (i : nat) (x : A) :
  nth_error l i = Some x -> firstn (S i) l = firstn i l ++ [x].
Proof.
  revert i. induction l as [|a l IH]; intros [|i] E; try discriminate E.
  - cbn in *. congruence.
  - cbn [nth_error] in E.
    change (firstn (S (S i)) (a :: l)) with (a :: firstn (S i) l).
    now rewrite (IH i E).
Qed.

Lemma trail_S (i : nat) :
  trail (S i) = trail i ++ ["execution"; "observation"; "plan-update"].
Proof.
  unfold trail. rewrite seq_S, flat_map_app. cbn [flat_map app Nat.add].
  reflexivity.
Qed.

Lemma working_not_error (s : Status) : working s = true -> isError s = false.
Proof. destruct s; cbn; congruence. Qed.

Lemma working_no_message (s : AgentState) :
  working (status s) = true ->
  (status s = Error <-> error s <> None) ->
  error s = None.
Proof.
  intros Hw [_ H]. destruct (error s) as [m|]; [|reflexivity].
  assert (E : status s = Error) by (apply H; discriminate).
  rewrite E in Hw. discriminate Hw.
Qed.

Ltac open_world w :=
  destruct w as [[[sta ct pl pr cs rs er hi] run cbs] k dl co].

Ltac world_cbn :=
  cbn [spread fold_left assign status currentTask plan progress currentStep
       results error history state self updateState print setAwaiting
       setTaskRunning awaiting taskRunning updateCallbacks isError working
       suspended actions map] in *.

Lemma startTask_keeps (task : string) (w : World) :
  coherent w -> bookkeeping w ->
  coherent (startTask task w) /\ bookkeeping (startTask task w).
Proof.
  intros Hc Hb. unfold startTask.
  destruct (taskRunning (self w)) eqn:Hrun; [split; assumption|].
  unfold coherent, bookkeeping. world_cbn.
  split; [repeat split; try discriminate; intros H; now elim H|].
  exists task. repeat split.
Qed.

Ltac goal_cbn :=
  cbn [spread fold_left assign status currentTask plan progress currentStep
       results error history state self updateState print setAwaiting
       setTaskRunning awaiting taskRunning updateCallbacks isError working
       suspended actions].

Lemma enterStep_keeps (i : nat) (task : string) (w : World) :
  taskRunning (self w) = true ->
  error (state (self w)) = None ->
  tracked task i (state (self w)) ->
  actions (state (self w)) = trail i ->
  i <= List.length (planOf task) ->
  coherent (enterStep i w) /\ bookkeeping (enterStep i w).
Proof.
  intros Hrun Herr (Hct & Hpl & Hrs) Hact Hi. unfold enterStep.
  destruct (nth_error (plan (state (self w))) i) as [st|] eqn:E.
  - unfold executeStep, coherent, bookkeeping, tracked. goal_cbn. split.
    + repeat split; try assumption; try discriminate.
      intros H. now elim H.
    + rewrite Hpl in E. exists task. repeat split; assumption.
  - apply nth_error_None in E. rewrite Hpl in E.
    assert (Ei : i = List.length (planOf task)) by lia.
    unfold completeTask, finish, coherent, bookkeeping, tracked. goal_cbn.
    split.
    + repeat split; try discriminate. intros H. now elim H.
    + exists task. rewrite <- Ei. repeat split; assumption.
Qed.

Lemma settle_keeps (now : Z) (o : Settled) (w : World) :
  coherent w -> bookkeeping w ->
  coherent (settle now o w) /\ bookkeeping (settle now o w).
Proof.
  intros Hc Hb. unfold settle.
  destruct (awaiting w) as [[p|i st|i r|i ob]|] eqn:E; [| | | |now split];
    destruct Hc as (Hrun & Hw & Herr);
    unfold suspended in Hrun, Hw; rewrite E in Hrun, Hw;
    pose proof (working_no_message _ Hw Herr) as Hnone;
    pose proof (working_not_error _ Hw) as Hne;
    unfold bookkeeping in Hb; rewrite E in Hb; cbn zeta in Hb.
  - (* planning *)
    destruct Hb as (task & Hct & -> & Hpl & Hrs & Hhi & Hcs).
    unfold resumePlan. destruct o as [|e].
    + goal_cbn. rewrite Hne.
      apply (enterStep_keeps 0 task); goal_cbn; try assumption.
      * unfold tracked. goal_cbn. now rewrite Hrs.
      * unfold actions. goal_cbn. now rewrite Hhi.
      * lia.
    + unfold recordError, finish, coherent, bookkeeping. goal_cbn. split.
      * repeat split; try discriminate.
      * exists task, 0. repeat split; try assumption. now left.
  - (* execution *)
    destruct Hb as (task & (Hct & Hpl & Hrs) & Hst & Hcs & Hact).
    unfold resumeExecute. destruct o as [|e].
    + goal_cbn. rewrite Hne.
      unfold observeResult, coherent, bookkeeping, tracked. goal_cbn. split.
      * repeat split; try assumption; try discriminate.
        intros H. now elim H.
      * exists task, st. repeat split; try assumption.
        -- rewrite Hrs, (firstn_S_nth_error _ _ _ Hst), map_app. reflexivity.
        -- unfold actions in *. goal_cbn. now rewrite map_app, Hact.
    + unfold catchInStartTask, recordError, finish, coherent, bookkeeping.
      goal_cbn. split.
      * repeat split; try discriminate.
      * exists task, i. repeat split; try assumption.
        -- now right.
        -- now rewrite Hpl.
  - (* observation *)
    destruct Hb as (task & st & (Hct & Hpl & Hrs) & Hst & Hcs & -> & Hact).
    unfold resumeObserve. destruct o as [|e].
    + unfold updatePlan, coherent, bookkeeping, tracked. goal_cbn. split.
      * repeat split; try assumption; try discriminate.
        intros H. now elim H.
      * exists task, st. repeat split; try assumption.
        unfold actions in *. goal_cbn.
        now rewrite map_app, Hact, <- app_assoc.
    + unfold catchInStartTask, recordError, finish, coherent, bookkeeping.
      goal_cbn. split.
      * repeat split; try discriminate.
      * exists task, (S i). repeat split; try assumption.
        -- now right.
        -- now rewrite Hpl.
  - (* plan update *)
    destruct Hb as (task & st & (Hct & Hpl & Hrs) & Hst & Hcs & -> & Hact).
    unfold resumeUpdate. destruct o as [|e].
    + cbn [negb].
      apply (enterStep_keeps (S i) task); goal_cbn; try assumption.
      * unfold tracked. goal_cbn. repeat split; assumption.
      * unfold actions in *. goal_cbn.
        rewrite map_app, Hact, trail_S, <- app_assoc. reflexivity.
      * apply nth_error_Some. congruence.
    + unfold catchInStartTask, recordError, finish, coherent, bookkeeping.
      goal_cbn. split.
      * repeat split; try discriminate.
      * exists task, (S i). repeat split; try assumption.
        -- now right.
        -- now rewrite Hpl.
Qed.

Lemma step_keeps (e : Event) (w : World) :
  coherent w -> bookkeeping w ->
  coherent (step w e) /\ bookkeeping (step w e).
Proof.
  intros Hc Hb. destruct e as [task|cb|cb|now o]; cbn [step].
  - now apply startTask_keeps.
  - split; assumption.
  - split; assumption.
  - now apply settle_keeps.
Qed.

Lemma run_keeps (events : list Event) :
  forall w,
    coherent w -> bookkeeping w ->
    coherent (run events w) /\ bookkeeping (run events w).
Proof.
  induction events as [|e events IH]; intros w Hc Hb; [now split|].
  rewrite run_cons. destruct (step_keeps e w Hc Hb) as [Hc' Hb'].
  now apply IH.
Qed.

Lemma reachable_keeps (w : World) :
  reachable w -> coherent w /\ bookkeeping w.
Proof.
  intros [events ->]. apply run_keeps.
  - unfold coherent. cbn. repeat split; try discriminate.
    intros H. now elim H.
  - reflexivity.
Qed.

Lemma bookkeeping_results (w : World) :
  coherent w -> bookkeeping w ->
  exists k,
    results (state (self w)) = map resultOf (firstn k (plan (state (self w)))).
Proof.
  intros (_ & Hw & _) Hb. unfold bookkeeping, suspended in *.
  destruct (awaiting w) as [[p|i st|i r|i ob]|]; cbn zeta in Hb.
  - destruct Hb as (task & _ & _ & _ & -> & _). now exists 0.
  - destruct Hb as (task & (_ & -> & ->) & _). now exists i.
  - destruct Hb as (task & st & (_ & -> & ->) & _). now exists (S i).
  - destruct Hb as (task & st & (_ & -> & ->) & _). now exists (S i).
  - destruct (status (state (self w))); try discriminate Hw.
    + rewrite Hb. now exists 0.
    + destruct Hb as (task & (_ & -> & ->) & _). eauto.
    + destruct Hb as (task & k & _ & _ & ->). eauto.
Qed.

(** X2. In every reachable world the results mirror the plan: the [j]-th
    result is the record [executeStep] builds for the [j]-th step of the
    plan, so there are never more results than steps. *)
Theorem results_mirror_the_plan (w : World) (j : nat) (r : StepResult) :
  reachable w ->
  nth_error (results (state (self w))) j = Some r ->
  nth_error (plan (state (self w))) j = Some (stepCompleted r)
  /\ r = resultOf (stepCompleted r)
  /\ List.length (results (state (self w)))
     <= List.length (plan (state (self w))).
Proof.
  intros Hr Hj. destruct (reachable_keeps w Hr) as [Hc Hb].
  destruct (bookkeeping_results w Hc Hb) as (k & Hk).
  rewrite Hk in Hj |- *. rewrite nth_error_map in Hj.
  destruct (nth_error (firstn k (plan (state (self w)))) j) as [st|] eqn:E;
    [|discriminate Hj].
  injection Hj as <-. cbn [stepCompleted resultOf].
  split; [|split; [reflexivity|]].
  - rewrite nth_error_firstn in E.
    destruct (Nat.ltb j k); [exact E|discriminate E].
  - rewrite length_map, length_firstn. lia.
Qed.

(** The results of the first two steps, while the third is executing. *)
Lemma results_mirror_witness :
  let w := run (quietRun "Buy groceries" (repeat 1000%Z 7)) newAgentLoop in
  let r := resultOf (nth 1 (planOf "Buy groceries") "") in
  nth_error (results (state (self w))) 1 = Some r
  /\ nth_error (plan (state (self w))) 1 = Some (stepCompleted r).
Proof.
  intros w r. split; [reflexivity|].
  apply (results_mirror_the_plan w 1 r).
  - now exists (quietRun "Buy groceries" (repeat 1000%Z 7)).
  - reflexivity.
Defined.

(** X3. Whenever the status is [Completed], in any reachable world, the
    state is the full record of the task: the plan is the one written for
    the current task, there is one result per step, in plan order, the
    history has its [1 + 3 N] entries, progress is 100, no step is current,
    no error is recorded and the guard is released. *)
Theorem completed_state_is_the_full_record (w : World) :
  reachable w ->
  status (state (self w)) = Completed ->
  exists task,
    currentTask (state (self w)) = Some task
    /\ plan (state (self w)) = planOf task
    /\ results (state (self w)) = map resultOf (planOf task)
    /\ actions (state (self w)) = trail (List.length (planOf task))
    /\ progress (state (self w)) = 100%Z
    /\ currentStep (state (self w)) = None
    /\ error (state (self w)) = None
    /\ taskRunning (self w) = false
    /\ awaiting w = None.
Proof.
  intros Hr Hs. destruct (reachable_keeps w Hr) as [(H1 & H2 & H3) Hb].
  unfold suspended, bookkeeping in *. rewrite Hs in *.
  destruct (awaiting w) as [k|]; [discriminate H2|].
  destruct Hb as (task & (Hct & Hpl & Hrs) & Hcs & Hpr & Hact).
  exists task. rewrite firstn_all in Hrs. repeat split; try assumption.
  destruct (error (state (self w))) as [m|]; [|reflexivity].
  assert (F : Completed = Error) by (apply H3; discriminate). discriminate F.
Qed.

(** A task that is submitted after another one has failed. *)
Lemma completed_state_witness :
  let w := run ([CallStartTask "Buy groceries";
                 Settle 0%Z (Threw (ThrownError "offline"))]
                ++ quietRun "Cook dinner" (repeat 1000%Z 13))
             newAgentLoop in
  exists task,
    currentTask (state (self w)) = Some task
    /\ results (state (self w)) = map resultOf (planOf task).
Proof.
  intros w.
  destruct (completed_state_is_the_full_record w) as (task & H1 & _ & H2 & _).
  - now exists ([CallStartTask "Buy groceries";
                 Settle 0%Z (Threw (ThrownError "offline"))]
                ++ quietRun "Cook dinner" (repeat 1000%Z 13)).
  - reflexivity.
  - exists task. split; assumption.
Defined.

End AgentInvariants.

(** * The records of a run *)

Module AgentHistory.
Import Agent AgentProperties AgentInvariants.

(** ** Append-only records *)

Lemma enterStep_records (i : nat) (w : World) :
  history (state (self (enterStep i w))) = history (state (self w))
  /\ results (state (self (enterStep i w))) = results (state (self w)).
Proof.
  unfold enterStep, executeStep, completeTask, finish.
  destruct (nth_error _ i); split; reflexivity.
Qed.

Ltac no_record :=
  exists [], []; rewrite !app_nil_r;
  unfold catchInStartTask, recordError, finish; goal_cbn;
  repeat split; cbn; lia.

Ltac one_record r :=
  eexists [_], r; rewrite ?app_nil_r;
  unfold finish, observeResult, updatePlan; goal_cbn;
  repeat split; cbn; lia.

Lemma settle_appends (now : Z) (o : Settled) (w : World) :
  exists h r,
    history (state (self (settle now o w))) = history (state (self w)) ++ h
    /\ results (state (self (settle now o w))) = results (state (self w)) ++ r
    /\ List.length r <= List.length h <= 1.
Proof.
  unfold settle.
  destruct (awaiting w) as [[p|i st|i r|i ob]|]; [| | | |no_record].
  - unfold resumePlan. destruct o as [|e]; goal_cbn; [|no_record].
    destruct (isError _); [one_record (@nil StepResult)|].
    destruct (enterStep_records 0
                (updateState
                   [SetPlan p; SetProgress 10%Z;
                    SetHistory
                      (history (state (self w))
                       ++ [{| action := "planning"; result := PlanValue p;
                              timestamp := now |}])] w)) as [-> ->].
    one_record (@nil StepResult).
  - unfold resumeExecute. destruct o as [|e]; goal_cbn; [|no_record].
    destruct (isError _); one_record [resultOf st].
  - unfold resumeObserve. destruct o as [|e]; [|no_record].
    one_record (@nil StepResult).
  - unfold resumeUpdate. destruct o as [|e]; cbn [negb]; [|no_record].
    match goal with
    | |- context [enterStep ?j ?x] =>
        destruct (enterStep_records j x) as [-> ->]
    end.
    one_record (@nil StepResult).
Qed.

Lemma step_appends (e : Event) (w : World) :
  notStartTask e = true ->
  exists h r,
    history (state (self (step w e))) = history (state (self w)) ++ h
    /\ results (state (self (step w e))) = results (state (self w)) ++ r.
Proof.
  intros He. destruct e as [task|cb|cb|now o]; try discriminate He.
  - exists [], []. now rewrite !app_nil_r.
  - exists [], []. now rewrite !app_nil_r.
  - destruct (settle_appends now o w) as (h & r & H1 & H2 & _). eauto.
Qed.

(** X5. As long as no new task is started, the history and the results are
    append-only: whatever happens (phases that are fulfilled or fail,
    callbacks that come and go), what was recorded stays, in its place, and
    new entries go behind it. *)
Theorem records_are_append_only (events : list Event) (w : World) :
  forallb notStartTask events = true ->
  exists h r,
    history (state (self (run events w))) = history (state (self w)) ++ h
    /\ results (state (self (run events w))) = results (state (self w)) ++ r.
Proof.
  revert w. induction events as [|e events IH]; intros w Hev.
  - exists [], []. now rewrite !app_nil_r.
  - cbn [forallb] in Hev. apply andb_prop in Hev as [He Hev].
    destruct (step_appends e w He) as (h1 & r1 & H1 & R1).
    destruct (IH (step w e) Hev) as (h2 & r2 & H2 & R2).
    exists (h1 ++ h2), (r1 ++ r2). rewrite run_cons, H2, R2, H1, R1.
    now rewrite !app_assoc.
Qed.

(** The two results of a run survive the failure of its third step. *)
Lemma records_witness :
  let w := run (quietRun "Buy groceries" (repeat 1000%Z 7)) newAgentLoop in
  let events := [CallOnStateUpdate 3;
                 Settle 0%Z (Threw (ThrownError "offline"));
                 Settle 1%Z Fulfilled] in
  exists h r,
    history (state (self (run events w))) = history (state (self w)) ++ h
    /\ results (state (self (run events w))) = results (state (self w)) ++ r.
Proof.
  intros w events. apply (records_are_append_only events w). reflexivity.
Defined.

(** ** A failure is final *)

Lemma settled_world_stays (l : list (Z * Settled)) (w : World) :
  awaiting w = None -> run (settleAll l) w = w.
Proof.
  intros E. induction l as [|[now o] l IH]; [reflexivity|].
  cbn [settleAll map fst snd]. rewrite run_cons. cbn [step].
  unfold settle at 1. rewrite E. exact IH.
Qed.

(** X6. A phase that fails changes the status and the error message and
    nothing else of the state (the work recorded so far, the plan and the
    progress stay), and the run is over for good: however often the event
    loop comes back, no further step runs and nothing more is delivered. *)
Theorem failure_is_final
    (k : Await) (now : Z) (e : Thrown) (l : list (Z * Settled)) (w : World) :
  awaiting w = Some k ->
  let w' := settle now (Threw e) w in
  (forall f, f <> FStatus -> f <> FError ->
             sameAt f (state (self w')) (state (self w)))
  /\ run (settleAll l) w' = w'.
Proof.
  intros E w'.
  destruct (settle_threw_object k now e w E) as [Hs Ha]. fold w' in Hs, Ha.
  split.
  - intros f H1 H2. rewrite Hs. cbn [state]. apply spread_frame.
    cbn. intros [H|[H|[]]]; congruence.
  - now apply settled_world_stays.
Qed.

(** The second step fails while it is observed; three more resumptions. *)
Lemma failure_is_final_witness :
  let w := run (quietRun "Buy groceries" (repeat 1000%Z 5)) newAgentLoop in
  let w' := settle 0%Z (Threw (ThrownError "blind")) w in
  List.length (results (state (self w'))) = 2
  /\ run (settleAll (repeat (1%Z, Fulfilled) 3)) w' = w'.
Proof.
  intros w w'.
  destruct (failure_is_final
              (AwaitObserve 1 (resultOf (nth 1 (planOf "Buy groceries") "")))
              0%Z (ThrownError "blind") (repeat (1%Z, Fulfilled) 3) w
              eq_refl) as [_ H].
  split; [reflexivity|exact H].
Defined.

End AgentHistory.

(** * What the callbacks of the agent loop are told *)

Module AgentBroadcast.
Import Agent AgentProperties AgentInvariants.

(** ** What the callbacks are told *)

Lemma last_app_default {A : Type} (l1 l2 : list A) (d : A) :
  last (l1 ++ l2) d = last l2 (last l1 d).
Proof.
  revert d. induction l1 as [|a l1 IH]; intros d; [reflexivity|].
  cbn [app]. rewrite !last_cons_default. apply IH.
Qed.

Lemma emits_trans (w w1 w2 : World) (ss1 ss2 : list AgentState) :
  emits w w1 ss1 -> emits w1 w2 ss2 -> emits w w2 (ss1 ++ ss2).
Proof.
  intros (C1 & S1 & H1) (C2 & S2 & H2). repeat split.
  - congruence.
  - now rewrite last_app_default, <- S1.
  - intros cb. now rewrite H2, H1, C1, flat_map_app, app_assoc.
Qed.

Lemma run_emits (events : list Event) :
  forall w,
    progressInvariant w ->
    forallb taskEvent events = true ->
    exists ss, emits w (run events w) ss.
Proof.
  induction events as [|e events IH]; intros w Hinv Hev.
  - exists []. apply emits_here.
  - cbn [forallb] in Hev. apply andb_prop in Hev as [He Hev].
    destruct (step_progress e w He Hinv) as (ss1 & H1 & _ & _ & Hinv1).
    destruct (IH (step w e) Hinv1 Hev) as (ss2 & H2).
    exists (ss1 ++ ss2). rewrite run_cons. now apply emits_trans with (step w e).
Qed.




End AgentBroadcast.

(** * Invariants of the connection manager *)

Module WsInvariants.
Import Ws WsProperties.

(** ** What every world of the manager satisfies *)

Lemma length_setReadyStateIn (l : list WebSocket) (r : nat) (s : ReadyState) :
  List.length (setReadyStateIn l r s) = List.length l.
Proof.
  revert r. induction l as [|x l IH]; intros [|r]; cbn; try reflexivity.
  now rewrite IH.
Qed.

Lemma url_setReadyStateIn (u : string) (l : list WebSocket) (r : nat)
    (s : ReadyState) :
  Forall (fun x => url x = u) l ->
  Forall (fun x => url x = u) (setReadyStateIn l r s).
Proof.
  intros H. revert r. induction H as [|x l Hx Hl IH]; intros [|r]; cbn;
    constructor; auto.
Qed.

Lemma length_dropNth {A : Type} (k : nat) (l : list A) :
  List.length (dropNth k l) <= List.length l.
Proof.
  revert k. induction l as [|x l IH]; intros [|k]; cbn; try lia.
  specialize (IH k). lia.
Qed.

Ltac ws_cbn :=
  cbn [self sockets timers scheduled stateSeen messageSeen locationProtocol
       locationHost socket messageListeners stateChangeListeners
       reconnectAttempts sessionId state isConnected error
       setSelf setSocket setMessageListeners setStateChangeListeners
       setReconnectAttempts setState setSockets setTimers setTimeout
       tellState tellMessage setReadyState updateState spread fold_left
       assign] in *.

Lemma connect_wellFormed (id p h : string) (c : Settled) (w : World) :
  wellFormed id p h w -> wellFormed id p h (connect c w).
Proof.
  intros Hw. unfold connect.
  destruct (connectedOrConnecting w); [exact Hw|].
  destruct Hw as (H1 & H2 & H3 & H4 & H5 & H6 & H7 & H8).
  destruct c as [|e]; unfold wellFormed; ws_cbn; repeat split;
    try assumption; try discriminate.
  - intros r [= <-]. rewrite length_app. cbn. lia.
  - apply Forall_app. split; [exact H6|]. constructor; [|constructor].
    unfold endpoint. ws_cbn. now rewrite H2, H3, H4.
Qed.

Lemma handleClose_wellFormed (id p h : string) (code : nat) (reason : string)
    (w : World) :
  wellFormed id p h w -> wellFormed id p h (handleClose code reason w).
Proof.
  intros (H1 & H2 & H3 & H4 & H5 & H6 & H7 & H8). unfold handleClose.
  ws_cbn.
  destruct (negb (Nat.eqb code 1000)
            && Nat.ltb (reconnectAttempts (self w)) maxReconnectAttempts)
    eqn:E; unfold wellFormed; ws_cbn; repeat split; try assumption;
    try discriminate.
  - apply andb_prop in E as [_ E]. apply Nat.ltb_lt in E. lia.
  - rewrite !length_app. cbn. lia.
Qed.

Lemma setReadyState_wellFormed (id p h : string) (r : nat) (s : ReadyState)
    (w : World) :
  wellFormed id p h w -> wellFormed id p h (setReadyState r s w).
Proof.
  intros (H1 & H2 & H3 & H4 & H5 & H6 & H7 & H8).
  unfold wellFormed. ws_cbn. repeat split; try assumption.
  - intros x Hx. rewrite length_setReadyStateIn. now apply H5.
  - now apply url_setReadyStateIn.
Qed.

Lemma close_wellFormed (id p h : string) (r : nat) (w : World) :
  wellFormed id p h w -> wellFormed id p h (close r w).
Proof.
  intros Hw. unfold close.
  destruct (nth_error (sockets w) r) as [[u [| | |]]|]; try exact Hw;
    now apply setReadyState_wellFormed.
Qed.

Lemma step_wellFormed (id p h : string) (e : Event) (w : World) :
  wellFormed id p h w -> wellFormed id p h (step w e).
Proof.
  intros Hw. destruct e; cbn [step].
  - now apply connect_wellFormed.
  - unfold disconnect. destruct (socket (self w)) as [r|] eqn:E; [|exact Hw].
    destruct (close_wellFormed id p h r w Hw)
      as (H1 & H2 & H3 & H4 & H5 & H6 & H7 & H8).
    unfold wellFormed. ws_cbn.
    repeat split; try assumption; try discriminate; lia.
  - exact Hw.
  - exact Hw.
  - exact Hw.
  - exact Hw.
  - destruct (setReadyState_wellFormed id p h r OPEN w Hw)
      as (H1 & H2 & H3 & H4 & H5 & H6 & H7 & H8).
    unfold handleOpen, wellFormed. ws_cbn.
    repeat split; try assumption; lia.
  - destruct parsed; exact Hw.
  - now apply handleClose_wellFormed, setReadyState_wellFormed.
  - destruct Hw as (H1 & H2 & H3 & H4 & H5 & H6 & H7 & H8).
    unfold handleError, wellFormed. ws_cbn.
    repeat split; try assumption; try discriminate.
  - destruct (nth_error (timers w) k); [|exact Hw].
    apply connect_wellFormed.
    destruct Hw as (H1 & H2 & H3 & H4 & H5 & H6 & H7 & H8).
    unfold wellFormed. ws_cbn. repeat split; try assumption.
    pose proof (length_dropNth k (timers w)). lia.
Qed.

Lemma reachable_wellFormed (id p h : string) (w : World) :
  reachable id p h w -> wellFormed id p h w.
Proof.
  intros [events ->].
  assert (H0 : wellFormed id p h (newWorld id p h)).
  { unfold wellFormed, maxReconnectAttempts. cbn.
    repeat split; try lia; try discriminate. constructor. }
  revert H0. generalize (newWorld id p h).
  induction events as [|e events IH]; intros w Hw; [exact Hw|].
  rewrite ws_run_cons. apply IH. now apply step_wellFormed.
Qed.

(** X9. Whatever happens to a manager, its reconnect-attempt counter never
    exceeds the cap of 5, it never reports an error while it reports that it
    is connected, and no more timers are pending than were scheduled. *)
Theorem retries_are_bounded (id p h : string) (w : World) :
  reachable id p h w ->
  reconnectAttempts (self w) <= 5
  /\ (isConnected (state (self w)) = true -> error (state (self w)) = None)
  /\ List.length (timers w) <= List.length (scheduled w).
Proof.
  intros Hr.
  destruct (reachable_wellFormed id p h w Hr)
    as (H1 & _ & _ & _ & _ & _ & H7 & H8).
  repeat split; assumption.
Qed.

(** Eight failed connections: the counter stops at the cap. *)
Lemma retries_witness :
  let fails r := [OnError r; OnClose r 1006 ""; TimerFires 0 Fulfilled] in
  let w := run (CallConnect Fulfilled :: flat_map fails (seq 0 8))
             (newWorld "session" "http:" "localhost:3000") in
  reconnectAttempts (self w) = 5
  /\ reconnectAttempts (self w) <= 5.
Proof.
  intros fails w. split; [reflexivity|].
  apply (retries_are_bounded "session" "http:" "localhost:3000" w).
  now exists (CallConnect Fulfilled :: flat_map fails (seq 0 8)).
Defined.

(** X10. A manager only ever connects to the endpoint of the session it was
    constructed for: its [sessionId] never changes, every socket it has
    constructed, through [connect()] or through a reconnect timer, has the
    URL built from the page location and that session identifier, and the
    socket it holds is one of them. *)
Theorem sockets_belong_to_the_session (id p h : string) (w : World) :
  reachable id p h w ->
  sessionId (self w) = id
  /\ Forall
       (fun x =>
          url x
          = (if String.eqb p "https:" then "wss:" else "ws:")
            ++ "//" ++ h ++ "/api/ws?sessionId=" ++ id)%string
       (sockets w)
  /\ (forall r, socket (self w) = Some r ->
                exists x, nth_error (sockets w) r = Some x).
Proof.
  intros Hr.
  destruct (reachable_wellFormed id p h w Hr)
    as (_ & H2 & _ & _ & H5 & H6 & _ & _).
  split; [exact H2|]. split; [exact H6|].
  intros r E. apply H5 in E. apply nth_error_Some in E.
  destruct (nth_error (sockets w) r) as [x|]; [now exists x|congruence].
Qed.

(** A connection that is lost and re-established by the timer, on a page
    served over https. *)
Lemma sockets_witness :
  let w := run [CallConnect Fulfilled; OnOpen 0; OnClose 0 1006 "";
                TimerFires 0 Fulfilled]
             (newWorld "s1" "https:" "example.org") in
  map url (sockets w)
  = [ "wss://example.org/api/ws?sessionId=s1";
      "wss://example.org/api/ws?sessionId=s1" ]
  /\ sessionId (self w) = "s1".
Proof.
  intros w. split; [reflexivity|].
  apply (sockets_belong_to_the_session "s1" "https:" "example.org" w).
  now exists [CallConnect Fulfilled; OnOpen 0; OnClose 0 1006 "";
              TimerFires 0 Fulfilled].
Defined.

(** ** Connecting and disconnecting *)

Lemma connect_connects (w : World) :
  connectedOrConnecting (connect Fulfilled w) = true.
Proof.
  unfold connect. destruct (connectedOrConnecting w) eqn:E; [exact E|].
  unfold connectedOrConnecting. ws_cbn.
  rewrite nth_error_app2, Nat.sub_diag by lia. reflexivity.
Qed.

(** X11. [connect()] is idempotent: once a connection is open or being
    opened, calling [connect()] again, or the firing of a reconnect timer
    that is still pending, constructs no second socket and changes nothing
    of the manager. *)
Theorem connect_is_idempotent (c : Settled) (k : nat) (w : World) :
  let w1 := connect Fulfilled w in
  connect c w1 = w1
  /\ self (step w1 (TimerFires k c)) = self w1
  /\ sockets (step w1 (TimerFires k c)) = sockets w1
  /\ List.length (sockets w1) <= S (List.length (sockets w)).
Proof.
  intros w1. pose proof (connect_connects w) as H. fold w1 in H.
  split; [unfold connect at 1; now rewrite H|]. split; [|split].
  - cbn [step]. destruct (nth_error (timers w1) k); [|reflexivity].
    unfold connect at 1.
    change (connectedOrConnecting (setTimers (dropNth k (timers w1)) w1))
      with (connectedOrConnecting w1).
    now rewrite H.
  - cbn [step]. destruct (nth_error (timers w1) k); [|reflexivity].
    unfold connect at 1.
    change (connectedOrConnecting (setTimers (dropNth k (timers w1)) w1))
      with (connectedOrConnecting w1).
    now rewrite H.
  - subst w1. unfold connect. destruct (connectedOrConnecting w); [lia|].
    ws_cbn. rewrite length_app. cbn. lia.
Qed.

(** X12. [disconnect()] is idempotent and leaves a manager that holds no
    socket: a message sent afterwards is dropped, and a later [connect()]
    constructs a fresh socket. *)
Theorem disconnect_is_idempotent (t d : string) (a : Settled) (w : World) :
  let w1 := disconnect w in
  disconnect w1 = w1
  /\ socket (self w1) = None
  /\ sendMessage t d a w1 = (false, None)
  /\ socket (self (connect Fulfilled w1)) = Some (List.length (sockets w1)).
Proof.
  intros w1.
  assert (E : socket (self w1) = None).
  { subst w1. unfold disconnect.
    destruct (socket (self w)) eqn:E; [reflexivity|exact E]. }
  split; [unfold disconnect at 1; now rewrite E|]. split; [exact E|].
  split; [unfold sendMessage; now rewrite E|].
  unfold connect, connectedOrConnecting. rewrite E. reflexivity.
Qed.

(** ** Sending *)

(** X13. [sendMessage] writes a frame exactly while the socket the manager
    holds is open: it returns [false] and writes nothing while the
    connection is still being opened and after the close event of the held
    socket, and after the open event of the held socket it returns [true]
    and writes the given type and data to that socket.  When
    [JSON.stringify] or [send] throws it returns [false]. *)
Theorem sendMessage_needs_an_open_socket
    (t d : string) (r : nat) (x : WebSocket) (w : World) :
  socket (self w) = Some r ->
  nth_error (sockets w) r = Some x ->
  sendMessage t d Fulfilled (step w (OnOpen r))
  = (true, Some (r, {| type := t; data := d |}))
  /\ (forall code reason a,
        sendMessage t d a (step w (OnClose r code reason)) = (false, None))
  /\ (forall e v, sendMessage t d (Threw e) v = (false, None))
  /\ (forall a v,
        connectedOrConnecting v = false ->
        sendMessage t d a (connect Fulfilled v) = (false, None)).
Proof.
  intros E Hx. split; [|split; [|split]].
  - cbn [step]. unfold handleOpen, sendMessage. ws_cbn. rewrite E.
    now rewrite (nth_error_setReadyStateIn _ _ _ OPEN Hx).
  - intros code reason a. cbn [step]. unfold sendMessage.
    assert (Hs : socket (self (handleClose code reason
                                 (setReadyState r CLOSED w))) = Some r).
    { unfold handleClose. ws_cbn. destruct (_ && _); ws_cbn; exact E. }
    assert (Hk : sockets (handleClose code reason (setReadyState r CLOSED w))
                 = setReadyStateIn (sockets w) r CLOSED).
    { unfold handleClose. ws_cbn. destruct (_ && _); reflexivity. }
    rewrite Hs, Hk, (nth_error_setReadyStateIn _ _ _ CLOSED Hx). reflexivity.
  - intros e v. unfold sendMessage.
    destruct (socket (self v)) as [r'|]; [|reflexivity].
    destruct (nth_error (sockets v) r') as [[u [| | |]]|]; reflexivity.
  - intros a v Hv. unfold connect. rewrite Hv. unfold sendMessage. ws_cbn.
    rewrite nth_error_app2, Nat.sub_diag by lia. reflexivity.
Qed.

(** A message sent before and after the open event of a new connection. *)
Lemma sendMessage_witness :
  let w := connect Fulfilled (newWorld "session" "http:" "localhost:3000") in
  sendMessage "start-task" "Buy groceries" Fulfilled w = (false, None)
  /\ sendMessage "start-task" "Buy groceries" Fulfilled (step w (OnOpen 0))
     = (true,
        Some (0, {| type := "start-task"; data := "Buy groceries" |})).
Proof.
  intros w. split; [reflexivity|].
  exact (proj1 (sendMessage_needs_an_open_socket "start-task" "Buy groceries"
                  0 _ w eq_refl eq_refl)).
Defined.

End WsInvariants.

(** * The listeners of the connection manager *)

Module WsListeners.
Import Ws WsProperties WsInvariants.

(** ** Inbound messages *)



(** ** Connection-state listeners *)







End WsListeners.

(** * Properties of the agent endpoint *)

Module ApiProperties.
Import Api.

(** ** The dictionary *)

Lemma own_store_same (key : string) (a : Agent.World) (d : Instances) :
  own key (store key a d) = Some a.
Proof.
  induction d as [|[k x] d IH]; cbn [store own].
  - now rewrite String.eqb_refl.
  - destruct (String.eqb key k) eqn:E; cbn [own]; now rewrite E.
Qed.

Lemma own_store_other (key id : string) (a : Agent.World) (d : Instances) :
  String.eqb key id = false ->
  own id (store key a d) = own id d.
Proof.
  intros Hne. induction d as [|[k x] d IH]; cbn [store own].
  - now rewrite String.eqb_sym, Hne.
  - destruct (String.eqb key k) eqn:E; cbn [own]; [|now rewrite IH].
    apply String.eqb_eq in E. subst k.
    now rewrite String.eqb_sym, Hne.
Qed.

Lemma truthy_nonempty (v : option string) (s : string) :
  truthy v = Some s -> v = Some s /\ s <> "".
Proof.
  destruct v as [x|]; cbn; [|discriminate].
  destruct (String.eqb x "") eqn:E; [discriminate|].
  intros [= ->]. apply String.eqb_neq in E. now split.
Qed.

Lemma run_snoc (events : list Event) (e : Event) (d : Instances) :
  run (events ++ [e]) d = step (run events d) e.
Proof. unfold run. now rewrite fold_left_app. Qed.

(** ** One session is one agent loop *)

Lemma submits_agentEvent (id : string) (e : Event) :
  submits id e = false ->
  Forall (fun a => Agent.taskEvent a = true
                   /\ forall t, a <> Agent.CallStartTask t)
    (agentEvent id e).
Proof.
  destruct e as [[r|]|i|key now o]; cbn [submits agentEvent];
    try (intros _; constructor).
  - destruct (truthy (sessionId r)), (truthy (task r));
      try (intros _; constructor).
    intros ->. constructor.
  - destruct (String.eqb key id); constructor; [|constructor].
    split; [reflexivity|discriminate].
Qed.

Lemma settles_keep_idle (l : list Agent.Event) :
  Forall (fun a => Agent.taskEvent a = true
                   /\ forall t, a <> Agent.CallStartTask t) l ->
  Agent.run l Agent.newAgentLoop = Agent.newAgentLoop.
Proof.
  induction l as [|a l IH]; intros H; [reflexivity|].
  inversion H as [|? ? [Ha Hn] Hl]; subst.
  rewrite AgentProperties.run_cons.
  destruct a as [t|c|c|now o]; try discriminate Ha.
  - now elim (Hn t).
  - cbn [Agent.step]. now apply IH.
Qed.

Lemma not_submitted_events (id : string) (events : list Event) :
  existsb (submits id) events = false ->
  Forall (fun a => Agent.taskEvent a = true
                   /\ forall t, a <> Agent.CallStartTask t)
    (agentEvents id events).
Proof.
  intros H. unfold agentEvents.
  induction events as [|e events IH]; cbn [flat_map]; [constructor|].
  cbn [existsb] in H. apply orb_false_elim in H as [He H].
  apply Forall_app. split; [now apply submits_agentEvent|now apply IH].
Qed.

Lemma never_submitted (id : string) (events : list Event) :
  existsb (submits id) events = false ->
  Agent.run (agentEvents id events) Agent.newAgentLoop = Agent.newAgentLoop.
Proof.
  intros H. apply settles_keep_idle. now apply not_submitted_events.
Qed.

Lemma agentEvents_are_task_events (id : string) (events : list Event) :
  forallb Agent.taskEvent (agentEvents id events) = true.
Proof.
  unfold agentEvents. induction events as [|e events IH]; [reflexivity|].
  cbn [flat_map]. rewrite forallb_app, IH, andb_true_r.
  destruct e as [[r|]|i|key now o]; cbn [agentEvent]; try reflexivity.
  - destruct (truthy (sessionId r)) as [key|]; [|reflexivity].
    destruct (truthy (task r)); [|reflexivity].
    now destruct (String.eqb key id).
  - now destruct (String.eqb key id).
Qed.

Lemma agent_run_snoc (l : list Agent.Event) (a : Agent.Event)
    (w : Agent.World) :
  Agent.run (l ++ [a]) w = Agent.step (Agent.run l w) a.
Proof. unfold Agent.run. now rewrite fold_left_app. Qed.

(** The agent stored for session [id] is the agent loop that was asked what
    the events ask of that session, and nothing else; a session nobody
    submitted a task for, or one named like a property of
    [Object.prototype], has none. *)
Lemma session_agent (id : string) (events : list Event) :
  own id (run events [])
  = if negb (inherited id) && existsb (submits id) events
    then Some (Agent.run (agentEvents id events) Agent.newAgentLoop)
    else None.
Proof.
  induction events as [|e events IH] using rev_ind.
  - cbn. now rewrite andb_false_r.
  - rewrite run_snoc, existsb_app. unfold agentEvents in *.
    rewrite flat_map_app. cbn [flat_map existsb]. rewrite app_nil_r.
    rewrite orb_false_r. set (d := run events []) in *.
    destruct e as [[r|]|i|key now o]; cbn [step POST snd submits agentEvent].
    + destruct (truthy (sessionId r)) as [key|] eqn:Ek;
        [|cbn [snd]; now rewrite IH, app_nil_r, orb_false_r].
      destruct (truthy (task r)) as [t|] eqn:Et;
        [|cbn [snd]; now rewrite IH, app_nil_r, orb_false_r].
      destruct (String.eqb key id) eqn:E.
      * apply String.eqb_eq in E. subst key. unfold property.
        rewrite orb_true_r, andb_true_r.
        destruct (own id d) as [a|] eqn:Eo.
        -- cbn [snd]. rewrite own_store_same, agent_run_snoc.
           destruct (inherited id); [discriminate|]. cbn [negb andb] in *.
           destruct (existsb (submits id) events); [|discriminate].
           injection IH as ->. reflexivity.
        -- destruct (inherited id) eqn:Ei; cbn [snd negb].
           ++ exact Eo.
           ++ rewrite own_store_same, agent_run_snoc. cbn [negb andb] in IH.
              destruct (existsb (submits id) events) eqn:Es; [discriminate|].
              fold (agentEvents id events).
              now rewrite (never_submitted id events Es).
      * rewrite app_nil_r, orb_false_r, <- IH. unfold property.
        destruct (own key d); [cbn [snd]; now apply own_store_other|].
        destruct (inherited key); cbn [snd]; [reflexivity|].
        now apply own_store_other.
    + now rewrite IH, app_nil_r, orb_false_r.
    + now rewrite IH, app_nil_r, orb_false_r.
    + rewrite orb_false_r. destruct (String.eqb key id) eqn:E.
      * apply String.eqb_eq in E. subst key.
        destruct (own id d) as [a|] eqn:Eo.
        -- rewrite own_store_same, agent_run_snoc.
           destruct (negb (inherited id) && existsb (submits id) events);
             [|discriminate].
           injection IH as ->. reflexivity.
        -- rewrite Eo.
           destruct (negb (inherited id) && existsb (submits id) events);
             [discriminate|reflexivity].
      * rewrite app_nil_r, <- IH.
        destruct (own key d); [now apply own_store_other|reflexivity].
Qed.

(** ** The agents of the dictionary *)

Lemma stored_agent (d : Instances) (id : string) (a : Agent.World) :
  reachable d -> own id d = Some a ->
  exists events,
    a = Agent.run (agentEvents id events) Agent.newAgentLoop
    /\ inherited id = false.
Proof.
  intros [events ->] H. rewrite session_agent in H.
  destruct (inherited id); [discriminate|]. cbn [negb andb] in H.
  destruct (existsb (submits id) events); [|discriminate].
  injection H as <-. now exists events.
Qed.

Lemma seen_nothing (w : Agent.World) :
  (forall callback, Agent.seen callback w = []) -> Agent.delivered w = [].
Proof.
  intros H. destruct (Agent.delivered w) as [|[c s] l] eqn:E; [reflexivity|].
  specialize (H c). unfold Agent.seen in H. rewrite E in H.
  cbn [filter fst] in H. rewrite Nat.eqb_refl in H. discriminate H.
Qed.

(** X18. The agents of the dictionary are agent loops in a state a run of
    [startTask] calls and resumptions leads to, and the server never
    subscribes to one: no state is ever handed to a callback, the state of a
    session is only what [GET] reads. *)
Theorem stored_agents_have_no_subscribers
    (d : Instances) (id : string) (a : Agent.World) :
  reachable d -> own id d = Some a ->
  Agent.reachable a
  /\ Agent.updateCallbacks (Agent.self a) = []
  /\ Agent.delivered a = [].
Proof.
  intros Hd Ho. destruct (stored_agent d id a Hd Ho) as (events & -> & _).
  split; [now eexists|].
  destruct (AgentBroadcast.run_emits (agentEvents id events)
              Agent.newAgentLoop) as (ss & Hc & _ & Hseen).
  - apply AgentProperties.reachable_invariant. now exists [].
  - apply agentEvents_are_task_events.
  - split; [exact Hc|]. apply seen_nothing. intros cb. rewrite Hseen.
    cbn [Agent.updateCallbacks Agent.self Agent.newAgentLoop count_occ].
    clear. induction ss as [|s ss IH]; [reflexivity|exact IH].
Qed.

(** The agent of a session whose second phase has failed. *)
Lemma stored_agents_witness :
  let ask id t := Post (Some {| sessionId := Some id; task := Some t |}) in
  let d := run [ask "a" "one"; Resume "a" 5%Z Fulfilled;
                Resume "a" 6%Z (Threw (ThrownError "disk full"))] [] in
  exists a,
    own "a" d = Some a
    /\ Agent.reachable a
    /\ Agent.updateCallbacks (Agent.self a) = []
    /\ Agent.delivered a = [].
Proof.
  intros ask d. eexists. split; [vm_compute; reflexivity|].
  apply (stored_agents_have_no_subscribers d "a").
  - now eexists.
  - vm_compute. reflexivity.
Defined.

(** ** Submissions *)

(** X19. A submission for a session whose agent is at work is answered like
    any other, with 200 and [Task started], but the agent does not take the
    task: the state [GET] reads is what it was before the submission. *)
Theorem busy_session_drops_the_task
    (d : Instances) (r : TaskRequest) (id t : string) (s : Agent.AgentState) :
  reachable d ->
  truthy (sessionId r) = Some id ->
  truthy (task r) = Some t ->
  GET (Some id) d = {| httpStatus := 200; body := StateBody s |} ->
  Agent.working (Agent.status s) = true ->
  fst (POST (Some r) d) = started id
  /\ GET (Some id) (snd (POST (Some r) d)) = GET (Some id) d.
Proof.
  intros Hd Hid Ht Hget Hwork.
  destruct (truthy_nonempty _ _ Hid) as [_ Hne].
  apply String.eqb_neq in Hne.
  unfold GET, truthy in Hget |- *. rewrite Hne in Hget |- *.
  unfold POST. rewrite Hid, Ht. unfold property in *.
  destruct (own id d) as [a|] eqn:Eo;
    [|destruct (inherited id); discriminate Hget].
  injection Hget as <-. cbn [fst snd]. split; [reflexivity|].
  rewrite own_store_same.
  destruct (stored_agent d id a Hd Eo) as (events & Ha & _).
  destruct (AgentInvariants.reachable_keeps a) as [(Hg & Hs & _) _];
    [eexists; exact Ha|].
  unfold Agent.getState in *. rewrite Hwork in Hs. rewrite <- Hs in Hg.
  unfold Agent.startTask. rewrite Hg. reflexivity.
Qed.

(** A second task submitted while the first is being planned. *)
Lemma busy_session_witness :
  let ask t := {| sessionId := Some "a"; task := Some t |} in
  let d := run [Post (Some (ask "one"))] [] in
  fst (POST (Some (ask "two")) d) = started "a"
  /\ GET (Some "a") (snd (POST (Some (ask "two")) d)) = GET (Some "a") d.
Proof.
  intros ask d.
  apply (busy_session_drops_the_task d (ask "two") "a" "two"
           (Agent.acceptedState "one")).
  - now eexists.
  - reflexivity.
  - reflexivity.
  - vm_compute. reflexivity.
  - reflexivity.
Defined.

(** X20. A request [POST] rejects changes nothing, and a name every object
    inherits is always rejected: the answer to a submission for it is 500,
    whatever was received before, and so is the answer of [GET]. *)
Theorem prototype_names_are_no_sessions
    (d : Instances) (r : TaskRequest) (id t : string) :
  reachable d ->
  truthy (sessionId r) = Some id ->
  truthy (task r) = Some t ->
  inherited id = true ->
  POST (Some r) d = (internalServerError, d)
  /\ GET (Some id) d = internalServerError
  /\ forall request,
       httpStatus (fst (POST request d)) <> 200 -> snd (POST request d) = d.
Proof.
  intros Hd Hid Ht Hi.
  assert (Ho : own id d = None).
  { destruct Hd as [events ->]. rewrite session_agent, Hi. reflexivity. }
  destruct (truthy_nonempty _ _ Hid) as [_ Hne].
  apply String.eqb_neq in Hne. repeat split.
  - unfold POST, property. now rewrite Hid, Ht, Ho, Hi.
  - unfold GET, truthy, property. now rewrite Hne, Ho, Hi.
  - intros [q|]; [|reflexivity]. unfold POST.
    destruct (truthy (sessionId q)) as [key|]; [|reflexivity].
    destruct (truthy (task q)); [|reflexivity].
    destruct (property key d); cbn [fst snd httpStatus]; congruence.
Qed.

(** A task submitted for the session [toString]. *)
Lemma prototype_names_witness :
  let r := {| sessionId := Some "toString"; task := Some "one" |} in
  let d := run [Post (Some {| sessionId := Some "a"; task := Some "x" |})] []
  in
  POST (Some r) d = (internalServerError, d)
  /\ GET (Some "toString") d = internalServerError
  /\ forall request,
       httpStatus (fst (POST request d)) <> 200 -> snd (POST request d) = d.
Proof.
  intros r d.
  apply (prototype_names_are_no_sessions d r "toString" "one").
  - now eexists.
  - reflexivity.
  - reflexivity.
  - reflexivity.
Defined.

(** ** A session from submission to completion *)

Lemma fulfilAll_currentTask (clock : list Z) :
  forall w,
    Agent.currentTask (Agent.state (Agent.self
                                      (Agent.run (Agent.fulfilAll clock) w)))
    = Agent.currentTask (Agent.state (Agent.self w)).
Proof.
  induction clock as [|c clock IH]; intros w; [reflexivity|].
  cbn [Agent.fulfilAll map]. rewrite AgentProperties.run_cons.
  fold (Agent.fulfilAll clock). rewrite IH. cbn [Agent.step].
  apply AgentProperties.settle_currentTask.
Qed.

(** The state a fresh agent loop is left in by a run in which nothing
    throws. *)
Lemma quiet_run_completes (t : string) (clock : list Z) :
  List.length clock = 13 ->
  let s := Agent.getState
             (Agent.run (Agent.quietRun t clock) Agent.newAgentLoop) in
  Agent.status s = Agent.Completed
  /\ Agent.progress s = 100%Z
  /\ Agent.currentTask s = Some t
  /\ Agent.plan s = Agent.planOf t
  /\ Agent.currentStep s = None
  /\ Agent.results s = map Agent.resultOf (Agent.planOf t)
  /\ Agent.error s = None.
Proof.
  intros Hclock. cbn zeta.
  destruct (AgentInvariants.reachable_keeps
              (Agent.run (Agent.quietRun t clock) Agent.newAgentLoop))
    as [(_ & _ & He) Hb]; [now eexists|].
  assert (Hct : Agent.currentTask
                  (Agent.getState
                     (Agent.run (Agent.quietRun t clock) Agent.newAgentLoop))
                = Some t).
  { unfold Agent.quietRun, Agent.getState.
    rewrite AgentProperties.run_cons, fulfilAll_currentTask. reflexivity. }
  revert He Hb Hct. unfold Agent.quietRun.
  destruct clock as [|c0 clock]; [discriminate|].
  destruct (AgentProperties.plan_quiet t c0 Agent.newAgentLoop eq_refl)
    as (w2 & Hplan & Hp & _).
  cbn [Agent.fulfilAll map]. rewrite !AgentProperties.run_cons.
  cbn [Agent.step]. rewrite Hplan. fold (Agent.fulfilAll clock).
  destruct (AgentProperties.loop_quiet 4 0 w2 clock)
    as (Haw & _ & Hsp & Hcs & Hpl & _).
  { now rewrite Hp. }
  { cbn [List.length] in Hclock. lia. }
  cbn zeta in Haw, Hsp, Hcs, Hpl. unfold Agent.getState, Agent.bookkeeping.
  set (w' := Agent.run (Agent.fulfilAll clock) (Agent.enterStep 0 w2)) in *.
  rewrite Haw. cbn zeta. unfold Agent.statusProgress in Hsp.
  injection Hsp as Hst Hpr. rewrite Hst.
  intros He (task' & (_ & Hpt & Hres) & _) Hct.
  rewrite Hpl, Hp in *. repeat split; try assumption.
  - rewrite Hres, <- Hpt. now rewrite firstn_all.
  - destruct (Agent.error (Agent.state (Agent.self w'))); [|reflexivity].
    assert (H : Agent.Completed = Agent.Error) by (apply He; discriminate).
    discriminate H.
Qed.

(** X21. A session whose task is submitted once and whose thirteen awaited
    phases are all fulfilled ends completed, whatever the other sessions do
    in between: [GET] answers 200 with status [Completed], progress 100, the
    task, its plan, one result for every step of the plan and no error. *)
Theorem session_runs_to_completion
    (id t : string) (clock : list Z) (events : list Event) :
  id <> "" ->
  inherited id = false ->
  agentEvents id events = Agent.quietRun t clock ->
  List.length clock = 13 ->
  exists s,
    GET (Some id) (run events [])
    = {| httpStatus := 200; body := StateBody s |}
    /\ Agent.status s = Agent.Completed
    /\ Agent.progress s = 100%Z
    /\ Agent.currentTask s = Some t
    /\ Agent.plan s = Agent.planOf t
    /\ Agent.currentStep s = None
    /\ Agent.results s = map Agent.resultOf (Agent.planOf t)
    /\ Agent.error s = None.
Proof.
  intros Hne Hi Hev Hclock.
  exists (Agent.getState
            (Agent.run (Agent.quietRun t clock) Agent.newAgentLoop)).
  split; [|now apply quiet_run_completes].
  apply String.eqb_neq in Hne.
  unfold GET, truthy, property. rewrite Hne, session_agent, Hi, Hev.
  cbn [negb andb].
  destruct (existsb (submits id) events) eqn:Es; [reflexivity|].
  apply not_submitted_events in Es. rewrite Hev in Es.
  apply Forall_inv in Es as [_ Es]. now elim (Es t).
Qed.

(** Two sessions served in turn: the first is completed, whatever becomes
    of the second. *)
Lemma session_runs_witness :
  let ask id t := Post (Some {| sessionId := Some id; task := Some t |}) in
  let events :=
    ask "a" "one" :: ask "b" "two"
    :: flat_map (fun now => [Resume "a" now Fulfilled;
                             Resume "b" now (Threw (ThrownOther "x"))])
         (map Z.of_nat (seq 1 13)) in
  exists s,
    GET (Some "a") (run events [])
    = {| httpStatus := 200; body := StateBody s |}
    /\ Agent.status s = Agent.Completed
    /\ Agent.progress s = 100%Z
    /\ Agent.currentTask s = Some "one"
    /\ Agent.plan s = Agent.planOf "one"
    /\ Agent.currentStep s = None
    /\ Agent.results s = map Agent.resultOf (Agent.planOf "one")
    /\ Agent.error s = None.
Proof.
  intros ask events.
  apply (session_runs_to_completion "a" "one" (map Z.of_nat (seq 1 13))
           events).
  - discriminate.
  - reflexivity.
  - vm_compute. reflexivity.
  - reflexivity.
Defined.

End ApiProperties.

(** * The WebSocket manager when listeners may throw *)

Lemma callEach_returns {A : Type} (behaviour : FunRef -> A -> Settled)
    (fs : list FunRef) (a : A) :
  Forall (fun f => behaviour f a = Fulfilled) fs ->
  callEach behaviour fs a = (map (fun f => (f, a)) fs, Fulfilled).
Proof.
  induction 1 as [|f fs Hf _ IH]; [reflexivity|].
  cbn [callEach map]. now rewrite Hf, IH.
Qed.

Module WsThrowingProperties.
Import Ws WsThrowing.

Section Listeners.

Variable onState : FunRef -> WebSocketState -> Settled.
Variable onPayload : FunRef -> WebSocketPayload -> Settled.

Lemma throwing_run_cons (e : Event) (l : list Event) (w : World) :
  run onState onPayload (e :: l) w
  = run onState onPayload l (step onState onPayload w e).
Proof. reflexivity. Qed.

(** With listeners that return, [updateState] is the broadcast of module
    [Ws]. *)
Lemma updateState_returns (u : list Assign) (w : World) :
  Forall (returns onState) (stateChangeListeners (self w)) ->
  updateState onState u w = (Ws.updateState u w, Fulfilled).
Proof.
  intros H. unfold updateState, Ws.updateState.
  rewrite callEach_returns; [reflexivity|].
  eapply Forall_impl; [|exact H]. intros f Hf. apply Hf.
Qed.

(** Whatever the listeners do, [updateState] writes the state and nothing
    else of the manager, its sockets and its timers. *)
Lemma updateState_frame (u : list Assign) (w : World) :
  let w' := fst (updateState onState u w) in
  state (self w') = spread (state (self w)) u
  /\ reconnectAttempts (self w') = reconnectAttempts (self w)
  /\ stateChangeListeners (self w') = stateChangeListeners (self w)
  /\ socket (self w') = socket (self w)
  /\ sockets w' = sockets w
  /\ timers w' = timers w
  /\ scheduled w' = scheduled w.
Proof.
  cbn zeta. unfold updateState.
  destruct (callEach onState _ _) as [called o]. cbn. tauto.
Qed.

(** An abnormal close below the cap counts the attempt and starts a timer,
    when the listeners return. *)
Lemma throwing_close_abnormal (r code : nat) (reason : string) (w : World) :
  Forall (returns onState) (stateChangeListeners (self w)) ->
  code <> 1000 ->
  reconnectAttempts (self w) < maxReconnectAttempts ->
  let w' := step onState onPayload w (OnClose r code reason) in
  timers w' = timers w ++ [delayOf (S (reconnectAttempts (self w)))]
  /\ scheduled w'
     = scheduled w ++ [delayOf (S (reconnectAttempts (self w)))]
  /\ reconnectAttempts (self w') = S (reconnectAttempts (self w)).
Proof.
  intros Hl Hcode Hcap. cbn zeta. unfold step. cbn [handle].
  unfold handleClose. rewrite updateState_returns by exact Hl.
  apply Nat.eqb_neq in Hcode. rewrite Hcode.
  cbn [negb andb Ws.updateState setState setSelf tellState self
       reconnectAttempts setReadyState setSockets].
  apply Nat.ltb_lt in Hcap. rewrite Hcap. split; [|split]; reflexivity.
Qed.

(** At the cap, or after a normal close, nothing is scheduled, whatever the
    listeners do. *)
Lemma throwing_close_without_retry (r code : nat) (reason : string)
    (w : World) :
  code = 1000 \/ maxReconnectAttempts <= reconnectAttempts (self w) ->
  let w' := step onState onPayload w (OnClose r code reason) in
  timers w' = timers w
  /\ scheduled w' = scheduled w
  /\ reconnectAttempts (self w') = reconnectAttempts (self w).
Proof.
  intros H. cbn zeta. unfold step. cbn [handle]. unfold handleClose.
  match goal with
  | |- context [updateState onState ?u ?v] =>
      pose proof (updateState_frame u v) as F;
      destruct (updateState onState u v) as [w1 o]
  end.
  cbn [fst] in F. destruct F as (_ & Fa & _ & _ & _ & Ft & Fs).
  destruct o as [|e]; [|cbn [fst]; now rewrite Fa, Ft, Fs].
  rewrite Fa.
  cbn [setReadyState setSockets self reconnectAttempts].
  assert (E : negb (code =? 1000)
              && (reconnectAttempts (self w) <? maxReconnectAttempts)
              = false).
  { destruct H as [->|Hcap]; [reflexivity|].
    apply Nat.ltb_ge in Hcap. now rewrite Hcap, andb_false_r. }
  rewrite E. cbn [fst]. now rewrite Fa, Ft, Fs.
Qed.

(** Only close events schedule, and only open events, close events and
    [disconnect()] write the counter, whatever the listeners do. *)
Lemma throwing_other_events (e : Event) (w : World) :
  neitherOpenNorDisconnect e = true ->
  abnormalClose e = false ->
  scheduled (step onState onPayload w e) = scheduled w
  /\ reconnectAttempts (self (step onState onPayload w e))
     = reconnectAttempts (self w).
Proof.
  intros Hk Ha. unfold step.
  destruct e; try discriminate Hk; cbn [handle].
  - unfold connect. destruct (connectedOrConnecting w); [split; reflexivity|].
    destruct ctor; [split; reflexivity|].
    destruct (updateState_frame
                [SetIsConnected false; SetError (Some (errorText e))] w)
      as (_ & Fa & _ & _ & _ & _ & Fs).
    now split.
  - split; reflexivity.
  - split; reflexivity.
  - unfold addStateChangeListener. split; reflexivity.
  - split; reflexivity.
  - destruct parsed; split; reflexivity.
  - cbn [abnormalClose] in Ha. apply negb_false_iff, Nat.eqb_eq in Ha.
    destruct (throwing_close_without_retry r code reason w (or_introl Ha))
      as (_ & H1 & H2).
    split; assumption.
  - unfold handleError.
    destruct (updateState_frame
                [SetIsConnected false; SetError (Some "Connection error")] w)
      as (_ & Fa & _ & _ & _ & _ & Fs).
    now split.
  - destruct (nth_error (timers w) k); [|split; reflexivity].
    unfold connect.
    destruct (connectedOrConnecting _); [split; reflexivity|].
    destruct ctor; [split; reflexivity|].
    match goal with
    | |- context [updateState onState ?u ?v] =>
        destruct (updateState_frame u v) as (_ & Fa & _ & _ & _ & _ & Fs)
    end.
    now split.
Qed.

(** The listeners registered after an event are those registered before it
    and the one it registers, or fewer. *)
Lemma step_listeners (P : FunRef -> Prop) (e : Event) (w : World) :
  Forall P (stateChangeListeners (self w)) ->
  Forall P (registers e) ->
  Forall P (stateChangeListeners (self (step onState onPayload w e))).
Proof.
  intros Hw He. unfold step. destruct e; cbn [handle registers] in *.
  - unfold connect. destruct (connectedOrConnecting w); [exact Hw|].
    destruct ctor; [exact Hw|].
    match goal with
    | |- context [updateState onState ?u ?v] =>
        destruct (updateState_frame u v) as (_ & _ & -> & _)
    end.
    exact Hw.
  - unfold disconnect. destruct (socket (self w)) as [r|]; [|exact Hw].
    match goal with
    | |- context [updateState onState ?u ?v] =>
        destruct (updateState_frame u v) as (_ & _ & -> & _)
    end.
    cbn [setReconnectAttempts setSocket setSelf self stateChangeListeners].
    destruct (WsProperties.close_frame r w) as (-> & _). exact Hw.
  - exact Hw.
  - exact Hw.
  - unfold addStateChangeListener.
    cbn [fst tellState setStateChangeListeners setSelf self
         stateChangeListeners].
    apply Forall_app. now split.
  - cbn [fst removeStateChangeListener setStateChangeListeners setSelf self
         stateChangeListeners].
    apply Forall_forall. intros x Hx. apply filter_In in Hx as [Hx _].
    revert x Hx. now apply Forall_forall.
  - unfold handleOpen.
    match goal with
    | |- context [updateState onState ?u ?v] =>
        destruct (updateState_frame u v) as (_ & _ & -> & _)
    end.
    exact Hw.
  - destruct parsed; exact Hw.
  - unfold handleClose.
    match goal with
    | |- context [updateState onState ?u ?v] =>
        pose proof (updateState_frame u v) as F;
        destruct (updateState onState u v) as [w1 o]
    end.
    cbn [fst] in F. destruct F as (_ & _ & F & _).
    destruct o; [|cbn [fst]; rewrite F; exact Hw].
    destruct (_ && _); cbn [fst]; [|rewrite F; exact Hw].
    cbn [setTimeout setReconnectAttempts setSelf self stateChangeListeners].
    rewrite F. exact Hw.
  - unfold handleError.
    match goal with
    | |- context [updateState onState ?u ?v] =>
        destruct (updateState_frame u v) as (_ & _ & -> & _)
    end.
    exact Hw.
  - destruct (nth_error (timers w) k); [|exact Hw].
    unfold connect. destruct (connectedOrConnecting _); [exact Hw|].
    destruct ctor; [exact Hw|].
    match goal with
    | |- context [updateState onState ?u ?v] =>
        destruct (updateState_frame u v) as (_ & _ & -> & _)
    end.
    exact Hw.
Qed.

(** The delays scheduled along a run without open events and without
    [disconnect()], from any value of the counter below the cap, when the
    state-change listeners return. *)
Lemma throwing_backoff_from (events : list Event) :
  forall (w : World) (a : nat),
    reconnectAttempts (self w) = a ->
    a <= maxReconnectAttempts ->
    forallb neitherOpenNorDisconnect events = true ->
    Forall (returns onState)
      (stateChangeListeners (self w) ++ flat_map registers events) ->
    let n := Nat.min maxReconnectAttempts (a + abnormalCloses events) in
    scheduled (run onState onPayload events w)
    = scheduled w ++ map delayOf (seq (S a) (n - a))
    /\ reconnectAttempts (self (run onState onPayload events w)) = n.
Proof.
  unfold maxReconnectAttempts.
  induction events as [|e events IH]; intros w a Ha Hcap Hev Hl.
  - cbn [run fold_left abnormalCloses filter List.length].
    rewrite Nat.add_0_r, Nat.min_r, Nat.sub_diag by exact Hcap.
    cbn [seq map]. now rewrite app_nil_r.
  - cbn [forallb] in Hev. apply andb_prop in Hev as [He Hev].
    cbn [flat_map] in Hl. rewrite app_assoc in Hl.
    apply Forall_app in Hl as [Hl Hl'].
    apply Forall_app in Hl as [Hw Hr].
    assert (Hnext : Forall (returns onState)
                      (stateChangeListeners
                         (self (step onState onPayload w e))
                       ++ flat_map registers events)).
    { apply Forall_app. split; [now apply step_listeners|exact Hl']. }
    rewrite throwing_run_cons. unfold abnormalCloses. cbn [filter].
    destruct (abnormalClose e) eqn:Hab.
    + destruct e; try discriminate Hab. cbn [abnormalClose] in Hab.
      apply negb_true_iff, Nat.eqb_neq in Hab. cbn [List.length].
      fold (abnormalCloses events).
      destruct (Nat.eq_dec a 5) as [->|Hlt].
      * destruct (throwing_close_without_retry r code reason w)
          as (_ & Hs & Hc);
          [right; rewrite Ha; unfold maxReconnectAttempts; lia|].
        destruct (IH (step onState onPayload w (OnClose r code reason)) 5)
          as [IH1 IH2]; [congruence|lia|exact Hev|exact Hnext|].
        rewrite IH1, IH2, Hs.
        rewrite !Nat.min_l by lia. split; reflexivity.
      * destruct (throwing_close_abnormal r code reason w Hw Hab)
          as (_ & Hs & Hc);
          [rewrite Ha; unfold maxReconnectAttempts; lia|].
        destruct (IH (step onState onPayload w (OnClose r code reason))
                    (S a)) as [IH1 IH2];
          [congruence|lia|exact Hev|exact Hnext|].
        rewrite IH1, IH2, Hs, Ha, <- app_assoc.
        replace (S a + abnormalCloses events)
          with (a + S (abnormalCloses events)) by lia.
        split; [|reflexivity]. f_equal.
        set (n := Nat.min 5 (a + S (abnormalCloses events))).
        assert (Hn : S a <= n) by (subst n; lia).
        replace (n - a) with (S (n - S a)) by lia. reflexivity.
    + destruct (throwing_other_events e w He Hab) as [Hs Hc].
      destruct (IH (step onState onPayload w e) a) as [IH1 IH2];
        [congruence|exact Hcap|exact Hev|exact Hnext|].
      fold (abnormalCloses events). rewrite IH1, IH2, Hs.
      split; reflexivity.
Qed.

(** With listeners that return, every event does what it does in module
    [Ws]. *)
Lemma returning_listeners_step (e : Event) (w : World) :
  Forall (returns onState) (stateChangeListeners (self w) ++ registers e) ->
  Forall (fun l => forall p, onPayload l p = Fulfilled)
    (messageListeners (self w)) ->
  handle onState onPayload w e = (Ws.step w e, Fulfilled).
Proof.
  intros Hs Hm. apply Forall_app in Hs as [Hs He].
  destruct e; cbn [handle Ws.step].
  - unfold connect, Ws.connect. destruct (connectedOrConnecting w);
      [reflexivity|].
    destruct ctor; [reflexivity|]. now apply updateState_returns.
  - unfold disconnect, Ws.disconnect.
    destruct (socket (self w)) as [r|]; [|reflexivity].
    apply updateState_returns.
    cbn [setReconnectAttempts setSocket setSelf self stateChangeListeners].
    destruct (WsProperties.close_frame r w) as (-> & _). exact Hs.
  - reflexivity.
  - reflexivity.
  - unfold addStateChangeListener, Ws.addStateChangeListener.
    cbn [fst registers] in *. f_equal. apply Forall_inv in He. apply He.
  - reflexivity.
  - unfold handleOpen, Ws.handleOpen. now apply updateState_returns.
  - unfold handleMessage, Ws.handleMessage.
    destruct parsed as [payload|]; [|reflexivity].
    rewrite callEach_returns; [reflexivity|].
    eapply Forall_impl; [|exact Hm]. intros f Hf. apply Hf.
  - unfold handleClose, Ws.handleClose.
    rewrite updateState_returns by exact Hs. cbn zeta.
    destruct (_ && _); reflexivity.
  - unfold handleError, Ws.handleError. now apply updateState_returns.
  - destruct (nth_error (timers w) k); [|reflexivity].
    unfold connect, Ws.connect.
    destruct (connectedOrConnecting _); [reflexivity|].
    destruct ctor; [reflexivity|]. now apply updateState_returns.
Qed.

End Listeners.

(** C8, as the claim states it, fails: a state-change listener that throws
    when it is handed a state with an error message ends [handleClose]
    before the counter is tested.  After an abnormal close with the counter
    at 0 the counter is still 0 and no reconnect is scheduled. *)
Lemma throwing_listener_skips_the_reconnect :
  let onState (_ : FunRef) (s : WebSocketState) :=
    match error s with
    | Some _ => Threw (ThrownError "cannot render")
    | None => Fulfilled
    end in
  let onPayload (_ : FunRef) (_ : WebSocketPayload) := Fulfilled in
  let w :=
    run onState onPayload
      [CallAddStateChangeListener 3; CallConnect Fulfilled; OnOpen 0]
      (newWorld "session" "http:" "localhost:3000") in
  let w' := step onState onPayload w (OnClose 0 1006 "gone") in
  reconnectAttempts (self w) = 0
  /\ isConnected (state (self w)) = true
  /\ handle onState onPayload w (OnClose 0 1006 "gone")
     = (w', Threw (ThrownError "cannot render"))
  /\ reconnectAttempts (self w') = 0
  /\ scheduled w' = []
  /\ timers w' = [].
Proof. vm_compute. repeat split. Qed.

(** C8, amended.  As long as the state-change listeners return: along any
    run that starts with a counter of 0 and contains neither an open event
    nor [disconnect()], the delays scheduled are those of the first five
    abnormal closes, 1000, 1500, 2250, 3375 and 5062.5 (the close that makes
    the counter [n] schedules [1000 * 1.5^(n-1)]), and a sixth abnormal
    close schedules nothing; an open event resets the counter, so the
    abnormal close after it schedules its retry after 1000 again.  What the
    message listeners do plays no role. *)
Theorem reconnect_backoff_when_listeners_return
    (onState : FunRef -> WebSocketState -> Settled)
    (onPayload : FunRef -> WebSocketPayload -> Settled)
    (events : list Event) (w : World) :
  reconnectAttempts (self w) = 0 ->
  forallb neitherOpenNorDisconnect events = true ->
  Forall (returns onState)
    (stateChangeListeners (self w) ++ flat_map registers events) ->
  let n := Nat.min 5 (abnormalCloses events) in
  scheduled (run onState onPayload events w)
  = scheduled w ++ firstn n [1000; 1500; 2250; 3375; 10125 # 2]%Q
  /\ reconnectAttempts (self (run onState onPayload events w)) = n
  /\ (forall v r code reason,
        Forall (returns onState) (stateChangeListeners (self v)) ->
        code <> 1000 ->
        reconnectAttempts (self v) < maxReconnectAttempts ->
        let v' := step onState onPayload v (OnClose r code reason) in
        timers v' = timers v ++ [delayOf (S (reconnectAttempts (self v)))]
        /\ scheduled v'
           = scheduled v ++ [delayOf (S (reconnectAttempts (self v)))]
        /\ reconnectAttempts (self v') = S (reconnectAttempts (self v)))
  /\ (forall k, (delayOf (S k) == 1000 * (3 # 2) ^ Z.of_nat k)%Q)
  /\ (forall v r,
        reconnectAttempts (self (step onState onPayload v (OnOpen r))) = 0)
  /\ (forall v r r' code reason,
        Forall (returns onState) (stateChangeListeners (self v)) ->
        code <> 1000 ->
        scheduled (run onState onPayload [OnOpen r; OnClose r' code reason] v)
        = scheduled v ++ [1000%Q]).
Proof.
  intros H0 Hev Hl.
  destruct (throwing_backoff_from onState onPayload events w 0 H0)
    as [Hs Hc];
    [unfold maxReconnectAttempts; lia|exact Hev|exact Hl|].
  cbn zeta in *. unfold maxReconnectAttempts in *.
  rewrite Nat.add_0_l, Nat.sub_0_r in *.
  assert (Hopen : forall v r,
             reconnectAttempts (self (step onState onPayload v (OnOpen r)))
             = 0).
  { intros v r. unfold step. cbn [handle]. unfold handleOpen.
    match goal with
    | |- context [updateState onState ?u ?x] =>
        destruct (updateState_frame onState u x) as (_ & -> & _)
    end.
    reflexivity. }
  split; [|split; [exact Hc|]].
  - rewrite Hs. f_equal.
    generalize (Nat.min 5 (abnormalCloses events))
      (Nat.le_min_l 5 (abnormalCloses events)).
    intros n Hn.
    destruct n as [|[|[|[|[|[|n]]]]]]; try (vm_compute; reflexivity). lia.
  - split; [intros v r code reason; apply throwing_close_abnormal|].
    split; [apply WsProperties.delayOf_formula|]. split; [exact Hopen|].
    intros v r r' code reason Hv Hcode.
    destruct (throwing_close_abnormal onState onPayload r' code reason
                (step onState onPayload v (OnOpen r)))
      as (_ & T & _);
      [now apply step_listeners|exact Hcode
      |rewrite Hopen; unfold maxReconnectAttempts; lia|].
    cbn [run fold_left]. rewrite T, Hopen.
    match goal with
    | |- context [scheduled (step onState onPayload v (OnOpen r))] =>
        replace (scheduled (step onState onPayload v (OnOpen r)))
          with (scheduled v)
    end; [reflexivity|].
    unfold step. cbn [handle]. unfold handleOpen.
    match goal with
    | |- context [updateState onState ?u ?x] =>
        destruct (updateState_frame onState u x)
          as (_ & _ & _ & _ & _ & _ & ->)
    end.
    reflexivity.
Qed.

(** Six failed connections in a row, each reconnect timer firing before the
    next failure, watched by a state-change listener that returns and by a
    message listener that throws. *)
Lemma reconnect_backoff_returning_witness :
  let onState (_ : FunRef) (_ : WebSocketState) := Fulfilled in
  let onPayload (_ : FunRef) (_ : WebSocketPayload) :=
    Threw (ThrownOther "no") in
  let fails r :=
    [OnError r; OnMessage r (Some {| type := "error"; data := "x" |});
     OnClose r 1006 ""; TimerFires 0 Fulfilled] in
  let w := run onState onPayload
             [CallAddStateChangeListener 1; CallAddMessageListener 2;
              CallConnect Fulfilled]
             (newWorld "session" "http:" "localhost:3000") in
  reconnectAttempts (self w) = 0
  /\ scheduled (run onState onPayload (flat_map fails (seq 0 5)) w)
     = [1000; 1500; 2250; 3375; 10125 # 2]%Q
  /\ scheduled (run onState onPayload (flat_map fails (seq 0 6)) w)
     = [1000; 1500; 2250; 3375; 10125 # 2]%Q.
Proof.
  intros onState onPayload fails w.
  assert (Hl : forall events,
             Forall (returns onState)
               (stateChangeListeners (self w) ++ flat_map registers events)).
  { intros events. apply Forall_forall. intros l _ s. reflexivity. }
  split; [reflexivity|]. split.
  - exact (proj1 (reconnect_backoff_when_listeners_return onState onPayload
                    (flat_map fails (seq 0 5)) w eq_refl eq_refl (Hl _))).
  - exact (proj1 (reconnect_backoff_when_listeners_return onState onPayload
                    (flat_map fails (seq 0 6)) w eq_refl eq_refl (Hl _))).
Defined.

End WsThrowingProperties.

(** * The agent loop when callbacks may throw *)

Module AgentThrowingProperties.
Import Agent AgentThrowing.

Section Callbacks.

Variable onUpdate : FunRef -> AgentState -> Settled.

Lemma throwing_agent_run_cons (e : Event) (l : list Event) (w : World) :
  run onUpdate (e :: l) w = run onUpdate l (step onUpdate w e).
Proof. reflexivity. Qed.

(** ** Callbacks that return *)

Lemma agent_updateState_returns (u : Updates) (w : World) :
  Forall (returns onUpdate) (updateCallbacks (self (loop w))) ->
  updateState onUpdate u w
  = ({| loop := Agent.updateState u (loop w);
        written := written w ++ [spread (state (self (loop w))) u] |},
     inl tt).
Proof.
  intros H. unfold updateState, Agent.updateState. cbn zeta.
  rewrite callEach_returns; [reflexivity|].
  eapply Forall_impl; [|exact H]. intros f Hf. apply Hf.
Qed.

Ltac run_unfold :=
  unfold insideStartTask, afterPlan, afterExecute, afterObserve, afterUpdate,
    planTask, executeStep, observeResult, updatePlan, enterStep,
    completeTask, recordError, awaited, tryCatch, bind, current, ret, raise,
    change.

Ltac run_red :=
  cbv beta iota zeta; unfold alter; cbn [negb];
  repeat match goal with
    | |- context [loop {| loop := ?v; written := ?l |}] =>
        change (loop {| loop := v; written := l |}) with v
    | |- context [written {| loop := ?v; written := ?l |}] =>
        change (written {| loop := v; written := l |}) with l
    end;
  cbv beta iota zeta.

Ltac quiet_side :=
  cbn [alter loop written Agent.updateState print setAwaiting setTaskRunning
       self updateCallbacks]; assumption.

Ltac quiet_run :=
  run_red;
  repeat (rewrite agent_updateState_returns by quiet_side; run_red).

Lemma returning_enterStep (i : nat) (w : World) :
  Forall (returns onUpdate) (updateCallbacks (self (loop w))) ->
  loop (insideStartTask onUpdate (enterStep onUpdate i) w)
  = Agent.enterStep i (loop w).
Proof.
  intros H. unfold Agent.enterStep. run_unfold. run_red.
  destruct (nth_error (plan (state (self (loop w)))) i) as [st|];
    quiet_run; reflexivity.
Qed.



(** ** Callbacks that may throw *)

Ltac open_world w :=
  destruct w as [[[[sta ct pl pr cs rs er hi] b l] k d c] wr].

Ltac world_cbn :=
  cbn [loop written self state awaiting delivered console taskRunning
       updateCallbacks status currentTask plan progress currentStep results
       error history spread fold_left assign finish setAwaiting
       setTaskRunning print working isError negb remaining] in *.

Ltac exec :=
  repeat (run_red; unfold updateState; cbv beta iota zeta; world_cbn;
          try match goal with
            | |- context [callEach onUpdate ?l ?s] =>
                destruct (callEach onUpdate l s) as [? [|?]]
            | |- context [isError ?s] => is_var s; destruct s
            | |- context [nth_error ?l ?i] =>
                let E := fresh "E" in
                destruct (nth_error l i) eqn:E;
                [apply (f_equal (fun x => match x with
                                          | Some _ => true
                                          | None => false
                                          end)) in E as ?|]
            end).








(** Only [onStateUpdate] and the functions it returns write the list of
    callbacks. *)
Lemma task_event_callbacks (e : Event) (w : World) :
  taskEvent e = true ->
  updateCallbacks (self (loop (step onUpdate w e)))
  = updateCallbacks (self (loop w)).
Proof.
  intros He. destruct e as [task|cb|cb|now o]; try discriminate He;
    cbn [step]; open_world w.
  - unfold startTask. world_cbn. destruct b; [reflexivity|].
    run_unfold. exec; reflexivity.
  - unfold settle. world_cbn.
    destruct k as [[p|i st|i r|i ob]|]; [| | | |reflexivity];
      destruct o as [|e]; run_unfold; exec; reflexivity.
Qed.



(** ** Every run ends *)




(** ** What is written is what is broadcast *)

Ltac track :=
  unfold tracks; eexists; split; cycle 1;
  [ unfold catchInStartTask, Agent.completeTask, Agent.recordError, finish;
    AgentProperties.emit
  | cbn [written]; rewrite <- ?app_assoc, ?app_nil_r; cbn [app];
    reflexivity ].

Lemma settle_tracks (now : Z) (o : Settled) (w : World) :
  Forall (returns onUpdate) (updateCallbacks (self (loop w))) ->
  tracks w (settle onUpdate now o w).
Proof.
  intros H. unfold settle.
  destruct (awaiting (loop w)) as [[p|i st|i r|i ob]|].
  - destruct o as [|e]; run_unfold; quiet_run.
    + match goal with
      | |- context [isError ?x] => destruct (isError x)
      end; quiet_run; [track|].
      match goal with
      | |- context [nth_error ?l 0] => destruct (nth_error l 0)
      end; quiet_run; track.
    + track.
  - destruct o as [|e]; run_unfold; quiet_run; [|track].
    match goal with
    | |- context [isError ?x] => destruct (isError x)
    end; quiet_run; track.
  - destruct o as [|e]; run_unfold; quiet_run; track.
  - destruct o as [|e]; run_unfold; quiet_run; [|track].
    match goal with
    | |- context [nth_error ?l (S i)] => destruct (nth_error l (S i))
    end; quiet_run; track.
  - exists []. split; [now rewrite app_nil_r|apply AgentProperties.emits_here].
Qed.

Lemma startTask_tracks (task : string) (w : World) :
  Forall (returns onUpdate) (updateCallbacks (self (loop w))) ->
  tracks w (startTask onUpdate task w).
Proof.
  intros H. unfold startTask.
  destruct (taskRunning (self (loop w))).
  - run_red. track.
  - run_unfold. quiet_run. track.
Qed.

Lemma tracks_trans (w w1 w2 : World) :
  tracks w w1 -> tracks w1 w2 -> tracks w w2.
Proof.
  intros (ss1 & W1 & E1) (ss2 & W2 & E2). exists (ss1 ++ ss2). split.
  - now rewrite W2, W1, app_assoc.
  - now apply AgentBroadcast.emits_trans with (loop w1).
Qed.

Lemma run_tracks (events : list Event) :
  forall w,
    Forall (returns onUpdate) (updateCallbacks (self (loop w))) ->
    forallb taskEvent events = true ->
    tracks w (run onUpdate events w).
Proof.
  induction events as [|e events IH]; intros w H Hev.
  - exists []. split; [now rewrite app_nil_r|apply AgentProperties.emits_here].
  - cbn [forallb] in Hev. apply andb_prop in Hev as [He Hev].
    rewrite throwing_agent_run_cons.
    apply tracks_trans with (step onUpdate w e).
    + destruct e as [task|cb|cb|now o]; try discriminate He; cbn [step].
      * now apply startTask_tracks.
      * now apply settle_tracks.
    + apply IH; [|exact Hev]. now rewrite task_event_callbacks.
Qed.

End Callbacks.

(** A subscriber that throws when it is handed a state without a plan: the
    first broadcast of [startTask] throws, before the [try] is entered.  The
    guard stays set, nothing is suspended, and no later call of [startTask]
    is accepted. *)
Lemma throwing_subscriber_wedges_the_guard :
  let onUpdate (_ : FunRef) (s : AgentState) :=
    match plan s with
    | [] => Threw (ThrownError "nothing to show")
    | _ => Fulfilled
    end in
  let w := run onUpdate [CallOnStateUpdate 1; CallStartTask "one"]
             newAgentLoop in
  taskRunning (self (loop w)) = true
  /\ awaiting (loop w) = None
  /\ state (self (loop w)) = acceptedState "one"
  /\ run onUpdate [Settle 5%Z Fulfilled; CallStartTask "two"] w
     = alter (print WarnLevel "Task already running, ignoring new task") w.
Proof. vm_compute. repeat split. Qed.




Lemma skipn_length_app {A : Type} (l1 l2 : list A) :
  skipn (List.length l1) (l1 ++ l2) = l2.
Proof. induction l1 as [|a l1 IH]; [reflexivity|exact IH]. Qed.

(** X7. As long as the registered callbacks return, during the events of
    task runs every callback is handed every state that is written, in the
    order in which [updateState] assigns them to [this.state], each one as
    many times as the callback is registered, and nothing else; the state of
    the loop is the state written last; a callback that is not registered is
    handed nothing. *)
Theorem every_callback_is_told_what_is_written
    (onUpdate : FunRef -> AgentState -> Settled) (events : list Event)
    (w : World) :
  Forall (returns onUpdate) (updateCallbacks (self (loop w))) ->
  forallb taskEvent events = true ->
  let w' := run onUpdate events w in
  state (self (loop w')) = last (writtenSince w w') (state (self (loop w)))
  /\ (forall callback,
        seenSince callback (loop w) (loop w')
        = flat_map
            (fun s =>
               repeat s
                 (count_occ Nat.eq_dec (updateCallbacks (self (loop w)))
                    callback))
            (writtenSince w w'))
  /\ (forall callback,
        ~ In callback (updateCallbacks (self (loop w))) ->
        seenSince callback (loop w) (loop w') = []).
Proof.
  intros Hr Hev w'.
  destruct (run_tracks onUpdate events w Hr Hev) as (ss & Hw & _ & Hst & Hs).
  fold w' in Hw, Hst, Hs.
  assert (E : writtenSince w w' = ss)
    by (unfold writtenSince; rewrite Hw; apply skipn_length_app).
  rewrite E.
  assert (Hseen : forall callback,
             seenSince callback (loop w) (loop w')
             = flat_map
                 (fun s =>
                    repeat s
                      (count_occ Nat.eq_dec
                         (updateCallbacks (self (loop w))) callback)) ss).
  { intros cb. apply AgentProperties.seenSince_app. apply Hs. }
  split; [exact Hst|]. split; [exact Hseen|].
  intros cb Hcb. rewrite Hseen.
  rewrite (proj1 (count_occ_not_In Nat.eq_dec _ _) Hcb).
  clear. induction ss as [|s ss IH]; [reflexivity|exact IH].
Qed.

(** A task run watched by one callback registered twice and one registered
    once. *)
Lemma every_callback_told_witness :
  let onUpdate (_ : FunRef) (_ : AgentState) := Fulfilled in
  let w := run onUpdate
             [CallOnStateUpdate 7; CallOnStateUpdate 8; CallOnStateUpdate 7]
             newAgentLoop in
  let w' := run onUpdate (quietRun "Buy groceries" (repeat 1000%Z 13)) w in
  List.length (writtenSince w w') = 27
  /\ seenSince 8 (loop w) (loop w') = writtenSince w w'
  /\ seenSince 7 (loop w) (loop w')
     = flat_map (fun s => [s; s]) (writtenSince w w').
Proof.
  intros onUpdate w w'. split; [vm_compute; reflexivity|].
  destruct (every_callback_is_told_what_is_written onUpdate
              (quietRun "Buy groceries" (repeat 1000%Z 13)) w)
    as (_ & H & _).
  - repeat constructor.
  - reflexivity.
  - fold w' in H. rewrite !H.
    change (count_occ Nat.eq_dec (updateCallbacks (self (loop w))) 8) with 1.
    change (count_occ Nat.eq_dec (updateCallbacks (self (loop w))) 7) with 2.
    split; [|reflexivity].
    generalize (writtenSince w w'). intros ss.
    induction ss as [|s ss IH]; [reflexivity|].
    cbn [flat_map repeat app] in *. now f_equal.
Defined.

End AgentThrowingProperties.

(** * The agent endpoint over arbitrary request bodies *)

Module ApiJsonProperties.
Import Api ApiJson.

Lemma json_run_cons (e : Event) (events : list Event) (d : Instances) :
  run (e :: events) d
  = match step d e with
    | Some d' => run events d'
    | None => None
    end.
Proof. reflexivity. Qed.

(** A run is defined when every task that reaches [startTask] is a
    string. *)
Lemma text_tasks_run (events : list Event) :
  forall d, forallb textTask events = true -> exists d', run events d = Some d'.
Proof.
  induction events as [|e events IH]; intros d H; [now exists d|].
  cbn [forallb] in H. apply andb_prop in H as [He H].
  rewrite json_run_cons.
  assert (Hs : exists d1, step d e = Some d1).
  { destruct e as [[r|]|i|key now o]; cbn [step POST].
    - destruct (negb (truthy (sessionId r))); [now eexists|].
      destruct (negb (truthy (task r))) eqn:Et; [now eexists|].
      destruct (propertyKey (sessionId r)) as [id|]; [|now eexists].
      cbn [textTask] in He.
      destruct (task r) as [|t|[|] k]; try discriminate;
        destruct (property id d); now eexists.
    - now eexists.
    - now eexists.
    - destruct (own key d); now eexists. }
  destruct Hs as [d1 ->]. now apply IH.
Qed.

Ltac same_dictionary :=
  match goal with
  | Es : _ = Some _ |- _ =>
      cbn [option_map snd] in Es; injection Es as <-;
      cbn [app orb andb]; reflexivity
  end.

(** The agent stored under [id] after a run: the agent that was stored
    before, or a fresh one made by the first submission, advanced by what
    the events ask of this key and by nothing else. *)
Lemma session_agent_from (id : string) (events : list Event) :
  forall d d',
    run events d = Some d' ->
    own id d'
    = match own id d with
      | Some a => Some (Agent.run (agentEvents id events) a)
      | None =>
          if negb (inherited id) && existsb (submits id) events
          then Some (Agent.run (agentEvents id events) Agent.newAgentLoop)
          else None
      end.
Proof.
  induction events as [|e events IH]; intros d d' H.
  - injection H as <-. cbn [existsb agentEvents flat_map Agent.run fold_left].
    rewrite andb_false_r. now destruct (own id d).
  - rewrite json_run_cons in H.
    destruct (step d e) as [d1|] eqn:Es; [|discriminate].
    rewrite (IH d1 d' H). clear IH H.
    unfold agentEvents. cbn [flat_map existsb]. fold (agentEvents id events).
    destruct e as [[r|]|i|key now o]; cbn [step] in Es.
    + (* a submission *)
      cbn [agentEvent submits]. cbn [POST] in Es.
      destruct (truthy (sessionId r)); cbn [negb andb] in *;
        [|same_dictionary].
      destruct (truthy (task r)); cbn [negb andb] in *; [|same_dictionary].
      destruct (propertyKey (sessionId r)) as [key|]; [|same_dictionary].
      destruct (String.eqb key id) eqn:E.
      * apply String.eqb_eq in E. subst key. unfold property in Es.
        destruct (own id d) as [a|] eqn:Eo.
        -- destruct (task r) as [|t|tr k]; try discriminate Es.
           cbn [option_map snd] in Es. injection Es as <-.
           now rewrite ApiProperties.own_store_same.
        -- destruct (inherited id) eqn:Ei.
           ++ cbn [option_map snd] in Es. injection Es as <-.
              now rewrite Eo.
           ++ destruct (task r) as [|t|tr k]; try discriminate Es.
              cbn [option_map snd] in Es. injection Es as <-.
              rewrite ApiProperties.own_store_same. cbn [negb andb orb].
              reflexivity.
      * cbn [app orb].
        assert (Hd : own id d1 = own id d).
        { unfold property in Es.
          destruct (own key d);
            [destruct (task r); try discriminate Es;
             cbn [option_map snd] in Es; injection Es as <-;
             now apply ApiProperties.own_store_other|].
          destruct (inherited key);
            [cbn [option_map snd] in Es; now injection Es as <-|].
          destruct (task r); try discriminate Es.
          cbn [option_map snd] in Es. injection Es as <-.
          now apply ApiProperties.own_store_other. }
        now rewrite Hd.
    + same_dictionary.
    + same_dictionary.
    + cbn [agentEvent submits orb].
      destruct (String.eqb key id) eqn:E.
      * apply String.eqb_eq in E. subst key.
        destruct (own id d) as [a|] eqn:Eo; injection Es as <-.
        -- now rewrite ApiProperties.own_store_same.
        -- rewrite Eo. reflexivity.
      * cbn [app].
        destruct (own key d); injection Es as <-;
          [now rewrite ApiProperties.own_store_other|reflexivity].
Qed.

(** X16. After any sequence of requests and resumptions in which every task
    that reaches [startTask] is a string, whatever JSON values the session
    ids are: [GET] answers 400 for a missing or empty session id, 500 for an
    id that names a property of [Object.prototype], 404 when no submission
    that passed the validation has named this key, and otherwise 200 with
    the state of an agent loop that was given the submissions and
    resumptions of this key, in order, and nothing of any other. *)
Theorem GET_answers_by_the_submissions
    (id : string) (events : list Event) :
  forallb textTask events = true ->
  exists d,
    run events [] = Some d
    /\ GET (Some id) d
       = if String.eqb id "" then
           {| httpStatus := 400;
              body := ErrorBody "Session ID is required" |}
         else if inherited id then internalServerError
         else if existsb (submits id) events then
           {| httpStatus := 200;
              body :=
                StateBody
                  (Agent.getState
                     (Agent.run (agentEvents id events)
                        Agent.newAgentLoop)) |}
         else
           {| httpStatus := 404;
              body := ErrorBody "Agent not found for this session" |}.
Proof.
  intros H. destruct (text_tasks_run events [] H) as [d Hd].
  exists d. split; [exact Hd|].
  unfold GET, Api.truthy. destruct (String.eqb id ""); [reflexivity|].
  unfold property. rewrite (session_agent_from id events [] d Hd).
  cbn [own]. destruct (inherited id); cbn [negb andb]; [reflexivity|].
  destruct (existsb (submits id) events); reflexivity.
Qed.

(** Submissions whose session ids are a string, an array with one string,
    the empty array and a number. *)
Lemma GET_answers_witness :
  let ask s t := Post (Some {| sessionId := s; task := Text t |}) in
  let events :=
    [ask (Text "a") "one"; ask (Other true (Some "a")) "two";
     ask (Other true (Some "")) "three"; Resume "a" 5%Z Fulfilled;
     ask (Other true (Some "42")) "four"; ask (Other false (Some "0")) "five";
     ask (Text "valueOf") "six"] in
  exists d,
    run events [] = Some d
    /\ map (fun id => httpStatus (GET id d))
         [None; Some ""; Some "a"; Some "42"; Some "0"; Some "valueOf"]
       = [400; 400; 200; 200; 404; 500]
    /\ GET (Some "a") d
       = {| httpStatus := 200;
            body :=
              StateBody
                (Agent.getState
                   (Agent.run
                      [Agent.CallStartTask "one"; Agent.CallStartTask "two";
                       Agent.Settle 5%Z Fulfilled] Agent.newAgentLoop)) |}.
Proof.
  intros ask events.
  destruct (GET_answers_by_the_submissions "a" events eq_refl)
    as (d & Hd & Hget).
  exists d. split; [exact Hd|]. split; [|exact Hget].
  vm_compute in Hd. injection Hd as <-. vm_compute. reflexivity.
Defined.

(** X17. An agent, once it is stored, is never dropped and never replaced:
    after any later requests and resumptions the dictionary holds, under the
    same key, that agent advanced by the submissions and resumptions of its
    key and by nothing else.  A key that appears has been named by a
    submission that passed the validation, and no agent is ever stored under
    a name [Object.prototype] defines. *)
Theorem agents_are_never_dropped_or_replaced
    (events later : list Event) (d d' : Instances) :
  run events [] = Some d ->
  run later d = Some d' ->
  (forall id a,
      own id d = Some a ->
      own id d' = Some (Agent.run (agentEvents id later) a))
  /\ (forall id,
        own id d = None -> own id d' <> None ->
        existsb (submits id) later = true)
  /\ (forall id, inherited id = true -> own id d' = None).
Proof.
  intros Hd Hd'. split; [|split].
  - intros id a Ha. rewrite (session_agent_from id later d d' Hd'), Ha.
    reflexivity.
  - intros id Hn Hs. rewrite (session_agent_from id later d d' Hd'), Hn in Hs.
    destruct (existsb (submits id) later); [reflexivity|].
    rewrite andb_false_r in Hs. now elim Hs.
  - intros id Hi.
    rewrite (session_agent_from id later d d' Hd').
    rewrite (session_agent_from id events [] d Hd). cbn [own].
    rewrite Hi. reflexivity.
Qed.

(** The session of the empty array, whose key is the empty string, among
    others. *)
Lemma agents_are_kept_witness :
  let ask s t := Post (Some {| sessionId := s; task := Text t |}) in
  let events := [ask (Other true (Some "")) "one"; ask (Text "a") "two"] in
  let later :=
    [Resume "" 5%Z Fulfilled; ask (Text "toString") "three";
     ask (Text "b") "four"; Resume "a" 6%Z (Threw (ThrownError "down"))] in
  exists d d',
    run events [] = Some d
    /\ run later d = Some d'
    /\ map fst d = [""; "a"]
    /\ (forall id a,
          own id d = Some a ->
          own id d' = Some (Agent.run (agentEvents id later) a))
    /\ own "toString" d' = None.
Proof.
  intros ask events later.
  destruct (text_tasks_run events [] eq_refl) as [d Hd].
  destruct (text_tasks_run later d eq_refl) as [d' Hd'].
  exists d, d'.
  destruct (agents_are_never_dropped_or_replaced events later d d' Hd Hd')
    as (H1 & _ & H3).
  split; [exact Hd|]. split; [exact Hd'|].
  split; [|split; [exact H1|now apply H3]].
  vm_compute in Hd. injection Hd as <-. reflexivity.
Defined.

End ApiJsonProperties.
